(** * tele-antig: the agent-state inference core

    A shallow embedding of the bridge's activity tracker and context-flag
    poller (class [AntigravityBridge], in the revision that polls the
    context keys) and of the trajectory monitor (class [TrajectoryMonitor],
    in the revision that accepts and rejects waiting steps) together with
    the part of [lsClient.ts] it calls.

    Conventions of the embedding.
    - A JavaScript number that holds a count, an index or a clock reading is
      a [Z]; [Date.now()] is an argument [now] of the operation that reads it.
    - A JavaScript string is a [string], one [ascii] per code unit, for
      text whose code units are below 256. The Korean phrases the source
      puts into its events are kept as the bytes of the source file; no
      definition looks inside them. A string inside a [JSValue] is a
      [jstring], the list of its code units, since an escape in a JSON text
      can name any of the 65536; a [string] is read as a [jstring] where
      one is expected.
    - [this.emit(e)] inside an operation is recorded by returning [e] in the
      list of emitted events, in emission order; the dispatch of one event
      to the registered listeners is [emit] itself, modelled on its own, and
      the operations are modelled for dispatches that return.
    - Lines written to the output channel are kept only where the source
      writes them from a [catch] block of [emit]; they never feed back into
      the state. *)

From Stdlib Require Import ZArith String Ascii List Bool Lia.
From stdpp Require Import base decidable option list gmap strings pretty.
Import ListNotations.

Set Warnings "-register-all,-clear-no-such-hyp".

Local Open Scope string_scope.
Local Open Scope list_scope.
Local Open Scope Z_scope.

(** ** JavaScript values and library functions used by the source *)

Module JS.

(** The outcome of awaiting a promise, or of a call that may throw. *)
Inductive Awaited (A : Type) : Type :=
| Resolved (a : A)
| Rejected (msg : string).
Arguments Resolved {A} a.
Arguments Rejected {A} msg.

(** The code units of a string, each in [0, 65535]. *)
Definition jstring : Type := list Z.

Fixpoint units (s : string) : jstring :=
  match s with
  | EmptyString => []
  | String c r => Z.of_nat (nat_of_ascii c) :: units r
  end.
Coercion units : string >-> jstring.

(** [a === b] on strings. *)
Fixpoint jstring_eqb (a b : jstring) : bool :=
  match a, b with
  | [], [] => true
  | x :: a', y :: b' => (x =? y) && jstring_eqb a' b'
  | _, _ => false
  end.

(** Values produced by [JSON.parse], also used for object literals.
    [JNum m e] is the number [m * 10^e]. An object holds its properties in
    the order in which they were first set; no definition enumerates the
    properties of a parsed object, so the place JavaScript gives to names
    that are array indices is not modelled. *)
Inductive JSValue : Type :=
| JNull
| JBool (b : bool)
| JNum (m e : Z)
| JStr (s : jstring)
| JArr (items : list JSValue)
| JObj (props : list (jstring * JSValue)).

(** [number -> boolean]: a double is falsy when it is zero. A decimal
    literal [m * 10^e] with [m <> 0] still reads as zero when it is at most
    [2^-1075], half the smallest subnormal. *)
Definition num_is_zero (m e : Z) : bool :=
  (m =? 0) || ((e <? 0) && (Z.abs m * 2 ^ 1075 <=? 10 ^ (- e))).

Definition truthy (v : JSValue) : bool :=
  match v with
  | JNull => false
  | JBool b => b
  | JNum m e => negb (num_is_zero m e)
  | JStr s => negb (jstring_eqb s [])
  | JArr _ | JObj _ => true
  end.

(** [o[k] = v] on a plain object: an existing property keeps its place. *)
Fixpoint obj_set (k : jstring) (v : JSValue) (props : list (jstring * JSValue))
  : list (jstring * JSValue) :=
  match props with
  | [] => [(k, v)]
  | (k', v') :: rest =>
      if jstring_eqb k' k then (k, v) :: rest else (k', v') :: obj_set k v rest
  end.

Fixpoint obj_get (k : jstring) (props : list (jstring * JSValue)) : option JSValue :=
  match props with
  | [] => None
  | (k', v') :: rest => if jstring_eqb k' k then Some v' else obj_get k rest
  end.

(** [v.k] for a value that came out of [JSON.parse]: [None] is
    [undefined]; on [null] the access throws a [TypeError]. *)
Definition get_prop (v : JSValue) (k : jstring) : Awaited (option JSValue) :=
  match v with
  | JNull => Rejected "TypeError"
  | JObj props => Resolved (obj_get k props)
  | _ => Resolved None
  end.

(** *** Characters *)

Definition code (c : ascii) : Z := Z.of_nat (nat_of_ascii c).
Definition chr (z : Z) : ascii := ascii_of_nat (Z.to_nat z).

Definition is_upper (c : ascii) : bool := (65 <=? code c) && (code c <=? 90).
Definition is_lower (c : ascii) : bool := (97 <=? code c) && (code c <=? 122).
Definition is_digit (c : ascii) : bool := (48 <=? code c) && (code c <=? 57).
(** [\w] *)
Definition is_word (c : ascii) : bool :=
  is_upper c || is_lower c || is_digit c || (code c =? 95).

(** [String.prototype.toLowerCase], code units below 256. *)
Definition lower_char (c : ascii) : ascii :=
  let n := code c in
  if is_upper c then chr (n + 32)
  else if (192 <=? n) && (n <=? 222) && negb (n =? 215) then chr (n + 32)
  else c.
Definition upper_char (c : ascii) : ascii :=
  if is_lower c then chr (code c - 32) else c.

Fixpoint toLowerCase (s : string) : string :=
  match s with
  | EmptyString => EmptyString
  | String c r => String (lower_char c) (toLowerCase r)
  end.

(** White space and line terminators removed by [trim], below 256. *)
Definition is_space (c : ascii) : bool :=
  let n := code c in
  ((9 <=? n) && (n <=? 13)) || (n =? 32) || (n =? 160).

Fixpoint trimStart (s : string) : string :=
  match s with
  | EmptyString => EmptyString
  | String c r => if is_space c then trimStart r else s
  end.

Fixpoint trimEnd (s : string) : string :=
  match s with
  | EmptyString => EmptyString
  | String c r =>
      match trimEnd r with
      | EmptyString => if is_space c then EmptyString else String c EmptyString
      | r' => String c r'
      end
  end.

Definition trim (s : string) : string := trimEnd (trimStart s).

(** [s.startsWith(p)], returning what follows the prefix. *)
Fixpoint strip_prefix (eqc : ascii -> ascii -> bool) (p s : string) : option string :=
  match p, s with
  | EmptyString, _ => Some s
  | String a p', String b s' => if eqc a b then strip_prefix eqc p' s' else None
  | String _ _, EmptyString => None
  end.

Definition eq_char (a b : ascii) : bool := Ascii.eqb a b.
(** Comparison under the [i] flag; the patterns of the source are ASCII. *)
Definition eq_char_ci (a b : ascii) : bool := Ascii.eqb (upper_char a) (upper_char b).

(** [/p/i.test(s)] for a literal pattern [p]. *)
Fixpoint test_ci (p s : string) : bool :=
  match strip_prefix eq_char_ci p s with
  | Some _ => true
  | None => match s with
            | EmptyString => false
            | String _ r => test_ci p r
            end
  end.

Fixpoint take_word (s : string) : string :=
  match s with
  | EmptyString => EmptyString
  | String c r => if is_word c then String c (take_word r) else EmptyString
  end.

(** *** [JSON.parse]

    A recursive-descent reader of the JSON grammar (ECMA-404) over a text
    whose code units are below 256; a [\u] escape gives the code unit it
    names, whichever it is. [None] stands for the [SyntaxError]. *)

Definition is_json_ws (c : ascii) : bool :=
  let n := code c in (n =? 32) || (n =? 9) || (n =? 10) || (n =? 13).

Fixpoint skip_ws (s : string) : string :=
  match s with
  | EmptyString => EmptyString
  | String c r => if is_json_ws c then skip_ws r else s
  end.

Definition hex_val (c : ascii) : option Z :=
  let n := code c in
  if is_digit c then Some (n - 48)
  else if (97 <=? n) && (n <=? 102) then Some (n - 87)
  else if (65 <=? n) && (n <=? 70) then Some (n - 55)
  else None.

Definition hex4 (a b c d : ascii) : option Z :=
  match hex_val a, hex_val b, hex_val c, hex_val d with
  | Some x, Some y, Some z, Some w => Some (((x * 16 + y) * 16 + z) * 16 + w)
  | _, _, _, _ => None
  end.

(** The character after a backslash, [u] apart. *)
Definition simple_escape (c : ascii) : option ascii :=
  let n := code c in
  if (n =? 34) || (n =? 92) || (n =? 47) then Some c
  else if n =? 98 then Some (chr 8)
  else if n =? 102 then Some (chr 12)
  else if n =? 110 then Some (chr 10)
  else if n =? 114 then Some (chr 13)
  else if n =? 116 then Some (chr 9)
  else None.

(** The code units of a string literal after its opening quote, and what
    follows the closing quote. *)
Fixpoint parse_string_body (s : string) : option (jstring * string) :=
  match s with
  | EmptyString => None
  | String c r =>
      if code c =? 34 then Some ([], r)
      else if code c <? 32 then None
      else if code c =? 92 then
        match r with
        | EmptyString => None
        | String e r1 =>
            match simple_escape e with
            | Some x =>
                match parse_string_body r1 with
                | Some (body, rest) => Some (code x :: body, rest)
                | None => None
                end
            | None =>
                if code e =? 117 then
                  match r1 with
                  | String h1 (String h2 (String h3 (String h4 r2))) =>
                      match hex4 h1 h2 h3 h4 with
                      | Some n =>
                          match parse_string_body r2 with
                          | Some (body, rest) => Some (n :: body, rest)
                          | None => None
                          end
                      | None => None
                      end
                  | _ => None
                  end
                else None
            end
        end
      else
        match parse_string_body r with
        | Some (body, rest) => Some (code c :: body, rest)
        | None => None
        end
  end.

(** A run of decimal digits: its value continued from [acc], the number of
    digits read, and the rest. *)
Fixpoint take_digits (s : string) (acc : Z) (n : Z) : Z * Z * string :=
  match s with
  | EmptyString => (acc, n, s)
  | String c r =>
      if is_digit c then take_digits r (acc * 10 + (code c - 48)) (n + 1)
      else (acc, n, s)
  end.

(** [int frac? exp?] after an optional minus sign already applied by the
    caller: the mantissa, the decimal exponent and the rest. *)
Definition parse_unsigned (s : string) : option (Z * Z * string) :=
  match s with
  | EmptyString => None
  | String c r =>
      if negb (is_digit c) then None
      else
        let '(ip, _, r1) :=
          if code c =? 48 then (0, 1, r) else take_digits s 0 0 in
        let frac :=
          match r1 with
          | String d r2 =>
              if code d =? 46 then
                let '(m, k, r3) := take_digits r2 ip 0 in
                if k =? 0 then None else Some (m, k, r3)
              else Some (ip, 0, r1)
          | EmptyString => Some (ip, 0, r1)
          end in
        match frac with
        | None => None
        | Some (m, k, r3) =>
            match r3 with
            | String x r4 =>
                if (code x =? 101) || (code x =? 69) then
                  let '(neg, r5) :=
                    match r4 with
                    | String sg r5 =>
                        if code sg =? 45 then (true, r5)
                        else if code sg =? 43 then (false, r5)
                        else (false, r4)
                    | EmptyString => (false, r4)
                    end in
                  let '(ex, kx, r6) := take_digits r5 0 0 in
                  if kx =? 0 then None
                  else Some (m, (if neg then - ex else ex) - k, r6)
                else Some (m, - k, r3)
            | EmptyString => Some (m, - k, r3)
            end
        end
  end.

Definition parse_number (s : string) : option (JSValue * string) :=
  match s with
  | String c r =>
      if code c =? 45 then
        match parse_unsigned r with
        | Some (m, e, rest) => Some (JNum (- m) e, rest)
        | None => None
        end
      else
        match parse_unsigned s with
        | Some (m, e, rest) => Some (JNum m e, rest)
        | None => None
        end
  | EmptyString => None
  end.

(** Duplicate names in an object: the last value wins and the property
    keeps the place of its first occurrence. *)
Definition obj_of_members (ms : list (jstring * JSValue)) : JSValue :=
  JObj (fold_left (fun ps kv => obj_set (fst kv) (snd kv) ps) ms []).

Fixpoint parse_value (fuel : nat) (s : string) {struct fuel}
  : option (JSValue * string) :=
  match fuel with
  | O => None
  | S f =>
      match skip_ws s with
      | EmptyString => None
      | String c r =>
          if code c =? 123 then
            match skip_ws r with
            | String d r1 =>
                if code d =? 125 then Some (JObj [], r1)
                else match parse_members f r with
                     | Some (ms, rest) => Some (obj_of_members ms, rest)
                     | None => None
                     end
            | EmptyString => None
            end
          else if code c =? 91 then
            match skip_ws r with
            | String d r1 =>
                if code d =? 93 then Some (JArr [], r1)
                else match parse_elements f r with
                     | Some (vs, rest) => Some (JArr vs, rest)
                     | None => None
                     end
            | EmptyString => None
            end
          else if code c =? 34 then
            match parse_string_body r with
            | Some (body, rest) => Some (JStr body, rest)
            | None => None
            end
          else
            match strip_prefix eq_char "true" (String c r) with
            | Some rest => Some (JBool true, rest)
            | None =>
            match strip_prefix eq_char "false" (String c r) with
            | Some rest => Some (JBool false, rest)
            | None =>
            match strip_prefix eq_char "null" (String c r) with
            | Some rest => Some (JNull, rest)
            | None => parse_number (String c r)
            end end end
      end
  end
with parse_members (fuel : nat) (s : string) {struct fuel}
  : option (list (jstring * JSValue) * string) :=
  match fuel with
  | O => None
  | S f =>
      match skip_ws s with
      | EmptyString => None
      | String q r =>
          if negb (code q =? 34) then None
          else
            match parse_string_body r with
            | None => None
            | Some (k, r1) =>
                match skip_ws r1 with
                | EmptyString => None
                | String colon r2 =>
                    if negb (code colon =? 58) then None
                    else
                      match parse_value f r2 with
                      | None => None
                      | Some (v, r3) =>
                          match skip_ws r3 with
                          | EmptyString => None
                          | String d r4 =>
                              if code d =? 125 then Some ([(k, v)], r4)
                              else if code d =? 44 then
                                match parse_members f r4 with
                                | Some (ms, rest) => Some ((k, v) :: ms, rest)
                                | None => None
                                end
                              else None
                          end
                      end
                end
            end
      end
  end
with parse_elements (fuel : nat) (s : string) {struct fuel}
  : option (list JSValue * string) :=
  match fuel with
  | O => None
  | S f =>
      match parse_value f s with
      | None => None
      | Some (v, r1) =>
          match skip_ws r1 with
          | EmptyString => None
          | String d r2 =>
              if code d =? 93 then Some ([v], r2)
              else if code d =? 44 then
                match parse_elements f r2 with
                | Some (vs, rest) => Some (v :: vs, rest)
                | None => None
                end
              else None
          end
      end
  end.

(** [JSON.parse(text)]: one value, with nothing but white space around it.
    A nested call comes after at least one consumed character, at most two
    calls deep, so twice the length of the text is fuel enough
    ([JSONFacts.JSON_parse_fuel_enough]). *)
Definition JSON_parse (text : string) : option JSValue :=
  match parse_value (2 * String.length text + 2) text with
  | Some (v, rest) =>
      match skip_ws rest with
      | EmptyString => Some v
      | String _ _ => None
      end
  | None => None
  end.

(** A double quote, and a text between double quotes. *)
Definition dq : string := String (chr 34) EmptyString.
Definition quoted (s : string) : string := dq +:+ s +:+ dq.

End JS.
Export JS.


(** ** The listener registry and the dispatch of an event

    Both classes keep their listeners in an array and share three pieces of
    code: [onEvent] pushes the listener and returns a [Disposable] whose
    callback is [const idx = this.listeners.indexOf(listener);
    if (idx >= 0) this.listeners.splice(idx, 1)], and [emit] is
    [for (const listener of this.listeners) { try { listener(event); }
     catch (e) { this.output.appendLine(`... Listener error: ${e}`); } }].
    The loop reads the array itself, through an iterator that holds an
    index, so what a listener does to the registrations while it runs is
    seen by the rest of the loop. *)

Module Dispatch.

(** A value that a listener throws, as far as the [catch] block looks at
    it: the text the template literal makes of it, or, for a value that has
    no string conversion (a symbol, an object without a prototype, an object
    whose [toString] throws), the error that the conversion throws. *)
Inductive Thrown : Type :=
| Printable (text : string)
| Unprintable (error : string).

(** A listener is a function object, and [indexOf] compares function
    objects by identity: a listener is named by a number. This is what a
    listener may do to the registrations while it runs: register a
    listener, or dispose a registration of one, which runs the callback of
    the [Disposable] once. *)
Inductive RegistryCall : Type :=
| Subscribe (listener : nat)
| Dispose (listener : nat).

Section Emit.
Context {W E : Type}.

(** What one call [listener(event)] does: the state in which it leaves the
    world [W] of the registered code, the calls it makes on the registry, in
    order, and whether it returns or throws. *)
Record Reaction := {
  leaves : W;
  registryCalls : list RegistryCall;
  throws : option Thrown
}.

(** The code of each listener. *)
Definition Behaviour : Type := nat -> E -> W -> Reaction.

(** What [emit] runs in: the world of the registered code, the listener
    array and the output channel. *)
Record Host := { world : W; listeners : list nat; output : list string }.

(** [Array.prototype.indexOf]: [None] is [-1]. *)
Fixpoint indexOf (listener : nat) (ls : list nat) : option nat :=
  match ls with
  | [] => None
  | l :: rest => if Nat.eqb l listener then Some O else S <$> indexOf listener rest
  end.

(** [onEvent]: [this.listeners.push(listener)]. *)
Definition onEvent (listener : nat) (ls : list nat) : list nat := ls ++ [listener].

(** The callback of the [Disposable]. *)
Definition dispose (listener : nat) (ls : list nat) : list nat :=
  match indexOf listener ls with
  | Some idx => delete idx ls
  | None => ls
  end.

Definition perform (ls : list nat) (c : RegistryCall) : list nat :=
  match c with
  | Subscribe l => onEvent l ls
  | Dispose l => dispose l ls
  end.

(** How a call of [emit] ends: it returns, it throws, or the loop was
    still running when the fuel ran out. *)
Inductive Completion : Type :=
| Returned (h : Host)
| Threw (error : string) (h : Host)
| OutOfFuel.

(** The loop, from the iterator's index on. Each turn reads
    [this.listeners[index]] from the array as it is then and ends the loop
    when the index is past the end. A listener that throws a printable value
    costs a line in the channel; for one that throws a value without string
    conversion the [catch] block throws in its turn and [emit] with it. *)
Fixpoint iterate (prefix : string) (code : Behaviour) (ev : E)
  (fuel index : nat) (h : Host) : Completion :=
  match fuel with
  | O => OutOfFuel
  | S f =>
      match listeners h !! index with
      | None => Returned h
      | Some listener =>
          let r := code listener ev (world h) in
          let ls := fold_left perform (registryCalls r) (listeners h) in
          match throws r with
          | None =>
              iterate prefix code ev f (S index)
                {| world := leaves r; listeners := ls; output := output h |}
          | Some (Printable text) =>
              iterate prefix code ev f (S index)
                {| world := leaves r; listeners := ls;
                   output := output h ++ [prefix +:+ " Listener error: " +:+ text] |}
          | Some (Unprintable error) =>
              Threw error {| world := leaves r; listeners := ls; output := output h |}
          end
      end
  end.

(** [emit]. A listener that subscribes another one on every call keeps
    the loop running for ever; [fuel] bounds the turns of the loop. *)
Definition emit (prefix : string) (code : Behaviour) (fuel : nat) (ev : E) (h : Host)
  : Completion :=
  iterate prefix code ev fuel 0 h.

(** The line, if any, that a reaction adds to the channel. *)
Definition error_line (prefix : string) (r : Reaction) : list string :=
  match throws r with
  | Some (Printable text) => [prefix +:+ " Listener error: " +:+ text]
  | _ => []
  end.

(** Running each listener of [ls] once, in order, each on the world left
    by the one before it: the world and the channel at the end. *)
Fixpoint deliver_all (prefix : string) (code : Behaviour) (ev : E) (ls : list nat)
  (w : W) (out : list string) : W * list string :=
  match ls with
  | [] => (w, out)
  | l :: rest =>
      deliver_all prefix code ev rest
        (leaves (code l ev w)) (out ++ error_line prefix (code l ev w))
  end.

End Emit.
Arguments Reaction : clear implicits.
Arguments Behaviour : clear implicits.
Arguments Host : clear implicits.
Arguments Completion : clear implicits.

End Dispatch.

(** ** The bridge: activity tracker and context-flag poller *)

Module Bridge.

Inductive EventType : Type :=
| file_change | terminal_output | step_request | info | error.

Record AgentEvent := {
  type : EventType;
  content : string;
  timestamp : Z
}.

Record ActivityState := {
  promptSentAt : Z;
  hadActivity : bool;
  lastActivityAt : Z;
  stallNotified : bool;
  stallNotifyCount : Z
}.

Definition STALL_THRESHOLD_MS : Z := 12000.
Definition CHECK_INTERVAL_MS : Z := 2000.
Definition MAX_STALL_NOTIFICATIONS : Z := 3.

Definition CONTEXT_KEYS_TO_POLL : list string :=
  [ "antigravity.canAcceptOrRejectCommand";
    "antigravity.canTriggerTerminalCommandAction";
    "antigravity.canAcceptOrRejectFocusedHunk" ].

(** The fields of [AntigravityBridge] the tracker and the poller use. *)
Record State := {
  activity : ActivityState;
  contextKeyAvailable : bool;
  prevContextKeyState : bool;
  contextNotifiedForThisPrompt : bool
}.

Definition zeroActivity : ActivityState :=
  {| promptSentAt := 0; hadActivity := false; lastActivityAt := 0;
     stallNotified := false; stallNotifyCount := 0 |}.

(** The field initialisers of the class. *)
Definition initial : State :=
  {| activity := zeroActivity;
     contextKeyAvailable := true;
     prevContextKeyState := false;
     contextNotifiedForThisPrompt := false |}.

Definition with_activity (a : ActivityState) (b : State) : State :=
  {| activity := a;
     contextKeyAvailable := contextKeyAvailable b;
     prevContextKeyState := prevContextKeyState b;
     contextNotifiedForThisPrompt := contextNotifiedForThisPrompt b |}.

Definition emit {W} (code : Dispatch.Behaviour W AgentEvent) (fuel : nat)
  (ev : AgentEvent) (h : Dispatch.Host W) : Dispatch.Completion W :=
  Dispatch.emit "[Bridge]" code fuel ev h.

Definition trackActivity (now : Z) (b : State) : State :=
  let a := activity b in
  if promptSentAt a =? 0 then b
  else
    let a1 := {| promptSentAt := promptSentAt a; hadActivity := hadActivity a;
                 lastActivityAt := now; stallNotified := stallNotified a;
                 stallNotifyCount := stallNotifyCount a |} in
    let a2 := if negb (hadActivity a1)
              then {| promptSentAt := promptSentAt a1; hadActivity := true;
                      lastActivityAt := lastActivityAt a1;
                      stallNotified := stallNotified a1;
                      stallNotifyCount := stallNotifyCount a1 |}
              else a1 in
    let a3 := if stallNotified a2
              then {| promptSentAt := promptSentAt a2; hadActivity := hadActivity a2;
                      lastActivityAt := lastActivityAt a2;
                      stallNotified := false;
                      stallNotifyCount := stallNotifyCount a2 |}
              else a2 in
    with_activity a3 b.

(** [Math.round(x / 1000)] for an integer [x]: halves go up. *)
Definition round_div_1000 (x : Z) : Z := (x + 500) / 1000.

Definition checkForStall (now : Z) (b : State) : State * list AgentEvent :=
  let a := activity b in
  if promptSentAt a =? 0 then (b, [])
  else if negb (hadActivity a) then (b, [])
  else if stallNotified a then (b, [])
  else if stallNotifyCount a >=? MAX_STALL_NOTIFICATIONS then (b, [])
  else
    let silenceMs := now - lastActivityAt a in
    if silenceMs >=? STALL_THRESHOLD_MS then
      let a' := {| promptSentAt := promptSentAt a; hadActivity := hadActivity a;
                   lastActivityAt := lastActivityAt a;
                   stallNotified := true;
                   stallNotifyCount := stallNotifyCount a + 1 |} in
      let silenceSec := round_div_1000 silenceMs in
      (with_activity a' b,
       [ {| type := step_request;
            content := "에이전트가 " +:+ pretty silenceSec
                       +:+ "초간 멈춤 — 권한 요청 또는 입력 대기 중일 수 있습니다";
            timestamp := now |} ])
    else (b, []).

(** One tick's answers to [executeCommand('getContext', key)]: the value
    when it is a boolean, [None] for any other value, or a rejection. *)
Definition ContextReader : Type := string -> Awaited (option bool).

(** The loop over the keys: a rejected read is ignored, the first read
    that is [=== true] ends the loop. *)
Fixpoint anyActiveOf (getContext : ContextReader) (keys : list string) : bool :=
  match keys with
  | [] => false
  | key :: rest =>
      match getContext key with
      | Resolved (Some true) => true
      | _ => anyActiveOf getContext rest
      end
  end.

(** The body of the outer [try]; nothing in it throws (each read has a
    [try] of its own and [emit] catches), so the outer [catch], which
    would clear [contextKeyAvailable], is never entered. *)
Definition pollContextKeys (now : Z) (getContext : ContextReader) (b : State)
  : State * list AgentEvent :=
  let anyActive := anyActiveOf getContext CONTEXT_KEYS_TO_POLL in
  let fire := anyActive && negb (prevContextKeyState b)
              && negb (contextNotifiedForThisPrompt b) in
  let notified1 := if fire then true else contextNotifiedForThisPrompt b in
  let evs := if fire
             then [ {| type := step_request;
                       content := "에이전트가 권한 요청 중 — 수락 또는 거부가 필요합니다";
                       timestamp := now |} ]
             else [] in
  let notified2 := if negb anyActive && prevContextKeyState b
                   then false else notified1 in
  ({| activity := activity b;
      contextKeyAvailable := contextKeyAvailable b;
      prevContextKeyState := anyActive;
      contextNotifiedForThisPrompt := notified2 |}, evs).

Definition periodicCheck (now : Z) (getContext : ContextReader) (b : State)
  : State * list AgentEvent :=
  let '(b1, evs1) :=
    if contextKeyAvailable b then pollContextKeys now getContext b else (b, []) in
  let '(b2, evs2) :=
    if negb (contextKeyAvailable b1) then checkForStall now b1 else (b1, []) in
  (b2, evs1 ++ evs2).

Definition resetActivityTracking (now : Z) (b : State) : State :=
  {| activity := {| promptSentAt := now; hadActivity := false;
                    lastActivityAt := 0; stallNotified := false;
                    stallNotifyCount := 0 |};
     contextKeyAvailable := contextKeyAvailable b;
     prevContextKeyState := false;
     contextNotifiedForThisPrompt := false |}.

Definition clearActivityTracking (b : State) : State :=
  {| activity := {| promptSentAt := 0; hadActivity := false;
                    lastActivityAt := 0; stallNotified := false;
                    stallNotifyCount := 0 |};
     contextKeyAvailable := contextKeyAvailable b;
     prevContextKeyState := false;
     contextNotifiedForThisPrompt := false |}.

(** The calls that reach the activity tracker, with the clock reading each
    one takes. *)
Inductive Op : Type :=
| OpTrack (now : Z)
| OpCheck (now : Z)
| OpReset (now : Z)
| OpClear.

Definition step (b : State) (op : Op) : State * list AgentEvent :=
  match op with
  | OpTrack now => (trackActivity now b, [])
  | OpCheck now => checkForStall now b
  | OpReset now => (resetActivityTracking now b, [])
  | OpClear => (clearActivityTracking b, [])
  end.

Fixpoint run (b : State) (ops : list Op) : State * list AgentEvent :=
  match ops with
  | [] => (b, [])
  | op :: rest =>
      let '(b1, evs1) := step b op in
      let '(b2, evs2) := run b1 rest in
      (b2, evs1 ++ evs2)
  end.

(** A run of poll ticks, each with its own reader. *)
Fixpoint pollTicks (b : State) (ticks : list (Z * ContextReader))
  : State * list AgentEvent :=
  match ticks with
  | [] => (b, [])
  | (now, rd) :: rest =>
      let '(b1, evs1) := pollContextKeys now rd b in
      let '(b2, evs2) := pollTicks b1 rest in
      (b2, evs1 ++ evs2)
  end.

End Bridge.

(** ** The language-server client ([lsClient.ts]) *)

Module LS.

(** A conversation summary. [lastModifiedTime] is kept as the epoch
    milliseconds that [new Date(lastModifiedTime).getTime()] reads from the
    field; [workspaces] holds the [workspaceFolderAbsoluteUri] of each
    entry and is [None] when the field is missing. *)
Record TrajectorySummary := {
  stepCount : Z;
  lastModifiedTime : Z;
  trajectoryId : string;
  status : string;
  workspaces : option (list string)
}.

(** [Object.entries] of a [TrajectorySummaryMap]: distinct keys, in
    property order. *)
Definition TrajectorySummaryMap : Type := list (string * TrajectorySummary).

(** The [status] of a step arrives as a string or as a number. *)
Inductive StepStatus : Type :=
| StatusStr (s : string)
| StatusNum (n : Z).

Record ToolCall := { tc_name : string; argumentsJson : string }.
Record UserInput := { userResponse : option string }.
Record PlannerResponse := {
  response : option string;
  toolCalls : option (list ToolCall)
}.
Record NotifyUser := { message : option string }.
Record RunCommand := { commandLine : option string; command : option string }.
Record UrlPayload := { url : option string }.
Record Mcp := {
  toolName : option string;
  mcp_name : option string;
  serverName : option string
}.
Record FilePermission := { absolutePathUri : option string; path : option string }.

(** A step. A payload the monitor reads into is an [option]; one it only
    tests for presence is a [bool]. [toolCall] is [metadata?.toolCall]. *)
Record TrajectoryStep := {
  type : string;
  step_status : StepStatus;
  toolCall : option ToolCall;
  userInput : option UserInput;
  plannerResponse : option PlannerResponse;
  notifyUser : option NotifyUser;
  runCommand : option RunCommand;
  openBrowserUrl : option UrlPayload;
  executeBrowserJavascript : bool;
  captureBrowserScreenshot : bool;
  browserAction : bool;
  browserSubagent : bool;
  mcp : option Mcp;
  readUrlContent : option UrlPayload;
  sendCommandInput : bool;
  filePermission : option FilePermission;
  runExtensionCode : bool;
  deploy : bool;
  openBrowserSetup : bool;
  confirmBrowserSetup : bool
}.

(** The bodies of the two responses, each field possibly missing. *)
Record SummariesResponse := { trajectorySummaries : option TrajectorySummaryMap }.
Record StepsResponse := { steps : option (list TrajectoryStep) }.

(** What the language server answers during one operation of the
    monitor. The two [api_] fields are what the request itself yields:
    [Resolved None] when [apiCall] resolves [null] (a status other than 200,
    a connection error, a timeout, an unreadable body), [Rejected] when the
    promise rejects. [handleUserInteraction] belongs to a later revision of
    the client than the one at hand and is taken as given. *)
Record Client := {
  isDiscovered : bool;
  discover : bool;
  api_GetAllCascadeTrajectories : Awaited (option SummariesResponse);
  api_GetCascadeTrajectorySteps : string -> Z -> Awaited (option StepsResponse);
  handleUserInteraction : string -> JSValue -> Awaited bool
}.

(** [apiCall]: [if (!this.discovered) return Promise.resolve(null)]. *)
Definition apiCall {T} (discovered : bool) (request : Awaited (option T))
  : Awaited (option T) :=
  if negb discovered then Resolved None else request.

(** [result?.trajectorySummaries ?? null] *)
Definition getAllTrajectories (discovered : bool) (c : Client)
  : Awaited (option TrajectorySummaryMap) :=
  match apiCall discovered (api_GetAllCascadeTrajectories c) with
  | Rejected e => Rejected e
  | Resolved None => Resolved None
  | Resolved (Some result) => Resolved (trajectorySummaries result)
  end.

(** [result?.steps ?? []] *)
Definition getTrajectorySteps (discovered : bool) (c : Client)
  (cascadeId : string) (stepOffset : Z) : Awaited (list TrajectoryStep) :=
  match apiCall discovered (api_GetCascadeTrajectorySteps c cascadeId stepOffset) with
  | Rejected e => Rejected e
  | Resolved None => Resolved []
  | Resolved (Some result) => Resolved (default [] (steps result))
  end.

End LS.

(** ** The trajectory monitor ([trajectoryMonitor.ts]) *)

Module Monitor.
Import LS.

Definition POLL_INTERVAL_MS : Z := 5000.
(** [/system-generated message/i] *)
Definition AUTO_APPROVE_PATTERN : string := "system-generated message".
Definition REDISCOVER_INTERVAL_MS : Z := 30000.
Definition MAX_SENT_TEXTS : Z := 5.

Definition isWaitingStatus (st : StepStatus) : bool :=
  match st with
  | StatusStr s => String.eqb s "CORTEX_STEP_STATUS_WAITING" || String.eqb s "9"
  | StatusNum n => n =? 9
  end.

Inductive EventType : Type := agent_response | gui_message | step_request.

(** [content] is declared a string; the message read out of a tool call's
    arguments is whatever truthy value the JSON holds, so the field is a
    [JSValue] here and a string is a [JStr]. *)
Record TrajectoryEvent := {
  ev_type : EventType;
  content : JSValue;
  timestamp : Z
}.

Record State := {
  activeCascadeId : string;
  activeTrajectoryId : string;
  lastStepCount : Z;
  lastStatus : string;
  notifiedWaitingSteps : gset Z;
  sentTexts : list string;
  lastDiscoverAttempt : Z;
  workspaceUri : string
}.

(** The field initialisers and the constructor, for a workspace URI that
    is empty when no folder is open. *)
Definition initial (ws : string) : State :=
  {| activeCascadeId := ""; activeTrajectoryId := ""; lastStepCount := 0;
     lastStatus := ""; notifiedWaitingSteps := ∅; sentTexts := [];
     lastDiscoverAttempt := 0; workspaceUri := ws |}.

Definition set_sentTexts (l : list string) (m : State) : State :=
  {| activeCascadeId := activeCascadeId m;
     activeTrajectoryId := activeTrajectoryId m;
     lastStepCount := lastStepCount m;
     lastStatus := lastStatus m;
     notifiedWaitingSteps := notifiedWaitingSteps m;
     sentTexts := l;
     lastDiscoverAttempt := lastDiscoverAttempt m;
     workspaceUri := workspaceUri m |}.

Definition set_notifiedWaitingSteps (s : gset Z) (m : State) : State :=
  {| activeCascadeId := activeCascadeId m;
     activeTrajectoryId := activeTrajectoryId m;
     lastStepCount := lastStepCount m;
     lastStatus := lastStatus m;
     notifiedWaitingSteps := s;
     sentTexts := sentTexts m;
     lastDiscoverAttempt := lastDiscoverAttempt m;
     workspaceUri := workspaceUri m |}.

Definition set_lastDiscoverAttempt (t : Z) (m : State) : State :=
  {| activeCascadeId := activeCascadeId m;
     activeTrajectoryId := activeTrajectoryId m;
     lastStepCount := lastStepCount m;
     lastStatus := lastStatus m;
     notifiedWaitingSteps := notifiedWaitingSteps m;
     sentTexts := sentTexts m;
     lastDiscoverAttempt := t;
     workspaceUri := workspaceUri m |}.

Definition set_activeTrajectoryId (t : string) (m : State) : State :=
  {| activeCascadeId := activeCascadeId m;
     activeTrajectoryId := t;
     lastStepCount := lastStepCount m;
     lastStatus := lastStatus m;
     notifiedWaitingSteps := notifiedWaitingSteps m;
     sentTexts := sentTexts m;
     lastDiscoverAttempt := lastDiscoverAttempt m;
     workspaceUri := workspaceUri m |}.

Definition set_lastStatus (s : string) (m : State) : State :=
  {| activeCascadeId := activeCascadeId m;
     activeTrajectoryId := activeTrajectoryId m;
     lastStepCount := lastStepCount m;
     lastStatus := s;
     notifiedWaitingSteps := notifiedWaitingSteps m;
     sentTexts := sentTexts m;
     lastDiscoverAttempt := lastDiscoverAttempt m;
     workspaceUri := workspaceUri m |}.

Definition set_lastStepCount (n : Z) (m : State) : State :=
  {| activeCascadeId := activeCascadeId m;
     activeTrajectoryId := activeTrajectoryId m;
     lastStepCount := n;
     lastStatus := lastStatus m;
     notifiedWaitingSteps := notifiedWaitingSteps m;
     sentTexts := sentTexts m;
     lastDiscoverAttempt := lastDiscoverAttempt m;
     workspaceUri := workspaceUri m |}.

Definition emit {W} (code : Dispatch.Behaviour W TrajectoryEvent) (fuel : nat)
  (ev : TrajectoryEvent) (h : Dispatch.Host W) : Dispatch.Completion W :=
  Dispatch.emit "[TrajectoryMonitor]" code fuel ev h.

(** *** Echo prevention *)

Definition normalize (text : string) : string := toLowerCase (trim text).

(** [push] then, past the capacity, [shift]. *)
Definition markTelegramSent (text : string) (m : State) : State :=
  let normalized := normalize text in
  let pushed := sentTexts m ++ [normalized] in
  if Z.of_nat (length pushed) >? MAX_SENT_TEXTS
  then set_sentTexts (tail pushed) m
  else set_sentTexts pushed m.

(** [Array.prototype.indexOf]: [None] is [-1]. *)
Fixpoint indexOf (x : string) (l : list string) : option nat :=
  match l with
  | [] => None
  | y :: rest => if String.eqb y x then Some O else S <$> indexOf x rest
  end.

(** [splice(idx, 1)] is [delete idx]. *)
Definition isTelegramSent (text : string) (m : State) : bool * State :=
  let normalized := normalize text in
  match indexOf normalized (sentTexts m) with
  | Some idx => (true, set_sentTexts (delete idx (sentTexts m)) m)
  | None => (false, m)
  end.

(** *** Selecting the active cascade *)

(** [Array.prototype.sort] with a comparator, which is stable: insertion
    from the right keeps equal elements in their order. *)
Fixpoint insertBy {A} (cmp : A -> A -> Z) (x : A) (l : list A) : list A :=
  match l with
  | [] => [x]
  | y :: rest => if cmp x y <=? 0 then x :: y :: rest else y :: insertBy cmp x rest
  end.

Definition sortBy {A} (cmp : A -> A -> Z) (l : list A) : list A :=
  foldr (insertBy cmp) [] l.

(** [(a, b) => new Date(b[1].lastModifiedTime).getTime()
               - new Date(a[1].lastModifiedTime).getTime()] *)
Definition byLastModifiedDesc (a b : string * TrajectorySummary) : Z :=
  lastModifiedTime (snd b) - lastModifiedTime (snd a).

(** [s.workspaces?.some(w => w.workspaceFolderAbsoluteUri === ws)] *)
Definition inWorkspace (ws : string) (e : string * TrajectorySummary) : bool :=
  match workspaces (snd e) with
  | Some l => existsb (fun w => String.eqb w ws) l
  | None => false
  end.

Definition isRunning (e : string * TrajectorySummary) : bool :=
  String.eqb (status (snd e)) "CASCADE_RUN_STATUS_RUNNING".

Definition findActiveCascade (ws : string) (summaries : TrajectorySummaryMap)
  : option (string * TrajectorySummary) :=
  let entries := summaries in
  if Z.of_nat (length entries) =? 0 then None
  else
    let wsMatches :=
      if negb (String.eqb ws "") then List.filter (inWorkspace ws) entries else [] in
    if Z.of_nat (length wsMatches) >? 0 then
      head (sortBy byLastModifiedDesc wsMatches)
    else
      match List.find isRunning entries with
      | Some running => Some running
      | None => head (sortBy byLastModifiedDesc entries)
      end.

(** *** Step processing *)

Definition mkEvent (t : EventType) (c : JSValue) (now : Z) : TrajectoryEvent :=
  {| ev_type := t; content := c; timestamp := now |}.

Definition handleUserInput (now : Z) (step : TrajectoryStep) (m : State)
  : State * list TrajectoryEvent :=
  match userInput step with
  | None => (m, [])
  | Some ui =>
      let text := default "" (userResponse ui) in
      if String.eqb text "" then (m, [])
      else if test_ci AUTO_APPROVE_PATTERN text then (m, [])
      else
        let '(sent, m') := isTelegramSent text m in
        if sent then (m', [])
        else (m', [mkEvent gui_message (JStr text) now])
  end.

(** [a || b] on values that may be [undefined]. *)
Definition js_or (a b : option JSValue) : option JSValue :=
  match a with
  | Some v => if truthy v then a else b
  | None => b
  end.

(** [try { const args = JSON.parse(argumentsJson);
           return args.Message || args.message || null; }
     catch { return null; }]
    The result is a truthy value or [None] for [null]. *)
Definition extractNotifyMessage (argumentsJson : string) : option JSValue :=
  match JSON_parse argumentsJson with
  | None => None
  | Some args =>
      match get_prop args "Message", get_prop args "message" with
      | Resolved msg1, Resolved msg2 =>
          match js_or (js_or msg1 msg2) (Some JNull) with
          | Some JNull => None
          | r => r
          end
      | _, _ => None
      end
  end.

Definition isNotifyCall (tc : ToolCall) : bool :=
  String.eqb (tc_name tc) "notify_user" && negb (String.eqb (argumentsJson tc) "").

Definition handleNotifyUser (now : Z) (step : TrajectoryStep)
  : list TrajectoryEvent :=
  let fromTool :=
    match toolCall step with
    | Some tc => if isNotifyCall tc then extractNotifyMessage (argumentsJson tc) else None
    | None => None
    end in
  match fromTool with
  | Some msg => [mkEvent agent_response msg now]
  | None =>
      match notifyUser step with
      | Some nu =>
          match message nu with
          | Some msg => if String.eqb msg "" then []
                        else [mkEvent agent_response (JStr msg) now]
          | None => []
          end
      | None => []
      end
  end.

(** The loop over [pr.toolCalls]: the first notify call that yields a
    message. *)
Fixpoint firstNotifyMessage (tcs : list ToolCall) : option JSValue :=
  match tcs with
  | [] => None
  | tc :: rest =>
      if isNotifyCall tc then
        match extractNotifyMessage (argumentsJson tc) with
        | Some msg => Some msg
        | None => firstNotifyMessage rest
        end
      else firstNotifyMessage rest
  end.

Definition handlePlannerResponse (now : Z) (step : TrajectoryStep)
  : list TrajectoryEvent :=
  match plannerResponse step with
  | None => []
  | Some pr =>
      match firstNotifyMessage (default [] (toolCalls pr)) with
      | Some msg => [mkEvent agent_response msg now]
      | None =>
          match response pr with
          | Some r =>
              if negb (String.eqb r "") && (Z.of_nat (String.length r) >? 20)
              then [mkEvent agent_response (JStr r) now]
              else []
          | None => []
          end
      end
  end.

Definition processStep (now : Z) (step : TrajectoryStep) (m : State)
  : State * list TrajectoryEvent :=
  if String.eqb (type step) "CORTEX_STEP_TYPE_USER_INPUT" then handleUserInput now step m
  else if String.eqb (type step) "CORTEX_STEP_TYPE_NOTIFY_USER" then (m, handleNotifyUser now step)
  else if String.eqb (type step) "CORTEX_STEP_TYPE_PLANNER_RESPONSE" then (m, handlePlannerResponse now step)
  else (m, []).

Fixpoint processNewSteps (now : Z) (steps : list TrajectoryStep) (m : State)
  : State * list TrajectoryEvent :=
  match steps with
  | [] => (m, [])
  | step :: rest =>
      let '(m1, evs1) := processStep now step m in
      let '(m2, evs2) := processNewSteps now rest m1 in
      (m2, evs1 ++ evs2)
  end.

(** [a ?? b] *)
Definition nullish {A} (a b : option A) : option A :=
  match a with Some _ => a | None => b end.

Definition describeWaitingStep (step : TrajectoryStep) : string :=
  match runCommand step with
  | Some rc =>
      "터미널 명령 실행 요청: " +:+ default "unknown" (nullish (commandLine rc) (command rc))
  | None =>
  match openBrowserUrl step with
  | Some u => "브라우저 URL 열기 요청: " +:+ default "" (url u)
  | None =>
  match mcp step with
  | Some t =>
      "MCP 도구 실행 요청: "
      +:+ default "unknown" (nullish (toolName t) (nullish (mcp_name t) (serverName t)))
  | None =>
  match filePermission step with
  | Some fp =>
      "파일 접근 권한 요청: " +:+ default "" (nullish (absolutePathUri fp) (path fp))
  | None =>
  if executeBrowserJavascript step then "브라우저 JavaScript 실행 요청"
  else if captureBrowserScreenshot step then "브라우저 스크린샷 캡처 요청"
  else if browserAction step || browserSubagent step then "브라우저 액션 실행 요청"
  else if sendCommandInput step then "터미널 입력 전송 요청"
  else
  match readUrlContent step with
  | Some u => "URL 콘텐츠 읽기 요청: " +:+ default "" (url u)
  | None =>
  if deploy step then "배포 요청"
  else "에이전트가 권한 요청 중 — 수락 또는 거부가 필요합니다"
  end end end end end.

(** The waiting check of [poll] over the fetched steps, [i] counting from
    the first of them. *)
Fixpoint detectWaiting (now : Z) (offset : Z) (i : Z) (steps : list TrajectoryStep)
  (m : State) : State * list TrajectoryEvent :=
  match steps with
  | [] => (m, [])
  | step :: rest =>
      let absIdx := offset + i in
      let '(m1, evs1) :=
        if isWaitingStatus (step_status step)
           && negb (bool_decide (absIdx ∈ notifiedWaitingSteps m))
        then (set_notifiedWaitingSteps ({[absIdx]} ∪ notifiedWaitingSteps m) m,
              [mkEvent step_request (JStr (describeWaitingStep step)) now])
        else (m, []) in
      let '(m2, evs2) := detectWaiting now offset (i + 1) rest m1 in
      (m2, evs1 ++ evs2)
  end.

(** *** Accept and reject *)

(** [/CORTEX_STEP_TYPE_(\w+)/]: the capture of the leftmost match. *)
Fixpoint matchStepType (s : string) : option string :=
  match strip_prefix eq_char "CORTEX_STEP_TYPE_" s with
  | Some rest =>
      match take_word rest with
      | EmptyString =>
          match s with
          | EmptyString => None
          | String _ r => matchStepType r
          end
      | w => Some w
      end
  | None =>
      match s with
      | EmptyString => None
      | String _ r => matchStepType r
      end
  end.

(** [.replace(/_([a-z])/g, (_, c) => c.toUpperCase())] *)
Fixpoint camelize (s : string) : string :=
  match s with
  | EmptyString => EmptyString
  | String u r =>
      match r with
      | String c r' =>
          if (code u =? 95) && is_lower c
          then String (upper_char c) (camelize r')
          else String u (camelize r)
      | EmptyString => String u EmptyString
      end
  end.

Definition confirmOf (accept : bool) : JSValue :=
  JObj [(units "confirm", JBool accept)].

Definition buildInteraction (m : State) (step : TrajectoryStep) (stepIndex : Z)
  (accept : bool) : option JSValue :=
  let base := [(units "trajectoryId", JStr (activeTrajectoryId m));
               (units "stepIndex", JNum stepIndex 0)] in
  let put (k : string) v := Some (JObj (obj_set k v base)) in
  match runCommand step with
  | Some rc =>
      let cmd := default "" (nullish (commandLine rc) (command rc)) in
      put "runCommand" (JObj [(units "confirm", JBool accept);
                              (units "proposedCommandLine", JStr cmd);
                              (units "submittedCommandLine", JStr cmd)])
  | None =>
  if bool_decide (is_Some (openBrowserUrl step)) then put "openBrowserUrl" (confirmOf accept)
  else if executeBrowserJavascript step then put "executeBrowserJavascript" (confirmOf accept)
  else if captureBrowserScreenshot step then put "captureBrowserScreenshot" (confirmOf accept)
  else if browserAction step || browserSubagent step then put "browserAction" (confirmOf accept)
  else if bool_decide (is_Some (mcp step)) then put "mcp" (confirmOf accept)
  else if bool_decide (is_Some (readUrlContent step)) then put "readUrlContent" (confirmOf accept)
  else if sendCommandInput step then put "sendCommandInput" (confirmOf accept)
  else if bool_decide (is_Some (filePermission step))
       then put "filePermission" (JObj [(units "allow", JBool accept)])
  else if runExtensionCode step then put "runExtensionCode" (confirmOf accept)
  else if deploy step
       then put "deploy" (JObj [(units "cancel", JBool (negb accept))])
  else if openBrowserSetup step then put "openBrowserSetup" (confirmOf accept)
  else if confirmBrowserSetup step then put "confirmBrowserSetup" (confirmOf accept)
  else
    match matchStepType (type step) with
    | Some capture => put (camelize (toLowerCase capture)) (confirmOf accept)
    | None => None
    end
  end.

(** What [acceptWaitingStep] gives back and does: the boolean, the monitor
    afterwards, and the interaction handed to the client, if any. *)
Record AcceptResult := {
  accepted : bool;
  after : State;
  submitted : option JSValue
}.

Definition refused (m : State) : AcceptResult :=
  {| accepted := false; after := m; submitted := None |}.

(** The backward loop, over the steps still to visit, last first, each
    with its index in the fetched array. *)
Fixpoint scanWaiting (accept : bool) (c : Client) (m : State) (offset : Z)
  (fromLast : list (nat * TrajectoryStep)) : AcceptResult :=
  match fromLast with
  | [] => refused m
  | (i, step) :: rest =>
      if negb (isWaitingStatus (step_status step)) then scanWaiting accept c m offset rest
      else
        let absIdx := offset + Z.of_nat i in
        match buildInteraction m step absIdx accept with
        | None => scanWaiting accept c m offset rest
        | Some interaction =>
            match handleUserInteraction c (activeCascadeId m) interaction with
            | Resolved ok =>
                {| accepted := ok;
                   after := if ok
                            then set_notifiedWaitingSteps
                                   (notifiedWaitingSteps m ∖ {[absIdx]}) m
                            else m;
                   submitted := Some interaction |}
            | Rejected _ =>
                {| accepted := false; after := m; submitted := Some interaction |}
            end
        end
  end.

(** [summaries[id]] *)
Fixpoint lookupSummary (id : string) (summaries : TrajectorySummaryMap)
  : option TrajectorySummary :=
  match summaries with
  | [] => None
  | (k, s) :: rest => if String.eqb k id then Some s else lookupSummary id rest
  end.

Definition acceptWaitingStep (accept : bool) (c : Client) (m : State) : AcceptResult :=
  if String.eqb (activeCascadeId m) "" || String.eqb (activeTrajectoryId m) ""
  then refused m
  else
    match getAllTrajectories (isDiscovered c) c with
    | Rejected _ => refused m
    | Resolved None => refused m
    | Resolved (Some summaries) =>
        match lookupSummary (activeCascadeId m) summaries with
        | None => refused m
        | Some summary =>
            let totalSteps := stepCount summary in
            if totalSteps =? 0 then refused m
            else
              let offset := Z.max 0 (totalSteps - 20) in
              match getTrajectorySteps (isDiscovered c) c (activeCascadeId m) offset with
              | Rejected _ => refused m
              | Resolved steps =>
                  scanWaiting accept c m offset (rev (imap (fun i s => (i, s)) steps))
              end
        end
    end.

(** *** The poll tick *)

Definition poll (now : Z) (c : Client) (m : State) : State * list TrajectoryEvent :=
  let '(go, m0) :=
    if negb (isDiscovered c) then
      if now - lastDiscoverAttempt m <? REDISCOVER_INTERVAL_MS then (false, m)
      else
        let m' := set_lastDiscoverAttempt now m in
        if negb (discover c) then (false, m') else (true, m')
    else (true, m) in
  if negb go then (m0, [])
  else
    match getAllTrajectories true c with
    | Rejected _ => (m0, [])
    | Resolved None => (m0, [])
    | Resolved (Some summaries) =>
        match findActiveCascade (workspaceUri m0) summaries with
        | None => (m0, [])
        | Some (cascadeId, summary) =>
            if negb (String.eqb cascadeId (activeCascadeId m0)) then
              ({| activeCascadeId := cascadeId;
                  activeTrajectoryId := trajectoryId summary;
                  lastStepCount := stepCount summary;
                  lastStatus := status summary;
                  notifiedWaitingSteps := ∅;
                  sentTexts := sentTexts m0;
                  lastDiscoverAttempt := lastDiscoverAttempt m0;
                  workspaceUri := workspaceUri m0 |}, [])
            else
              let m1 := set_activeTrajectoryId (trajectoryId summary) m0 in
              let hasNewSteps := stepCount summary >? lastStepCount m1 in
              let m2 := set_lastStatus (status summary) m1 in
              if hasNewSteps then
                let offset := lastStepCount m2 in
                match getTrajectorySteps true c cascadeId offset with
                | Rejected _ => (m2, [])
                | Resolved steps =>
                    let m3 := set_lastStepCount (stepCount summary) m2 in
                    if Z.of_nat (length steps) >? 0 then
                      let '(m4, evs1) := processNewSteps now steps m3 in
                      let '(m5, evs2) := detectWaiting now offset 0 steps m4 in
                      (m5, evs1 ++ evs2)
                    else (m3, [])
                end
              else (m2, [])
        end
    end.

End Monitor.

(** ** Vocabulary of the properties *)

Module Props.

(** *** Activity tracker *)

(** Calls made while one prompt is outstanding: no reset, no clear. *)
Definition withinPrompt (op : Bridge.Op) : bool :=
  match op with
  | Bridge.OpTrack _ | Bridge.OpCheck _ => true
  | Bridge.OpReset _ | Bridge.OpClear => false
  end.

Definition isStepRequest (ev : Bridge.AgentEvent) : bool :=
  match Bridge.type ev with
  | Bridge.step_request => true
  | _ => false
  end.

(** The invariant of [ActivityState]. *)
Definition activityInv (a : Bridge.ActivityState) : Prop :=
  Bridge.stallNotified a = true ->
  Bridge.hadActivity a = true /\ Bridge.promptSentAt a <> 0.

(** *** Context-flag poller *)

(** The aggregate flag value a tick reads. *)
Definition aggregate (tick : Z * Bridge.ContextReader) : bool :=
  Bridge.anyActiveOf (snd tick) Bridge.CONTEXT_KEYS_TO_POLL.

(** The event a false-to-true transition emits at clock reading [now]. *)
Definition waitingEvent (now : Z) : Bridge.AgentEvent :=
  {| Bridge.type := Bridge.step_request;
     Bridge.content := "에이전트가 권한 요청 중 — 수락 또는 거부가 필요합니다";
     Bridge.timestamp := now |}.

(** An episode is marked notified only while the aggregate was last seen
    true. *)
Definition pollerInv (b : Bridge.State) : Prop :=
  Bridge.contextNotifiedForThisPrompt b = true -> Bridge.prevContextKeyState b = true.

(** Sample readers: every flag false; the second flag true and the others
    not booleans; the third flag true and the other reads rejected. *)
Definition allFalse : Bridge.ContextReader := fun _ => Resolved (Some false).
Definition secondTrue : Bridge.ContextReader :=
  fun key => if String.eqb key "antigravity.canTriggerTerminalCommandAction"
             then Resolved (Some true) else Resolved None.
Definition thirdTrue : Bridge.ContextReader :=
  fun key => if String.eqb key "antigravity.canAcceptOrRejectFocusedHunk"
             then Resolved (Some true) else Rejected "command 'getContext' not found".

(** *** Trajectory monitor *)

(** A step with no payload at all. *)
Definition blankStep (ty : string) (st : LS.StepStatus) : LS.TrajectoryStep :=
  {| LS.type := ty; LS.step_status := st; LS.toolCall := None;
     LS.userInput := None; LS.plannerResponse := None; LS.notifyUser := None;
     LS.runCommand := None; LS.openBrowserUrl := None;
     LS.executeBrowserJavascript := false; LS.captureBrowserScreenshot := false;
     LS.browserAction := false; LS.browserSubagent := false; LS.mcp := None;
     LS.readUrlContent := None; LS.sendCommandInput := false;
     LS.filePermission := None; LS.runExtensionCode := false; LS.deploy := false;
     LS.openBrowserSetup := false; LS.confirmBrowserSetup := false |}.

Definition withUserInput (text : string) (s : LS.TrajectoryStep) : LS.TrajectoryStep :=
  {| LS.type := LS.type s; LS.step_status := LS.step_status s;
     LS.toolCall := LS.toolCall s;
     LS.userInput := Some {| LS.userResponse := Some text |};
     LS.plannerResponse := LS.plannerResponse s; LS.notifyUser := LS.notifyUser s;
     LS.runCommand := LS.runCommand s; LS.openBrowserUrl := LS.openBrowserUrl s;
     LS.executeBrowserJavascript := LS.executeBrowserJavascript s;
     LS.captureBrowserScreenshot := LS.captureBrowserScreenshot s;
     LS.browserAction := LS.browserAction s; LS.browserSubagent := LS.browserSubagent s;
     LS.mcp := LS.mcp s; LS.readUrlContent := LS.readUrlContent s;
     LS.sendCommandInput := LS.sendCommandInput s;
     LS.filePermission := LS.filePermission s;
     LS.runExtensionCode := LS.runExtensionCode s; LS.deploy := LS.deploy s;
     LS.openBrowserSetup := LS.openBrowserSetup s;
     LS.confirmBrowserSetup := LS.confirmBrowserSetup s |}.

Definition withToolCall (tc : LS.ToolCall) (s : LS.TrajectoryStep) : LS.TrajectoryStep :=
  {| LS.type := LS.type s; LS.step_status := LS.step_status s;
     LS.toolCall := Some tc;
     LS.userInput := LS.userInput s;
     LS.plannerResponse := LS.plannerResponse s; LS.notifyUser := LS.notifyUser s;
     LS.runCommand := LS.runCommand s; LS.openBrowserUrl := LS.openBrowserUrl s;
     LS.executeBrowserJavascript := LS.executeBrowserJavascript s;
     LS.captureBrowserScreenshot := LS.captureBrowserScreenshot s;
     LS.browserAction := LS.browserAction s; LS.browserSubagent := LS.browserSubagent s;
     LS.mcp := LS.mcp s; LS.readUrlContent := LS.readUrlContent s;
     LS.sendCommandInput := LS.sendCommandInput s;
     LS.filePermission := LS.filePermission s;
     LS.runExtensionCode := LS.runExtensionCode s; LS.deploy := LS.deploy s;
     LS.openBrowserSetup := LS.openBrowserSetup s;
     LS.confirmBrowserSetup := LS.confirmBrowserSetup s |}.

Definition withPlannerResponse (pr : LS.PlannerResponse) (s : LS.TrajectoryStep)
  : LS.TrajectoryStep :=
  {| LS.type := LS.type s; LS.step_status := LS.step_status s;
     LS.toolCall := LS.toolCall s;
     LS.userInput := LS.userInput s;
     LS.plannerResponse := Some pr; LS.notifyUser := LS.notifyUser s;
     LS.runCommand := LS.runCommand s; LS.openBrowserUrl := LS.openBrowserUrl s;
     LS.executeBrowserJavascript := LS.executeBrowserJavascript s;
     LS.captureBrowserScreenshot := LS.captureBrowserScreenshot s;
     LS.browserAction := LS.browserAction s; LS.browserSubagent := LS.browserSubagent s;
     LS.mcp := LS.mcp s; LS.readUrlContent := LS.readUrlContent s;
     LS.sendCommandInput := LS.sendCommandInput s;
     LS.filePermission := LS.filePermission s;
     LS.runExtensionCode := LS.runExtensionCode s; LS.deploy := LS.deploy s;
     LS.openBrowserSetup := LS.openBrowserSetup s;
     LS.confirmBrowserSetup := LS.confirmBrowserSetup s |}.

Definition withRunCommand (cmd : string) (s : LS.TrajectoryStep) : LS.TrajectoryStep :=
  {| LS.type := LS.type s; LS.step_status := LS.step_status s;
     LS.toolCall := LS.toolCall s;
     LS.userInput := LS.userInput s;
     LS.plannerResponse := LS.plannerResponse s; LS.notifyUser := LS.notifyUser s;
     LS.runCommand := Some {| LS.commandLine := Some cmd; LS.command := None |};
     LS.openBrowserUrl := LS.openBrowserUrl s;
     LS.executeBrowserJavascript := LS.executeBrowserJavascript s;
     LS.captureBrowserScreenshot := LS.captureBrowserScreenshot s;
     LS.browserAction := LS.browserAction s; LS.browserSubagent := LS.browserSubagent s;
     LS.mcp := LS.mcp s; LS.readUrlContent := LS.readUrlContent s;
     LS.sendCommandInput := LS.sendCommandInput s;
     LS.filePermission := LS.filePermission s;
     LS.runExtensionCode := LS.runExtensionCode s; LS.deploy := LS.deploy s;
     LS.openBrowserSetup := LS.openBrowserSetup s;
     LS.confirmBrowserSetup := LS.confirmBrowserSetup s |}.

Definition userStep (text : string) : LS.TrajectoryStep :=
  withUserInput text
    (blankStep "CORTEX_STEP_TYPE_USER_INPUT" (LS.StatusStr "CORTEX_STEP_STATUS_DONE")).

Definition notifyStep (args : string) : LS.TrajectoryStep :=
  withToolCall {| LS.tc_name := "notify_user"; LS.argumentsJson := args |}
    (blankStep "CORTEX_STEP_TYPE_NOTIFY_USER" (LS.StatusStr "CORTEX_STEP_STATUS_DONE")).

Definition plannerStep (reply : option string) (calls : list LS.ToolCall)
  : LS.TrajectoryStep :=
  withPlannerResponse {| LS.response := reply; LS.toolCalls := Some calls |}
    (blankStep "CORTEX_STEP_TYPE_PLANNER_RESPONSE" (LS.StatusStr "CORTEX_STEP_STATUS_DONE")).

Definition commandStep (cmd : string) (st : LS.StepStatus) : LS.TrajectoryStep :=
  withRunCommand cmd (blankStep "CORTEX_STEP_TYPE_RUN_COMMAND" st).

Definition notifyCall (args : string) : LS.ToolCall :=
  {| LS.tc_name := "notify_user"; LS.argumentsJson := args |}.

(** A notify step whose tool call carries [args] and whose [notifyUser]
    field carries [text]. *)
Definition notifyStepWith (args text : string) : LS.TrajectoryStep :=
  {| LS.type := "CORTEX_STEP_TYPE_NOTIFY_USER";
     LS.step_status := LS.StatusStr "CORTEX_STEP_STATUS_DONE";
     LS.toolCall := Some (notifyCall args);
     LS.userInput := None; LS.plannerResponse := None;
     LS.notifyUser := Some {| LS.message := Some text |};
     LS.runCommand := None; LS.openBrowserUrl := None;
     LS.executeBrowserJavascript := false; LS.captureBrowserScreenshot := false;
     LS.browserAction := false; LS.browserSubagent := false; LS.mcp := None;
     LS.readUrlContent := None; LS.sendCommandInput := false;
     LS.filePermission := None; LS.runExtensionCode := false; LS.deploy := false;
     LS.openBrowserSetup := false; LS.confirmBrowserSetup := false |}.

Definition summaryOf (count modified : Z) (st : string) (ws : list string)
  : LS.TrajectorySummary :=
  {| LS.stepCount := count; LS.lastModifiedTime := modified;
     LS.trajectoryId := "t"; LS.status := st; LS.workspaces := Some ws |}.

(** A client that is discovered and answers every request. *)
Definition clientOf (summaries : LS.TrajectorySummaryMap)
  (fetched : Awaited (option LS.StepsResponse)) (submit : Awaited bool) : LS.Client :=
  {| LS.isDiscovered := true; LS.discover := true;
     LS.api_GetAllCascadeTrajectories :=
       Resolved (Some {| LS.trajectorySummaries := Some summaries |});
     LS.api_GetCascadeTrajectorySteps := fun _ _ => fetched;
     LS.handleUserInteraction := fun _ _ => submit |}.

(** A monitor attached to cascade [id] with [count] steps seen. *)
Definition attached (id : string) (count : Z) (notified : gset Z) : Monitor.State :=
  {| Monitor.activeCascadeId := id; Monitor.activeTrajectoryId := "t";
     Monitor.lastStepCount := count; Monitor.lastStatus := "CASCADE_RUN_STATUS_IDLE";
     Monitor.notifiedWaitingSteps := notified; Monitor.sentTexts := [];
     Monitor.lastDiscoverAttempt := 0; Monitor.workspaceUri := "file:///w" |}.

Definition notWaiting (s : LS.TrajectoryStep) : Prop :=
  Monitor.isWaitingStatus (LS.step_status s) = false.

(** A step in the waiting status, in one of the three forms in which the
    status arrives. *)
Definition inWaitingStatus (s : LS.TrajectoryStep) : Prop :=
  LS.step_status s = LS.StatusStr "CORTEX_STEP_STATUS_WAITING"
  \/ LS.step_status s = LS.StatusStr "9"
  \/ LS.step_status s = LS.StatusNum 9.

(** The instant a summary was last modified. *)
Definition modified (e : string * LS.TrajectorySummary) : Z :=
  LS.lastModifiedTime (snd e).

(** A summary whose workspace set includes the workspace [ws]. *)
Definition listsWorkspace (ws : string) (e : string * LS.TrajectorySummary) : Prop :=
  exists folders, LS.workspaces (snd e) = Some folders /\ In ws folders.

(** A summary whose status equals running. *)
Definition running (e : string * LS.TrajectorySummary) : Prop :=
  LS.status (snd e) = "CASCADE_RUN_STATUS_RUNNING".

(** A tool call's arguments that do not parse, or parse to a value without
    a [Message] and a [message] property. *)
Definition unparseableOrLacking (argumentsJson : string) : Prop :=
  match JSON_parse argumentsJson with
  | None => True
  | Some (JObj props) => obj_get "Message" props = None /\ obj_get "message" props = None
  | Some _ => True
  end.

(** The payloads [{"Message": "done"}], [{"message": "done"}] and
    [{"MESSAGE": "done"}], and one that is not JSON. *)
Definition payloadOf (key : string) : string :=
  "{" +:+ quoted key +:+ ": " +:+ quoted "done" +:+ "}".
Definition payloadUpper : string := payloadOf "Message".
Definition payloadLower : string := payloadOf "message".
Definition payloadCaps : string := payloadOf "MESSAGE".
Definition payloadBroken : string := "{Message: done".

(** A direct reply of 38 characters. *)
Definition longReply : string := "All tests pass and the build is green.".

(** The state a tick on the tracked cascade reaches before it looks at
    the steps. *)
Definition refreshed (summary : LS.TrajectorySummary) (m : Monitor.State)
  : Monitor.State :=
  Monitor.set_lastStatus (LS.status summary)
    (Monitor.set_activeTrajectoryId (LS.trajectoryId summary) m).

(** *** Listener dispatch *)

(** Sample listeners on a world that lists the listeners called so far.
    Every one notes its own number first. [logging]: nothing else.
    [oneShotFirst]: listener 0 was registered for one event and disposes its
    registration. [symbolFirst]: listener 0 throws a symbol.
    [failingFirst]: listener 0 throws [new Error('boom')]. *)
Definition reactionOf (l : nat) (calls : list Dispatch.RegistryCall)
  (thrown : option Dispatch.Thrown) (w : list nat) : Dispatch.Reaction (list nat) :=
  {| Dispatch.leaves := w ++ [l]; Dispatch.registryCalls := calls;
     Dispatch.throws := thrown |}.

Definition logging {E} : Dispatch.Behaviour (list nat) E :=
  fun l _ w => reactionOf l [] None w.




(** Listeners that leave the registrations alone while the event [ev] is
    dispatched and throw nothing but printable values. *)
Definition settled {W E} (code : Dispatch.Behaviour W E) (ev : E) (ls : list nat)
  : Prop :=
  forall l w, In l ls ->
    Dispatch.registryCalls (code l ev w) = []
    /\ forall error, Dispatch.throws (code l ev w) <> Some (Dispatch.Unprintable error).

End Props.

(** ** Further vocabulary *)

Module Terms.


Definition isCheck (op : Bridge.Op) : bool :=
  match op with
  | Bridge.OpCheck _ => true
  | _ => false
  end.

(** [markTelegramSent] called on each text in turn. *)
Definition recordAll (texts : list string) (m : Monitor.State) : Monitor.State :=
  fold_left (fun acc t => Monitor.markTelegramSent t acc) texts m.

(** The last [k] elements of a list. *)
Definition lastn {A} (k : nat) (l : list A) : list A := drop (length l - k) l.

(** A step that carries one of the payloads [buildInteraction] knows. *)
Definition hasPayload (step : LS.TrajectoryStep) : bool :=
  bool_decide (is_Some (LS.runCommand step))
  || bool_decide (is_Some (LS.openBrowserUrl step))
  || LS.executeBrowserJavascript step
  || LS.captureBrowserScreenshot step
  || LS.browserAction step || LS.browserSubagent step
  || bool_decide (is_Some (LS.mcp step))
  || bool_decide (is_Some (LS.readUrlContent step))
  || LS.sendCommandInput step
  || bool_decide (is_Some (LS.filePermission step))
  || LS.runExtensionCode step
  || LS.deploy step
  || LS.openBrowserSetup step
  || LS.confirmBrowserSetup step.

(** The payloads [buildInteraction] knows, in the order in which it tests
    for them. *)
Inductive Payload : Type :=
| PRunCommand | POpenBrowserUrl | PExecuteBrowserJavascript
| PCaptureBrowserScreenshot | PBrowserAction | PMcp | PReadUrlContent
| PSendCommandInput | PFilePermission | PRunExtensionCode | PDeploy
| POpenBrowserSetup | PConfirmBrowserSetup.

Definition payloads : list Payload :=
  [ PRunCommand; POpenBrowserUrl; PExecuteBrowserJavascript;
    PCaptureBrowserScreenshot; PBrowserAction; PMcp; PReadUrlContent;
    PSendCommandInput; PFilePermission; PRunExtensionCode; PDeploy;
    POpenBrowserSetup; PConfirmBrowserSetup ].

(** The step has the payload; a browser action comes as [browserAction]
    or as [browserSubagent]. *)
Definition carries (step : LS.TrajectoryStep) (p : Payload) : bool :=
  match p with
  | PRunCommand => bool_decide (is_Some (LS.runCommand step))
  | POpenBrowserUrl => bool_decide (is_Some (LS.openBrowserUrl step))
  | PExecuteBrowserJavascript => LS.executeBrowserJavascript step
  | PCaptureBrowserScreenshot => LS.captureBrowserScreenshot step
  | PBrowserAction => LS.browserAction step || LS.browserSubagent step
  | PMcp => bool_decide (is_Some (LS.mcp step))
  | PReadUrlContent => bool_decide (is_Some (LS.readUrlContent step))
  | PSendCommandInput => LS.sendCommandInput step
  | PFilePermission => bool_decide (is_Some (LS.filePermission step))
  | PRunExtensionCode => LS.runExtensionCode step
  | PDeploy => LS.deploy step
  | POpenBrowserSetup => LS.openBrowserSetup step
  | PConfirmBrowserSetup => LS.confirmBrowserSetup step
  end.

(** The command line of a step's [runCommand] payload:
    [commandLine ?? command ?? ''], empty too without the payload. *)
Definition commandOf (step : LS.TrajectoryStep) : string :=
  match LS.runCommand step with
  | Some rc =>
      match LS.commandLine rc, LS.command rc with
      | Some line, _ => line
      | None, Some line => line
      | None, None => ""
      end
  | None => ""
  end.

(** A step that the backward loop of [acceptWaitingStep] passes over: not
    waiting, or waiting with no interaction to build. *)
Definition passedOver (m : Monitor.State) (accept : bool) (offset : Z)
  (p : nat * LS.TrajectoryStep) : Prop :=
  Monitor.isWaitingStatus (LS.step_status (snd p)) = false
  \/ Monitor.buildInteraction m (snd p) (offset + Z.of_nat (fst p)) accept = None.

(** The absolute offsets of the waiting steps of a fetched array, the
    first of which has offset [offset + i]. *)
Fixpoint waitingOffsets (offset i : Z) (steps : list LS.TrajectoryStep) : gset Z :=
  match steps with
  | [] => ∅
  | step :: rest =>
      (if Monitor.isWaitingStatus (LS.step_status step)
       then {[ offset + i ]} else ∅)
      ∪ waitingOffsets offset (i + 1) rest
  end.

(** An event of [processNewSteps]: an agent response or a message typed
    in the GUI. *)
Definition isAgentOrGui (ev : Monitor.TrajectoryEvent) : bool :=
  match Monitor.ev_type ev with
  | Monitor.step_request => false
  | _ => true
  end.

Definition isStepRequestEvent (ev : Monitor.TrajectoryEvent) : bool :=
  match Monitor.ev_type ev with
  | Monitor.step_request => true
  | _ => false
  end.

End Terms.

(** ** The bridge's agent commands and its diagnostics watch *)

Module Agent.
Import Bridge.

(** What [vscode.commands.executeCommand(id, ...)] does during one call
    of a command method: it resolves, or rejects with a message. *)
Definition CommandHost : Type := string -> Awaited unit.

(** The boolean a command method resolves to, the bridge afterwards, and
    the host commands it ran, in order. *)
Record CommandResult := {
  ok : bool;
  bridgeAfter : State;
  issued : list string
}.

(** The [catch] block of [sendPrompt]. *)
Definition sendTextFallback (now : Z) (host : CommandHost) (b : State)
  (soFar : list string) : CommandResult :=
  match host "antigravity.sendTextToChat" with
  | Resolved _ =>
      {| ok := true; bridgeAfter := resetActivityTracking now b;
         issued := soFar ++ ["antigravity.sendTextToChat"] |}
  | Rejected _ =>
      {| ok := false; bridgeAfter := b;
         issued := soFar ++ ["antigravity.sendTextToChat"] |}
  end.

Definition sendPrompt (now : Z) (host : CommandHost) (b : State) : CommandResult :=
  match host "antigravity.openAgent" with
  | Resolved _ =>
      match host "antigravity.sendPromptToAgentPanel" with
      | Resolved _ =>
          {| ok := true; bridgeAfter := resetActivityTracking now b;
             issued := ["antigravity.openAgent";
                        "antigravity.sendPromptToAgentPanel"] |}
      | Rejected _ =>
          sendTextFallback now host b
            ["antigravity.openAgent"; "antigravity.sendPromptToAgentPanel"]
      end
  | Rejected _ => sendTextFallback now host b ["antigravity.openAgent"]
  end.

Definition startNewConversation (host : CommandHost) (b : State) : CommandResult :=
  match host "antigravity.startNewConversation" with
  | Resolved _ =>
      {| ok := true; bridgeAfter := clearActivityTracking b;
         issued := ["antigravity.startNewConversation"] |}
  | Rejected _ =>
      {| ok := false; bridgeAfter := b;
         issued := ["antigravity.startNewConversation"] |}
  end.

Definition acceptStep (now : Z) (host : CommandHost) (b : State) : CommandResult :=
  match host "antigravity.agent.acceptAgentStep" with
  | Resolved _ =>
      {| ok := true; bridgeAfter := resetActivityTracking now b;
         issued := ["antigravity.agent.acceptAgentStep"] |}
  | Rejected _ =>
      {| ok := false; bridgeAfter := b;
         issued := ["antigravity.agent.acceptAgentStep"] |}
  end.

Definition rejectStep (host : CommandHost) (b : State) : CommandResult :=
  match host "antigravity.agent.rejectAgentStep" with
  | Resolved _ =>
      {| ok := true; bridgeAfter := clearActivityTracking b;
         issued := ["antigravity.agent.rejectAgentStep"] |}
  | Rejected _ =>
      {| ok := false; bridgeAfter := b;
         issued := ["antigravity.agent.rejectAgentStep"] |}
  end.

(** *** Diagnostics *)

Inductive DiagnosticSeverity : Type := Error | Warning | Information | Hint.

(** A diagnostic: its severity, [range.start.line] and its message. *)
Record Diagnostic := {
  severity : DiagnosticSeverity;
  startLine : Z;
  diagMessage : string
}.

(** The host during one change event, a URI being given by its
    [toString()]: [vscode.languages.getDiagnostics] and
    [vscode.workspace.asRelativePath]. *)
Record DiagnosticsHost := {
  getDiagnostics : string -> list Diagnostic;
  asRelativePath : string -> string
}.

(** The bridge with its [lastDiagnostics] map, which holds array lengths. *)
Record Watch := {
  bridge : State;
  lastDiagnostics : gmap string nat
}.

Definition isError (d : Diagnostic) : bool :=
  match severity d with
  | Error => true
  | _ => false
  end.

(** [diags.filter(d => d.severity === vscode.DiagnosticSeverity.Error)] *)
Definition errorsOf (host : DiagnosticsHost) (uri : string) : list Diagnostic :=
  List.filter isError (getDiagnostics host uri).

Definition errorEvent (now : Z) (rel : string) (err : Diagnostic) : AgentEvent :=
  {| type := error;
     content := rel +:+ ":" +:+ pretty (startLine err + 1) +:+ ": " +:+ diagMessage err;
     timestamp := now |}.

(** The body of the loop over [e.uris]. *)
Definition diagnosticsOf (now : Z) (host : DiagnosticsHost) (uri : string) (w : Watch)
  : Watch * list AgentEvent :=
  let errors := errorsOf host uri in
  let prevCount := default 0%nat (lastDiagnostics w !! uri) in
  let table := <[uri := length errors]> (lastDiagnostics w) in
  if (prevCount <? length errors)%nat then
    ({| bridge := trackActivity now (bridge w); lastDiagnostics := table |},
     map (errorEvent now (asRelativePath host uri)) (drop prevCount errors))
  else ({| bridge := bridge w; lastDiagnostics := table |}, []).

Fixpoint onDidChangeDiagnostics (now : Z) (host : DiagnosticsHost)
  (uris : list string) (w : Watch) : Watch * list AgentEvent :=
  match uris with
  | [] => (w, [])
  | uri :: rest =>
      let '(w1, evs1) := diagnosticsOf now host uri w in
      let '(w2, evs2) := onDidChangeDiagnostics now host rest w1 in
      (w2, evs1 ++ evs2)
  end.

End Agent.

(** ** The client's HTTP calls and its discovery *)

Module Http.

(** How one HTTP request ends: a response with its status code and body,
    an [error] event, or a [timeout] event, whose handler destroys the
    request; [thenError] tells whether the host follows the destruction with
    an [error] event, which then finds the promise settled. *)
Inductive HttpOutcome : Type :=
| HttpResponse (statusCode : Z) (data : string)
| HttpError (msg : string)
| HttpTimeout (thenError : bool).

Record ClientState := {
  csrfToken : string;
  httpPort : Z;
  discovered : bool
}.

Definition setDiscovered (d : bool) (st : ClientState) : ClientState :=
  {| csrfToken := csrfToken st; httpPort := httpPort st; discovered := d |}.

(** [apiCall]: the value the promise resolves to, [JNull] being [null],
    and the client afterwards. No request is made when the client is not
    discovered. *)
Definition apiCall (st : ClientState) (outcome : HttpOutcome) : JSValue * ClientState :=
  if negb (discovered st) then (JNull, st)
  else
    match outcome with
    | HttpResponse statusCode data =>
        if negb (statusCode =? 200) then
          if (statusCode =? 401) || (statusCode =? 403)
          then (JNull, setDiscovered false st)
          else (JNull, st)
        else
          match JSON_parse data with
          | Some v => (v, st)
          | None => (JNull, st)
          end
    | HttpError _ => (JNull, setDiscovered false st)
    | HttpTimeout thenError =>
        (JNull, if thenError then setDiscovered false st else st)
    end.

(** An outcome after which the client holds itself undiscovered. *)
Definition dropsDiscovery (outcome : HttpOutcome) : bool :=
  match outcome with
  | HttpResponse statusCode _ => (statusCode =? 401) || (statusCode =? 403)
  | HttpError _ => true
  | HttpTimeout thenError => thenError
  end.

(** Calls made one after the other, each with the outcome its request
    would have. *)
Fixpoint apiCalls (st : ClientState) (outcomes : list HttpOutcome)
  : list JSValue * ClientState :=
  match outcomes with
  | [] => ([], st)
  | o :: rest =>
      let '(v, st1) := apiCall st o in
      let '(vs, st2) := apiCalls st1 rest in
      (v :: vs, st2)
  end.

(** The request of [testHttpPort] answers [true] on status 200 only. *)
Definition testHttpPortOf (outcome : HttpOutcome) : bool :=
  match outcome with
  | HttpResponse statusCode _ => statusCode =? 200
  | _ => false
  end.

(** What discovery finds during one call: the process id and token of the
    language server, the ports it listens on, and whether a port answers a
    test request sent with a token. *)
Record Probes := {
  findLSProcess : Awaited (option (Z * string));
  getListeningPorts : Z -> Awaited (list Z);
  testHttpPort : string -> Z -> Awaited bool
}.

(** The loop of [discover] over the ports; [None] is a rejected test. *)
Fixpoint firstHttpPort (probes : Probes) (token : string) (ports : list Z)
  : option (option Z) :=
  match ports with
  | [] => Some None
  | port :: rest =>
      match testHttpPort probes token port with
      | Resolved true => Some (Some port)
      | Resolved false => firstHttpPort probes token rest
      | Rejected _ => None
      end
  end.

Definition discover (probes : Probes) (st : ClientState) : bool * ClientState :=
  match findLSProcess probes with
  | Rejected _ => (false, setDiscovered false st)
  | Resolved None => (false, setDiscovered false st)
  | Resolved (Some (pid, token)) =>
      let st1 := {| csrfToken := token; httpPort := httpPort st;
                    discovered := discovered st |} in
      match getListeningPorts probes pid with
      | Rejected _ => (false, setDiscovered false st1)
      | Resolved ports =>
          if Z.of_nat (length ports) =? 0 then (false, setDiscovered false st1)
          else
            match firstHttpPort probes token ports with
            | Some (Some port) =>
                (true, {| csrfToken := token; httpPort := port; discovered := true |})
            | Some None => (false, setDiscovered false st1)
            | None => (false, setDiscovered false st1)
            end
      end
  end.

End Http.

(** ** The bot's event buffer and its Markdown escaping *)

Module Telegram.

Definition MAX_EVENT_BUFFER : Z := 200.

(** The listener the bot registers on the bridge: nothing while muted;
    otherwise the oldest event is dropped from a full buffer and the event
    is appended. *)
Definition bufferEvent {E} (muted : bool) (event : E) (eventBuffer : list E) : list E :=
  if muted then eventBuffer
  else
    let kept := if Z.of_nat (length eventBuffer) >=? MAX_EVENT_BUFFER
                then tail eventBuffer else eventBuffer in
    kept ++ [event].

Definition bufferAll {E} (muted : bool) (events : list E) (eventBuffer : list E)
  : list E :=
  fold_left (fun buf ev => bufferEvent muted ev buf) events eventBuffer.

(** The characters of [/([*_`\[])/g]. *)
Definition isMarkdownSpecial (c : ascii) : bool :=
  let n := code c in (n =? 42) || (n =? 95) || (n =? 96) || (n =? 91).

(** [text.replace(/([*_`\[])/g, '\\$1')] *)
Fixpoint escapeMarkdown (text : string) : string :=
  match text with
  | EmptyString => EmptyString
  | String c r =>
      if isMarkdownSpecial c then String (chr 92) (String c (escapeMarkdown r))
      else String c (escapeMarkdown r)
  end.

(** The characters of [/[*`_\[\]\\]/g]. *)
Definition isMarkdownChar (c : ascii) : bool :=
  let n := code c in
  (n =? 42) || (n =? 96) || (n =? 95) || (n =? 91) || (n =? 93) || (n =? 92).

(** [message.replace(/[*`_\[\]\\]/g, '')], the plain-text retry. *)
Fixpoint stripMarkdown (text : string) : string :=
  match text with
  | EmptyString => EmptyString
  | String c r =>
      if isMarkdownChar c then stripMarkdown r else String c (stripMarkdown r)
  end.

(** Every special character of a text stands right after a backslash;
    [escaped] tells whether the character before is one. *)
Fixpoint wellEscaped (escaped : bool) (text : string) : bool :=
  match text with
  | EmptyString => true
  | String c r =>
      (negb (isMarkdownSpecial c) || escaped)
      && wellEscaped (code c =? 92) r
  end.

Fixpoint hasSpecial (text : string) : bool :=
  match text with
  | EmptyString => false
  | String c r => isMarkdownSpecial c || hasSpecial r
  end.

(** *** Authorisation *)

(** [isAuthorized], the configured id and [ctx.chat?.id] being given:
    nobody while no id is configured, else the chat whose id prints as the
    configured one. *)
Definition isAuthorized (allowedId : string) (chatId : option Z) : bool :=
  if String.eqb allowedId "" then false
  else
    match chatId with
    | Some id => String.eqb (pretty id) allowedId
    | None => false
    end.

(** *** Flushing the buffer *)

Definition nl : string := String (chr 10) EmptyString.

(** One call of [bot.api.sendMessage]: the text, whether it asks for
    [parse_mode: 'Markdown'], and whether it carries the accept and reject
    keyboard. *)
Record Message := {
  text : string;
  parseMarkdown : bool;
  withKeyboard : bool
}.

Definition isType (t : Bridge.EventType) (event : Bridge.AgentEvent) : bool :=
  match t, Bridge.type event with
  | Bridge.file_change, Bridge.file_change
  | Bridge.terminal_output, Bridge.terminal_output
  | Bridge.step_request, Bridge.step_request
  | Bridge.info, Bridge.info
  | Bridge.error, Bridge.error => true
  | _, _ => false
  end.

(** [grouped[t]]: the contents of the events of type [t], in order; the
    empty list stands for an absent group. *)
Definition grouped (t : Bridge.EventType) (events : list Bridge.AgentEvent)
  : list string :=
  map Bridge.content (List.filter (isType t) events).

Definition fileChangePart (changes : list string) : string :=
  "📁 *파일 변경 (" +:+ pretty (Z.of_nat (length changes)) +:+ "):*" +:+ nl
  +:+ String.concat nl (map (fun c => "  " +:+ escapeMarkdown c) (take 15 changes)).

Definition errorPart (errors : list string) : string :=
  "🔴 *에러 (" +:+ pretty (Z.of_nat (length errors)) +:+ "):*" +:+ nl
  +:+ String.concat nl (map (fun e => "  " +:+ escapeMarkdown e) (take 10 errors)).

Definition stepRequestText (steps : list string) : string :=
  "⚠️ *에이전트 권한 요청:*" +:+ nl +:+ String.concat nl (map escapeMarkdown steps).

Definition infoPart (infos : list string) : string :=
  "ℹ️ " +:+ String.concat nl (map escapeMarkdown (take 5 infos)).

(** [if (grouped[t]) parts.push(f(grouped[t]))] *)
Definition partOf (f : list string -> string) (group : list string) : list string :=
  match group with
  | [] => []
  | _ :: _ => [f group]
  end.

Section Flush.

(** The masking of [sanitize], which replaces what seven regular
    expressions match, and the outcome of each [sendMessage]. *)
Variable sanitize : string -> string.
Variable sendMessage : Message -> Awaited unit.

Definition terminalPart (outputs : list string) : string :=
  "💻 *터미널:*" +:+ nl +:+ "```" +:+ nl
  +:+ substring 0 2000 (sanitize (String.concat nl outputs)) +:+ nl +:+ "```".

Definition partsOf (events : list Bridge.AgentEvent) : list string :=
  partOf fileChangePart (grouped Bridge.file_change events)
  ++ partOf terminalPart (grouped Bridge.terminal_output events)
  ++ partOf errorPart (grouped Bridge.error events)
  ++ partOf infoPart (grouped Bridge.info events).

(** [flushEvents] on a buffer that receives nothing while the flush
    waits: the buffer afterwards and the messages it tried to send, in
    order. [chatId] is what [getAllowedChatId()] returns. *)
Definition flushEvents (chatId : string) (eventBuffer : list Bridge.AgentEvent)
  : list Bridge.AgentEvent * list Message :=
  if Z.of_nat (length eventBuffer) =? 0 then (eventBuffer, [])
  else if String.eqb chatId "" then (eventBuffer, [])
  else
    let events := eventBuffer in
    match grouped Bridge.step_request events with
    | (_ :: _) as steps =>
        ([], [ {| text := stepRequestText steps; parseMarkdown := true;
                  withKeyboard := true |} ])
    | [] =>
        let parts := partsOf events in
        if Z.of_nat (length parts) =? 0 then ([], [])
        else
          let message := String.concat (nl +:+ nl) parts in
          let first := {| text := message; parseMarkdown := true;
                          withKeyboard := false |} in
          match sendMessage first with
          | Resolved _ => ([], [first])
          | Rejected _ =>
              ([], [ first;
                     {| text := stripMarkdown message; parseMarkdown := false;
                        withKeyboard := false |} ])
          end
    end.

End Flush.

(** No character of [text] is one the plain-text retry removes. *)
Fixpoint plain (text : string) : bool :=
  match text with
  | EmptyString => true
  | String c r => negb (isMarkdownChar c) && plain r
  end.

End Telegram.

(** ** The JSON reader and its fuel *)

Module JSONFacts.

Lemma skip_ws_length s : (String.length (skip_ws s) <= String.length s)%nat.
Proof.
  induction s as [|c r IH]; cbn [skip_ws]; [lia|].
  destruct (is_json_ws c); cbn [String.length]; lia.
Qed.

Lemma strip_prefix_length eqc p s r :
  strip_prefix eqc p s = Some r ->
  String.length s = (String.length p + String.length r)%nat.
Proof.
  revert s. induction p as [|a p IH]; intros s; cbn [strip_prefix].
  - intros [= ->]. reflexivity.
  - destruct s as [|b s]; [discriminate|]. destruct (eqc a b); [|discriminate].
    intros H. apply IH in H. cbn [String.length]. lia.
Qed.

Lemma parse_string_body_length s : forall body rest,
  parse_string_body s = Some (body, rest) ->
  (String.length rest < String.length s)%nat.
Proof.
  remember (S (String.length s)) as bound eqn:Hb.
  assert (Hlt : (String.length s < bound)%nat) by lia. clear Hb.
  revert s Hlt. induction bound as [|bound IHb]; intros s Hlt; [lia|].
  assert (IH : forall y, (String.length y < String.length s)%nat ->
                 forall body rest, parse_string_body y = Some (body, rest) ->
                                   (String.length rest < String.length y)%nat).
  { intros y Hy. apply IHb. lia. }
  clear IHb Hlt.
  intros body rest. destruct s as [|c r]; [discriminate|].
  cbn [parse_string_body String.length].
  destruct (code c =? 34); [intros H; inversion H; subst; lia|].
  destruct (code c <? 32); [discriminate|].
  destruct (code c =? 92).
  - destruct r as [|e r1]; [discriminate|].
    destruct (simple_escape e).
    + destruct (parse_string_body r1) as [[b' r']|] eqn:Hr; [|discriminate].
      intros H; inversion H; subst. apply IH in Hr; cbn [String.length] in *; lia.
    + destruct (code e =? 117); [|discriminate].
      destruct r1 as [|h1 [|h2 [|h3 [|h4 r2]]]]; try discriminate.
      destruct (hex4 h1 h2 h3 h4) as [n|]; [|discriminate].
      destruct (parse_string_body r2) as [[b' r']|] eqn:Hr; [|discriminate].
      intros H; inversion H; subst. apply IH in Hr; cbn [String.length] in *; lia.
  - destruct (parse_string_body r) as [[b' r']|] eqn:Hr; [|discriminate].
    intros H; inversion H; subst. apply IH in Hr; cbn [String.length] in *; lia.
Qed.

Lemma take_digits_length s : forall acc n m k rest,
  take_digits s acc n = (m, k, rest) ->
  (String.length rest <= String.length s)%nat
  /\ (n < k -> (String.length rest < String.length s)%nat)
  /\ n <= k.
Proof.
  induction s as [|c r IH]; intros acc n m k rest; cbn [take_digits].
  - intros [= _ <- <-]. cbn. lia.
  - destruct (is_digit c).
    + intros H. apply IH in H. cbn [String.length]. lia.
    + intros [= _ <- <-]. cbn [String.length]. lia.
Qed.

Lemma parse_unsigned_length s m e rest :
  parse_unsigned s = Some (m, e, rest) ->
  (String.length rest < String.length s)%nat.
Proof.
  destruct s as [|c r]; [discriminate|]. unfold parse_unsigned.
  destruct (is_digit c) eqn:Hd; cbn [negb]; [|discriminate].
  assert (Hip : forall ip k r1,
            (if code c =? 48 then (0, 1, r) else take_digits (String c r) 0 0)
            = (ip, k, r1) ->
            (String.length r1 < String.length (String c r))%nat).
  { intros ip k r1. destruct (code c =? 48).
    - intros [= _ _ <-]. cbn [String.length]. lia.
    - cbn [take_digits]. rewrite Hd. intros H.
      apply take_digits_length in H. cbn [String.length]. lia. }
  destruct (if code c =? 48 then (0, 1, r) else take_digits (String c r) 0 0)
    as [[ip k0] r1] eqn:Hhead.
  specialize (Hip ip k0 r1 eq_refl).
  assert (Hfrac : forall m' k' r3,
            match r1 with
            | String d r2 =>
                if code d =? 46 then
                  let '(m, k, r3) := take_digits r2 ip 0 in
                  if k =? 0 then None else Some (m, k, r3)
                else Some (ip, 0, r1)
            | EmptyString => Some (ip, 0, r1)
            end = Some (m', k', r3) ->
            (String.length r3 <= String.length r1)%nat).
  { intros m' k' r3. destruct r1 as [|d r2]; [intros [= _ _ <-]; lia|].
    destruct (code d =? 46); [|intros [= _ _ <-]; lia].
    destruct (take_digits r2 ip 0) as [[m1 k1] r3'] eqn:Ht.
    destruct (k1 =? 0); [discriminate|]. intros [= _ _ <-].
    apply take_digits_length in Ht. cbn [String.length]. lia. }
  destruct (match r1 with
            | String d r2 =>
                if code d =? 46 then
                  let '(m, k, r3) := take_digits r2 ip 0 in
                  if k =? 0 then None else Some (m, k, r3)
                else Some (ip, 0, r1)
            | EmptyString => Some (ip, 0, r1)
            end) as [[[m' k'] r3]|] eqn:Hf; [|discriminate].
  specialize (Hfrac m' k' r3 eq_refl).
  destruct r3 as [|x r4]; [intros [= _ _ <-]; lia|].
  destruct ((code x =? 101) || (code x =? 69)); [|intros [= _ _ <-]; lia].
  assert (Hsign : forall neg r5,
            match r4 with
            | String sg r5 =>
                if code sg =? 45 then (true, r5)
                else if code sg =? 43 then (false, r5)
                else (false, r4)
            | EmptyString => (false, r4)
            end = (neg, r5) ->
            (String.length r5 <= String.length r4)%nat).
  { intros neg r5. destruct r4 as [|sg r5']; [intros [= _ <-]; lia|].
    destruct (code sg =? 45); [intros [= _ <-]; cbn [String.length]; lia|].
    destruct (code sg =? 43); intros [= _ <-]; cbn [String.length]; lia. }
  destruct (match r4 with
            | String sg r5 =>
                if code sg =? 45 then (true, r5)
                else if code sg =? 43 then (false, r5)
                else (false, r4)
            | EmptyString => (false, r4)
            end) as [neg r5] eqn:Hs.
  specialize (Hsign neg r5 eq_refl).
  destruct (take_digits r5 0 0) as [[ex kx] r6] eqn:Ht.
  destruct (kx =? 0); [discriminate|]. intros [= _ _ <-].
  apply take_digits_length in Ht. cbn [String.length] in *. lia.
Qed.

Lemma parse_number_length s v rest :
  parse_number s = Some (v, rest) ->
  (String.length rest < String.length s)%nat.
Proof.
  destruct s as [|c r]; [discriminate|]. unfold parse_number.
  destruct (code c =? 45).
  - destruct (parse_unsigned r) as [[[m e] rest']|] eqn:H; [|discriminate].
    intros [= _ <-]. apply parse_unsigned_length in H. cbn [String.length]. lia.
  - destruct (parse_unsigned (String c r)) as [[[m e] rest']|] eqn:H; [|discriminate].
    intros [= _ <-]. now apply parse_unsigned_length in H.
Qed.

Lemma skip_ws_cons s c r :
  skip_ws s = String c r -> (String.length r < String.length s)%nat.
Proof.
  intros H. pose proof (skip_ws_length s) as Hle. rewrite H in Hle.
  cbn [String.length] in Hle. lia.
Qed.

(** Every reader that succeeds has consumed at least one character. *)
Lemma parse_length fuel : forall s,
  (forall v rest, parse_value fuel s = Some (v, rest) ->
                  (String.length rest < String.length s)%nat)
  /\ (forall ms rest, parse_members fuel s = Some (ms, rest) ->
                      (String.length rest < String.length s)%nat)
  /\ (forall vs rest, parse_elements fuel s = Some (vs, rest) ->
                      (String.length rest < String.length s)%nat).
Proof.
  induction fuel as [|f IH]; intros s; [repeat split; discriminate|].
  split; [|split].
  - intros v rest. cbn [parse_value].
    destruct (skip_ws s) as [|c r] eqn:Hs; [discriminate|].
    apply skip_ws_cons in Hs.
    destruct (code c =? 123).
    { destruct (skip_ws r) as [|d r1] eqn:Hr; [discriminate|].
      apply skip_ws_cons in Hr.
      destruct (code d =? 125); [intros [= _ <-]; lia|].
      destruct (parse_members f r) as [[ms rest']|] eqn:Hm; [|discriminate].
      intros [= _ <-]. apply (proj1 (proj2 (IH r))) in Hm. lia. }
    destruct (code c =? 91).
    { destruct (skip_ws r) as [|d r1] eqn:Hr; [discriminate|].
      apply skip_ws_cons in Hr.
      destruct (code d =? 93); [intros [= _ <-]; lia|].
      destruct (parse_elements f r) as [[vs rest']|] eqn:Hm; [|discriminate].
      intros [= _ <-]. apply (proj2 (proj2 (IH r))) in Hm. lia. }
    destruct (code c =? 34).
    { destruct (parse_string_body r) as [[body rest']|] eqn:Hb; [|discriminate].
      intros [= _ <-]. apply parse_string_body_length in Hb. lia. }
    destruct (strip_prefix eq_char "true" (String c r)) as [rest'|] eqn:Ht.
    { intros [= _ <-]. apply strip_prefix_length in Ht.
      cbn [String.length] in *. lia. }
    destruct (strip_prefix eq_char "false" (String c r)) as [rest'|] eqn:Hf.
    { intros [= _ <-]. apply strip_prefix_length in Hf.
      cbn [String.length] in *. lia. }
    destruct (strip_prefix eq_char "null" (String c r)) as [rest'|] eqn:Hn.
    { intros [= _ <-]. apply strip_prefix_length in Hn.
      cbn [String.length] in *. lia. }
    intros H. apply parse_number_length in H. cbn [String.length] in *. lia.
  - intros ms rest. cbn [parse_members].
    destruct (skip_ws s) as [|q r] eqn:Hs; [discriminate|].
    apply skip_ws_cons in Hs.
    destruct (code q =? 34); cbn [negb]; [|discriminate].
    destruct (parse_string_body r) as [[k r1]|] eqn:Hb; [|discriminate].
    apply parse_string_body_length in Hb.
    destruct (skip_ws r1) as [|colon r2] eqn:Hc; [discriminate|].
    apply skip_ws_cons in Hc.
    destruct (code colon =? 58); cbn [negb]; [|discriminate].
    destruct (parse_value f r2) as [[v r3]|] eqn:Hv; [|discriminate].
    apply (proj1 (IH r2)) in Hv.
    destruct (skip_ws r3) as [|d r4] eqn:Hd; [discriminate|].
    apply skip_ws_cons in Hd.
    destruct (code d =? 125); [intros [= _ <-]; lia|].
    destruct (code d =? 44); [|discriminate].
    destruct (parse_members f r4) as [[ms' rest']|] eqn:Hm; [|discriminate].
    intros [= _ <-]. apply (proj1 (proj2 (IH r4))) in Hm. lia.
  - intros vs rest. cbn [parse_elements].
    destruct (parse_value f s) as [[v r1]|] eqn:Hv; [|discriminate].
    apply (proj1 (IH s)) in Hv.
    destruct (skip_ws r1) as [|d r2] eqn:Hd; [discriminate|].
    apply skip_ws_cons in Hd.
    destruct (code d =? 93); [intros [= _ <-]; lia|].
    destruct (code d =? 44); [|discriminate].
    destruct (parse_elements f r2) as [[vs' rest']|] eqn:Hm; [|discriminate].
    intros [= _ <-]. apply (proj2 (proj2 (IH r2))) in Hm. lia.
Qed.

(** Past the bound no reader asks for more fuel: one unit more changes
    nothing. *)
Lemma parse_fuel_step fuel : forall s,
  ((2 * String.length s + 2 <= fuel)%nat ->
   parse_value (S fuel) s = parse_value fuel s)
  /\ ((2 * String.length s + 1 <= fuel)%nat ->
      parse_members (S fuel) s = parse_members fuel s)
  /\ ((2 * String.length s + 3 <= fuel)%nat ->
      parse_elements (S fuel) s = parse_elements fuel s).
Proof.
  induction fuel as [|f IH]; intros s; [repeat split; lia|].
  split; [|split]; intros Hfuel.
  - enough (Hgen : forall g, g = S f -> parse_value (S g) s = parse_value (S f) s)
      by (apply Hgen; reflexivity).
    intros g Hg. cbn [parse_value].
    destruct (skip_ws s) as [|c r] eqn:Hs; [reflexivity|].
    apply skip_ws_cons in Hs. subst g.
    rewrite (proj1 (proj2 (IH r))) by lia.
    rewrite (proj2 (proj2 (IH r))) by lia.
    reflexivity.
  - enough (Hgen : forall g, g = S f -> parse_members (S g) s = parse_members (S f) s)
      by (apply Hgen; reflexivity).
    intros g Hg. cbn [parse_members].
    destruct (skip_ws s) as [|q r] eqn:Hs; [reflexivity|].
    apply skip_ws_cons in Hs.
    destruct (negb (code q =? 34)); [reflexivity|].
    destruct (parse_string_body r) as [[k r1]|] eqn:Hb; [|reflexivity].
    apply parse_string_body_length in Hb.
    destruct (skip_ws r1) as [|colon r2] eqn:Hc; [reflexivity|].
    apply skip_ws_cons in Hc.
    destruct (negb (code colon =? 58)); [reflexivity|]. subst g.
    rewrite (proj1 (IH r2)) by lia.
    destruct (parse_value f r2) as [[v r3]|] eqn:Hv; [|reflexivity].
    apply (proj1 (parse_length f r2)) in Hv.
    destruct (skip_ws r3) as [|d r4] eqn:Hd; [reflexivity|].
    apply skip_ws_cons in Hd.
    rewrite (proj1 (proj2 (IH r4))) by lia. reflexivity.
  - enough (Hgen : forall g, g = S f -> parse_elements (S g) s = parse_elements (S f) s)
      by (apply Hgen; reflexivity).
    intros g Hg. cbn [parse_elements]. subst g.
    rewrite (proj1 (IH s)) by lia.
    destruct (parse_value f s) as [[v r1]|] eqn:Hv; [|reflexivity].
    apply (proj1 (parse_length f s)) in Hv.
    destruct (skip_ws r1) as [|d r2] eqn:Hd; [reflexivity|].
    apply skip_ws_cons in Hd.
    rewrite (proj2 (proj2 (IH r2))) by lia. reflexivity.
Qed.

(** An escape names any code unit: [\u2014] is read as the one unit
    8212, and [\u00e9] as 233 like the character itself. *)
Example JSON_parse_reads_escapes :
  JSON_parse ("{" +:+ quoted "Message" +:+ ": " +:+ quoted "a \u2014 b\u00E9" +:+ "}")
  = Some (JObj [(units "Message", JStr [97; 32; 8212; 32; 98; 233])]).
Proof. vm_compute. reflexivity. Qed.

(** The fuel [JSON_parse] gives is enough: with any larger amount the
    reader returns the same. *)
Lemma JSON_parse_fuel_enough text extra :
  parse_value (2 * String.length text + 2 + extra) text
  = parse_value (2 * String.length text + 2) text.
Proof.
  induction extra as [|n IH]; [now rewrite Nat.add_0_r|].
  rewrite Nat.add_succ_r, <- IH. apply (parse_fuel_step _ text). lia.
Qed.

End JSONFacts.

(** ** Properties of the bridge *)

Module BridgeFacts.
Import Bridge Props.

Lemma run_app b ops1 ops2 :
  run b (ops1 ++ ops2) =
  let '(b1, evs1) := run b ops1 in
  let '(b2, evs2) := run b1 ops2 in
  (b2, evs1 ++ evs2).
Proof.
  revert b. induction ops1 as [|op ops1 IH]; intros b; simpl.
  - destruct (run b ops2); reflexivity.
  - destruct (step b op) as [b1 e1]. rewrite IH.
    destruct (run b1 ops1) as [b2 e2]. destruct (run b2 ops2) as [b3 e3].
    now rewrite app_assoc.
Qed.

(** [trackActivity] leaves the notification count alone. *)
Lemma trackActivity_count now b :
  stallNotifyCount (activity (trackActivity now b)) = stallNotifyCount (activity b).
Proof.
  unfold trackActivity. destruct (promptSentAt (activity b) =? 0); [reflexivity|].
  simpl. destruct (hadActivity (activity b)); simpl;
    destruct (stallNotified (activity b)); reflexivity.
Qed.

(** One check emits at most one event and counts it. *)
Lemma checkForStall_count now b :
  stallNotifyCount (activity b) <= MAX_STALL_NOTIFICATIONS ->
  let r := checkForStall now b in
  stallNotifyCount (activity (fst r))
    = stallNotifyCount (activity b) + Z.of_nat (length (snd r))
  /\ stallNotifyCount (activity (fst r)) <= MAX_STALL_NOTIFICATIONS.
Proof.
  intros Hle. unfold checkForStall.
  destruct (promptSentAt (activity b) =? 0); [simpl; lia|].
  destruct (hadActivity (activity b)); simpl; [|lia].
  destruct (stallNotified (activity b)); [simpl; lia|].
  destruct (Z.geb_spec (stallNotifyCount (activity b)) MAX_STALL_NOTIFICATIONS);
    [simpl; lia|].
  destruct (now - lastActivityAt (activity b) >=? STALL_THRESHOLD_MS); simpl; lia.
Qed.

Lemma run_count ops : forall b,
  forallb withinPrompt ops = true ->
  stallNotifyCount (activity b) <= MAX_STALL_NOTIFICATIONS ->
  stallNotifyCount (activity (fst (run b ops)))
    = stallNotifyCount (activity b) + Z.of_nat (length (snd (run b ops)))
  /\ stallNotifyCount (activity (fst (run b ops))) <= MAX_STALL_NOTIFICATIONS.
Proof.
  induction ops as [|op ops IH]; intros b Hops Hle; simpl in *.
  - lia.
  - apply andb_prop in Hops as [Hop Hops].
    destruct op as [now|now|now|]; simpl in Hop; try discriminate; simpl.
    + specialize (IH (trackActivity now b) Hops).
      rewrite trackActivity_count in IH. specialize (IH Hle).
      destruct (run (trackActivity now b) ops) as [b2 e2]; simpl in *. exact IH.
    + pose proof (checkForStall_count now b Hle) as [Hc Hc'].
      destruct (checkForStall now b) as [b1 e1]; simpl in *.
      specialize (IH b1 Hops Hc').
      destruct (run b1 ops) as [b2 e2]; simpl in *.
      rewrite length_app. lia.
Qed.

(** Every event of such a run is a [step_request] of [checkForStall]. *)
Lemma run_step_requests ops : forall b,
  forallb withinPrompt ops = true ->
  forallb isStepRequest (snd (run b ops)) = true.
Proof.
  induction ops as [|op ops IH]; intros b Hops; simpl in *; [reflexivity|].
  apply andb_prop in Hops as [Hop Hops].
  destruct op as [now|now|now|]; simpl in Hop; try discriminate; simpl.
  - specialize (IH (trackActivity now b) Hops).
    destruct (run (trackActivity now b) ops); exact IH.
  - assert (He : forallb isStepRequest (snd (checkForStall now b)) = true).
    { unfold checkForStall.
      repeat match goal with |- context [if ?c then _ else _] => destruct c end;
        reflexivity. }
    destruct (checkForStall now b) as [b1 e1]. specialize (IH b1 Hops).
    destruct (run b1 ops) as [b2 e2]. simpl in *.
    rewrite forallb_app, He, IH. reflexivity.
Qed.

(** C2. Between a [resetActivityTracking] and the next reset or clear, any
    sequence of [trackActivity] and [checkForStall] calls emits at most
    [MAX_STALL_NOTIFICATIONS] = 3 events, all of them [step_request]. *)
Theorem checkForStall_at_most_three (now0 : Z) (b : State) (ops : list Op) :
  forallb withinPrompt ops = true ->
  let evs := snd (run (resetActivityTracking now0 b) ops) in
  Z.of_nat (length evs) <= MAX_STALL_NOTIFICATIONS
  /\ MAX_STALL_NOTIFICATIONS = 3
  /\ forallb isStepRequest evs = true.
Proof.
  intros Hops evs. subst evs.
  destruct (run_count ops (resetActivityTracking now0 b) Hops) as [Heq Hle].
  { simpl. unfold MAX_STALL_NOTIFICATIONS. lia. }
  simpl in Heq. split; [lia|]. split; [reflexivity|].
  now apply run_step_requests.
Qed.

(** Five silences past the threshold, each after resumed activity: the
    cap holds the run at three events. *)
Lemma checkForStall_at_most_three_witness :
  let ops := [OpTrack 1000; OpCheck 13000; OpTrack 14000; OpCheck 26000;
              OpTrack 27000; OpCheck 39000; OpTrack 40000; OpCheck 52000;
              OpTrack 53000; OpCheck 65000] in
  let evs := snd (run (resetActivityTracking 500 initial) ops) in
  length evs = 3%nat
  /\ Z.of_nat (length evs) <= MAX_STALL_NOTIFICATIONS
  /\ MAX_STALL_NOTIFICATIONS = 3
  /\ forallb isStepRequest evs = true.
Proof.
  split; [vm_compute; reflexivity|].
  apply (checkForStall_at_most_three 500 initial). reflexivity.
Defined.

(** *** The invariant of the activity record *)

Lemma trackActivity_inv now b :
  activityInv (activity b) -> activityInv (activity (trackActivity now b)).
Proof.
  unfold activityInv, trackActivity. intros Hinv.
  destruct (Z.eqb_spec (promptSentAt (activity b)) 0) as [Hz|Hnz]; [exact Hinv|].
  simpl. destruct (hadActivity (activity b)); simpl;
    destruct (stallNotified (activity b)); simpl; intros Hn; try discriminate.
Qed.

Lemma checkForStall_inv now b :
  activityInv (activity b) -> activityInv (activity (fst (checkForStall now b))).
Proof.
  unfold activityInv, checkForStall.
  destruct (Z.eqb_spec (promptSentAt (activity b)) 0) as [Hz|Hnz]; [auto|].
  destruct (hadActivity (activity b)) eqn:Hhad; simpl;
    [|rewrite Hhad; auto].
  destruct (stallNotified (activity b)) eqn:Hsn; simpl;
    [rewrite Hhad, Hsn; auto|].
  destruct (stallNotifyCount (activity b) >=? MAX_STALL_NOTIFICATIONS); simpl;
    [rewrite Hhad, Hsn; auto|].
  destruct (now - lastActivityAt (activity b) >=? STALL_THRESHOLD_MS); simpl.
  - intros _ _. split; [reflexivity | exact Hnz].
  - rewrite Hhad, Hsn. auto.
Qed.

Lemma step_inv b op :
  activityInv (activity b) -> activityInv (activity (fst (step b op))).
Proof.
  destruct op as [now|now|now|]; simpl.
  - apply trackActivity_inv.
  - apply checkForStall_inv.
  - intros _ Hn. discriminate Hn.
  - intros _ Hn. discriminate Hn.
Qed.

Lemma run_inv ops : forall b,
  activityInv (activity b) -> activityInv (activity (fst (run b ops))).
Proof.
  induction ops as [|op ops IH]; intros b Hinv; simpl; [exact Hinv|].
  pose proof (step_inv b op Hinv) as H1.
  destruct (step b op) as [b1 e1]. specialize (IH b1 H1).
  destruct (run b1 ops) as [b2 e2]. exact IH.
Qed.

(** C8. After any sequence of [trackActivity], [checkForStall],
    [resetActivityTracking] and [clearActivityTracking] calls from the
    initial state, [stallNotified] is true only if [hadActivity] is true and
    [promptSentAt] is not 0; and [clearActivityTracking] leaves the all-zero
    record. *)
Theorem activity_invariant_holds (ops : list Op) :
  activityInv (activity (fst (run initial ops)))
  /\ (forall b, activity (clearActivityTracking b) = zeroActivity)
  /\ zeroActivity = {| promptSentAt := 0; hadActivity := false; lastActivityAt := 0;
                       stallNotified := false; stallNotifyCount := 0 |}.
Proof.
  split; [|split; reflexivity].
  apply run_inv. intros Hn. discriminate Hn.
Qed.

(** *** The context-flag poller *)

Lemma pollTicks_app b t1 t2 :
  pollTicks b (t1 ++ t2) =
  let '(b1, evs1) := pollTicks b t1 in
  let '(b2, evs2) := pollTicks b1 t2 in
  (b2, evs1 ++ evs2).
Proof.
  revert b. induction t1 as [|[now rd] t1 IH]; intros b; cbn [pollTicks app].
  - destruct (pollTicks b t2); reflexivity.
  - destruct (pollContextKeys now rd b) as [b1 e1]. rewrite IH.
    destruct (pollTicks b1 t1) as [b2 e2]. destruct (pollTicks b2 t2) as [b3 e3].
    now rewrite app_assoc.
Qed.

(** A tick that reads the aggregate false: no event, and the poller is
    re-armed. *)
Lemma poll_false now rd b :
  aggregate (now, rd) = false ->
  pollerInv b ->
  let r := pollContextKeys now rd b in
  snd r = [] /\ prevContextKeyState (fst r) = false
  /\ contextNotifiedForThisPrompt (fst r) = false.
Proof.
  unfold aggregate, pollerInv, pollContextKeys. cbn [fst snd]. intros Hagg Hinv.
  rewrite Hagg. cbn.
  destruct (prevContextKeyState b); cbn; [tauto|].
  destruct (contextNotifiedForThisPrompt b); [|tauto].
  specialize (Hinv eq_refl). discriminate.
Qed.

(** A tick that reads the aggregate true while armed: the one event. *)
Lemma poll_rising now rd b :
  aggregate (now, rd) = true ->
  prevContextKeyState b = false ->
  contextNotifiedForThisPrompt b = false ->
  let r := pollContextKeys now rd b in
  snd r = [waitingEvent now] /\ prevContextKeyState (fst r) = true
  /\ contextNotifiedForThisPrompt (fst r) = true.
Proof.
  unfold aggregate, pollContextKeys. cbn [fst snd]. intros Hagg Hprev Hnot.
  rewrite Hagg, Hprev, Hnot. cbn. tauto.
Qed.

(** A tick that reads the aggregate true while it was already true:
    nothing happens. *)
Lemma poll_held now rd b :
  aggregate (now, rd) = true ->
  prevContextKeyState b = true ->
  let r := pollContextKeys now rd b in
  snd r = [] /\ prevContextKeyState (fst r) = true
  /\ contextNotifiedForThisPrompt (fst r) = contextNotifiedForThisPrompt b.
Proof.
  unfold aggregate, pollContextKeys. cbn [fst snd]. intros Hagg Hprev.
  rewrite Hagg, Hprev. cbn. tauto.
Qed.

Lemma pollTicks_false ticks : forall b,
  ticks <> [] ->
  Forall (fun t => aggregate t = false) ticks ->
  pollerInv b ->
  let r := pollTicks b ticks in
  snd r = [] /\ prevContextKeyState (fst r) = false
  /\ contextNotifiedForThisPrompt (fst r) = false.
Proof.
  induction ticks as [|[now rd] ticks IH]; intros b Hne Hall Hinv; [congruence|].
  inversion Hall as [|? ? Hhd Htl]; subst. cbn [pollTicks].
  destruct (poll_false now rd b Hhd Hinv) as (He & Hp & Hn).
  destruct (pollContextKeys now rd b) as [b1 e1]. cbn [fst snd] in *. subst e1.
  destruct ticks as [|t ticks'].
  - cbn. tauto.
  - assert (Hinv1 : pollerInv b1) by (intros H; congruence).
    specialize (IH b1 ltac:(discriminate) Htl Hinv1).
    destruct (pollTicks b1 (t :: ticks')) as [b2 e2]. cbn [fst snd app] in *.
    exact IH.
Qed.

Lemma pollTicks_held ticks : forall b,
  Forall (fun t => aggregate t = true) ticks ->
  prevContextKeyState b = true ->
  let r := pollTicks b ticks in
  snd r = [] /\ prevContextKeyState (fst r) = true
  /\ contextNotifiedForThisPrompt (fst r) = contextNotifiedForThisPrompt b.
Proof.
  induction ticks as [|[now rd] ticks IH]; intros b Hall Hprev;
    cbn [pollTicks fst snd]; [tauto|].
  inversion Hall as [|? ? Hhd Htl]; subst.
  destruct (poll_held now rd b Hhd Hprev) as (He & Hp & Hn).
  destruct (pollContextKeys now rd b) as [b1 e1]. cbn [fst snd] in *. subst e1.
  specialize (IH b1 Htl Hp).
  destruct (pollTicks b1 ticks) as [b2 e2]. cbn [fst snd app] in *.
  destruct IH as (-> & -> & ->). tauto.
Qed.

(** A run of true ticks met while armed: one event, at its first tick. *)
Lemma pollTicks_true now rd ticks b :
  Forall (fun t => aggregate t = true) ((now, rd) :: ticks) ->
  prevContextKeyState b = false ->
  contextNotifiedForThisPrompt b = false ->
  let r := pollTicks b ((now, rd) :: ticks) in
  snd r = [waitingEvent now] /\ prevContextKeyState (fst r) = true
  /\ contextNotifiedForThisPrompt (fst r) = true.
Proof.
  intros Hall Hprev Hnot. inversion Hall as [|? ? Hhd Htl]; subst.
  cbn [pollTicks].
  destruct (poll_rising now rd b Hhd Hprev Hnot) as (He & Hp & Hn).
  destruct (pollContextKeys now rd b) as [b1 e1]. cbn [fst snd] in *. subst e1.
  pose proof (pollTicks_held ticks b1 Htl Hp) as Hh.
  destruct (pollTicks b1 ticks) as [b2 e2]. cbn [fst snd app] in *.
  destruct Hh as (-> & -> & ->). tauto.
Qed.

(** The poller invariant holds initially and is kept by every tick and
    by every call of the activity tracker. *)
Lemma pollerInv_preserved :
  pollerInv initial
  /\ (forall now rd b, pollerInv b -> pollerInv (fst (pollContextKeys now rd b)))
  /\ (forall b op, pollerInv b -> pollerInv (fst (step b op))).
Proof.
  split; [intros H; discriminate H|]. split.
  - intros now rd b Hinv. unfold pollerInv, pollContextKeys in *. cbn [fst].
    cbn [prevContextKeyState contextNotifiedForThisPrompt].
    destruct (anyActiveOf rd CONTEXT_KEYS_TO_POLL); [reflexivity|]. cbn.
    destruct (prevContextKeyState b); cbn; [discriminate|]. exact Hinv.
  - intros b [now|now|now|] Hinv; cbn [step fst].
    + unfold pollerInv, trackActivity in *.
      destruct (promptSentAt (activity b) =? 0); exact Hinv.
    + unfold pollerInv, checkForStall in *.
      repeat match goal with |- context [if ?c then _ else _] => destruct c end;
        exact Hinv.
    + intros H; discriminate H.
    + intros H; discriminate H.
Qed.

(** The flag of the episode is set by the tick that emits, and a tick
    clears it only when the aggregate has gone from true to false. *)
Lemma poll_flag_set_and_cleared now rd b :
  (snd (pollContextKeys now rd b) <> [] ->
   contextNotifiedForThisPrompt (fst (pollContextKeys now rd b)) = true)
  /\ (contextNotifiedForThisPrompt b = true ->
      contextNotifiedForThisPrompt (fst (pollContextKeys now rd b)) = false ->
      aggregate (now, rd) = false /\ prevContextKeyState b = true).
Proof.
  unfold aggregate, pollContextKeys. cbn [fst snd contextNotifiedForThisPrompt].
  destruct (anyActiveOf rd CONTEXT_KEYS_TO_POLL),
           (prevContextKeyState b), (contextNotifiedForThisPrompt b);
    cbn; intuition congruence.
Qed.

(** C3. Poll ticks whose aggregate reads false, then true, then false,
    then true (each phase lasting one tick or more) emit exactly two
    [step_request] events, one at the first tick of each true phase and none
    while the aggregate is held true; the start is any state in which an
    episode is marked notified only while the aggregate was last true. The
    tick that emits sets the flag of the episode, and a tick clears a set
    flag only when the aggregate has gone from true to false. *)
Theorem context_flag_two_edges (b : State)
  (lows1 highs1 lows2 highs2 : list (Z * ContextReader))
  (t1 t2 : Z) (rd1 rd2 : ContextReader) :
  pollerInv b ->
  lows1 <> [] -> lows2 <> [] ->
  Forall (fun t => aggregate t = false) lows1 ->
  Forall (fun t => aggregate t = true) ((t1, rd1) :: highs1) ->
  Forall (fun t => aggregate t = false) lows2 ->
  Forall (fun t => aggregate t = true) ((t2, rd2) :: highs2) ->
  (snd (pollTicks b (lows1 ++ ((t1, rd1) :: highs1) ++ lows2 ++ ((t2, rd2) :: highs2)))
   = [waitingEvent t1; waitingEvent t2]
   /\ type (waitingEvent t1) = step_request
   /\ type (waitingEvent t2) = step_request)
  /\ (forall now rd b0,
        snd (pollContextKeys now rd b0) <> [] ->
        contextNotifiedForThisPrompt (fst (pollContextKeys now rd b0)) = true)
  /\ (forall now rd b0,
        contextNotifiedForThisPrompt b0 = true ->
        contextNotifiedForThisPrompt (fst (pollContextKeys now rd b0)) = false ->
        aggregate (now, rd) = false /\ prevContextKeyState b0 = true).
Proof.
  intros Hinv Hne1 Hne2 Hl1 Hh1 Hl2 Hh2.
  split; [|split; intros now rd b0; apply poll_flag_set_and_cleared].
  split; [|split; reflexivity].
  rewrite pollTicks_app.
  destruct (pollTicks_false lows1 b Hne1 Hl1 Hinv) as (Ha & Hpa & Hna).
  destruct (pollTicks b lows1) as [ba ea]. cbn [fst snd] in Ha, Hpa, Hna. subst ea.
  rewrite pollTicks_app.
  destruct (pollTicks_true t1 rd1 highs1 ba Hh1 Hpa Hna) as (Hb & Hpb & Hnb).
  destruct (pollTicks ba ((t1, rd1) :: highs1)) as [bb eb].
  cbn [fst snd] in Hb, Hpb, Hnb. subst eb.
  rewrite pollTicks_app.
  assert (Hinvb : pollerInv bb) by (intros _; exact Hpb).
  destruct (pollTicks_false lows2 bb Hne2 Hl2 Hinvb) as (Hc & Hpc & Hnc).
  destruct (pollTicks bb lows2) as [bc ec]. cbn [fst snd] in Hc, Hpc, Hnc. subst ec.
  destruct (pollTicks_true t2 rd2 highs2 bc Hh2 Hpc Hnc) as (Hd & _ & _).
  destruct (pollTicks bc ((t2, rd2) :: highs2)) as [bd ed].
  cbn [fst snd] in Hd. subst ed. reflexivity.
Qed.

(** From the initial state: one tick false, two true, two false, one
    true; the reads of a tick may be rejected or not be booleans. *)
Lemma context_flag_two_edges_witness :
  snd (pollTicks initial
         ([(0, allFalse)] ++ ((2000, secondTrue) :: [(4000, thirdTrue)])
          ++ [(6000, allFalse); (8000, allFalse)] ++ ((10000, thirdTrue) :: [])))
  = [waitingEvent 2000; waitingEvent 10000]
  /\ type (waitingEvent 2000) = step_request
  /\ type (waitingEvent 10000) = step_request.
Proof.
  apply (proj1 (context_flag_two_edges initial
                  [(0, allFalse)] [(4000, thirdTrue)]
                  [(6000, allFalse); (8000, allFalse)] []
                  2000 10000 secondTrue thirdTrue
                  ltac:(intros H; discriminate H)
                  ltac:(discriminate) ltac:(discriminate)
                  ltac:(repeat constructor) ltac:(repeat constructor)
                  ltac:(repeat constructor) ltac:(repeat constructor))).
Defined.

End BridgeFacts.

(** ** Properties of the listener dispatch *)

Module DispatchFacts.
Import Dispatch Props.

Section Generic.
Context {W E : Type}.
Implicit Types (code : Behaviour W E) (h : Host W).

(** A loop that has ended ends the same way with more fuel. *)
Lemma iterate_more_fuel prefix code ev fuel : forall index h extra,
  iterate prefix code ev fuel index h <> OutOfFuel ->
  iterate prefix code ev (fuel + extra) index h = iterate prefix code ev fuel index h.
Proof.
  induction fuel as [|f IH]; intros index h extra Hend; [now destruct Hend|].
  cbn [iterate Nat.add] in *.
  destruct (listeners h !! index) as [l|]; [|reflexivity].
  destruct (throws (code l ev (world h))) as [[text|error]|];
    [now apply IH|reflexivity|now apply IH].
Qed.

(** On settled listeners the loop calls each listener from the index on
    once, in array order, and returns with the array as it was. *)
Lemma iterate_settled prefix code ev ls :
  settled code ev ls ->
  forall rest called w out,
    ls = called ++ rest ->
    iterate prefix code ev (S (length rest)) (length called)
      {| world := w; listeners := ls; output := out |}
    = Returned {| world := fst (deliver_all prefix code ev rest w out);
                  listeners := ls;
                  output := snd (deliver_all prefix code ev rest w out) |}.
Proof.
  intros Hset. induction rest as [|l rest IH]; intros called w out Hls.
  - cbn [iterate length listeners deliver_all fst snd].
    rewrite lookup_ge_None_2; [reflexivity|].
    rewrite Hls, app_nil_r. cbn. lia.
  - cbn [length]. remember (S (length rest)) as g eqn:Hg.
    cbn [iterate listeners world output].
    assert (Hl : ls !! length called = Some l).
    { rewrite Hls. apply list_lookup_middle. reflexivity. }
    rewrite Hl.
    destruct (Hset l w) as [Hcalls Hprint].
    { rewrite Hls. apply in_or_app. right. now left. }
    rewrite Hcalls. cbn [fold_left deliver_all].
    assert (Hnext : ls = (called ++ [l]) ++ rest) by now rewrite <- app_assoc.
    specialize (IH (called ++ [l])). rewrite length_app in IH. cbn [length] in IH.
    replace (length called + 1)%nat with (S (length called)) in IH by lia.
    unfold error_line. subst g.
    destruct (throws (code l ev w)) as [[text|error]|] eqn:Hthrow.
    + now rewrite IH.
    + now destruct (Hprint error).
    + rewrite app_nil_r. now rewrite IH.
Qed.

(** Where the listeners are settled, [emit] does what is expected of it:
    with fuel for one turn more than there are listeners it returns, every
    listener was called once, in registration order, and a listener that
    threw has cost one line in the channel and nothing else. *)
Lemma emit_settled_listeners prefix code ev ls w out extra :
  settled code ev ls ->
  emit prefix code (S (length ls) + extra) ev
    {| world := w; listeners := ls; output := out |}
  = Returned {| world := fst (deliver_all prefix code ev ls w out);
                listeners := ls;
                output := snd (deliver_all prefix code ev ls w out) |}.
Proof.
  intros Hset. unfold emit.
  pose proof (iterate_settled prefix code ev ls Hset ls [] w out eq_refl) as Hrun.
  cbn [length] in Hrun. rewrite iterate_more_fuel; [exact Hrun|].
  rewrite Hrun. discriminate.
Qed.

End Generic.


(** The bot's way of listening: listeners that only buffer are settled,
    and then each of three listeners receives the event. *)
Example emit_three_logging_listeners :
  let ev := {| Bridge.type := Bridge.info; Bridge.content := "x";
               Bridge.timestamp := 7 |} in
  Bridge.emit logging 4 ev {| world := []; listeners := [0; 1; 2]%nat; output := [] |}
  = Returned {| world := [0; 1; 2]%nat; listeners := [0; 1; 2]%nat; output := [] |}.
Proof.
  intros ev.
  apply (emit_settled_listeners "[Bridge]" logging ev [0; 1; 2]%nat [] [] 0).
  intros l w _. split; [reflexivity|discriminate].
Qed.

End DispatchFacts.

(** ** Properties of the trajectory monitor *)

Module MonitorFacts.
Import LS Monitor.

(** *** The echo suppressor *)

Lemma indexOf_None x l : ~ In x l -> indexOf x l = None.
Proof.
  induction l as [|y l IH]; intros Hnin; [reflexivity|]. cbn [indexOf].
  destruct (String.eqb_spec y x) as [->|Hne].
  - exfalso. apply Hnin. now left.
  - rewrite IH; [reflexivity|]. intros Hin. apply Hnin. now right.
Qed.

(** [indexOf] finds the first occurrence. *)
Lemma indexOf_first x l1 l2 :
  ~ In x l1 -> indexOf x (l1 ++ x :: l2) = Some (length l1).
Proof.
  induction l1 as [|y l1 IH]; intros Hnin; cbn [indexOf app length].
  - now rewrite String.eqb_refl.
  - destruct (String.eqb_spec y x) as [->|Hne].
    + exfalso. apply Hnin. now left.
    + rewrite IH; [reflexivity|]. intros Hin. apply Hnin. now right.
Qed.

Lemma delete_middle {A} (l1 l2 : list A) x :
  delete (length l1) (l1 ++ x :: l2) = l1 ++ l2.
Proof. induction l1 as [|y l1 IH]; [reflexivity|]. cbn. now f_equal. Qed.

Lemma markTelegramSent_sentTexts text m :
  sentTexts (markTelegramSent text m) =
  if Z.of_nat (length (sentTexts m ++ [normalize text])) >? MAX_SENT_TEXTS
  then tail (sentTexts m ++ [normalize text])
  else sentTexts m ++ [normalize text].
Proof.
  unfold markTelegramSent.
  destruct (Z.of_nat (length (sentTexts m ++ [normalize text])) >? MAX_SENT_TEXTS);
    reflexivity.
Qed.

Lemma set_sentTexts_same m : set_sentTexts (sentTexts m) m = m.
Proof. destruct m; reflexivity. Qed.

Lemma isTelegramSent_absent text m :
  ~ In (normalize text) (sentTexts m) -> isTelegramSent text m = (false, m).
Proof. intros Hnin. unfold isTelegramSent. now rewrite indexOf_None. Qed.

Lemma isTelegramSent_present text m l1 l2 :
  sentTexts m = l1 ++ normalize text :: l2 ->
  ~ In (normalize text) l1 ->
  isTelegramSent text m = (true, set_sentTexts (l1 ++ l2) m).
Proof.
  intros Hl Hnin. unfold isTelegramSent.
  rewrite Hl, indexOf_first by exact Hnin. now rewrite delete_middle.
Qed.

(** After one record of a text that was not in the log, the first lookup
    finds it and the second does not. *)
Lemma record_then_lookup_twice text m :
  ~ In (normalize text) (sentTexts m) ->
  exists m2, isTelegramSent text (markTelegramSent text m) = (true, m2)
             /\ isTelegramSent text m2 = (false, m2).
Proof.
  intros Hnin.
  assert (Hshape : exists l1, sentTexts (markTelegramSent text m)
                              = l1 ++ normalize text :: []
                              /\ ~ In (normalize text) l1).
  { rewrite markTelegramSent_sentTexts.
    destruct (Z.gtb_spec (Z.of_nat (length (sentTexts m ++ [normalize text])))
                MAX_SENT_TEXTS) as [Hgt|Hngt].
    - destruct (sentTexts m) as [|x r].
      + cbn in Hgt. unfold MAX_SENT_TEXTS in Hgt. lia.
      + exists r. split; [reflexivity|]. intros Hin. apply Hnin. now right.
    - exists (sentTexts m). split; [reflexivity | exact Hnin]. }
  destruct Hshape as (l1 & Hl1 & Hn1).
  exists (set_sentTexts (l1 ++ []) (markTelegramSent text m)). split.
  - now apply isTelegramSent_present.
  - apply isTelegramSent_absent. cbn [sentTexts set_sentTexts].
    rewrite app_nil_r. exact Hn1.
Qed.

(** C5. [markTelegramSent] appends the trimmed, lower-cased text to a log
    that never grows past 5 entries, dropping the oldest entry when it is
    full; [isTelegramSent] removes the first occurrence of the normalized
    text and answers true, or answers false and changes nothing when there
    is none. So a text recorded once, and not in the log before, is found by
    the next lookup and not by the one after it. *)
Theorem echo_suppressed_exactly_once (text : string) (m : State) :
  let n := normalize text in
  let l := sentTexts m in
  n = toLowerCase (trim text)
  /\ MAX_SENT_TEXTS = 5
  /\ ((length l < 5)%nat -> sentTexts (markTelegramSent text m) = l ++ [n])
  /\ (length l = 5%nat -> sentTexts (markTelegramSent text m) = tail l ++ [n])
  /\ ((length l <= 5)%nat -> (length (sentTexts (markTelegramSent text m)) <= 5)%nat)
  /\ (forall l1 l2, l = l1 ++ n :: l2 -> ~ In n l1 ->
        isTelegramSent text m = (true, set_sentTexts (l1 ++ l2) m))
  /\ (~ In n l -> isTelegramSent text m = (false, m))
  /\ (~ In n l ->
        exists m2, isTelegramSent text (markTelegramSent text m) = (true, m2)
                   /\ isTelegramSent text m2 = (false, m2)).
Proof.
  intros n l. subst n l.
  split; [reflexivity|]. split; [reflexivity|].
  split; [|split; [|split; [|split; [|split]]]].
  - intros Hlt. rewrite markTelegramSent_sentTexts, length_app. cbn [length].
    unfold MAX_SENT_TEXTS.
    destruct (Z.gtb_spec (Z.of_nat (length (sentTexts m) + 1)) 5); [lia|reflexivity].
  - intros Heq. rewrite markTelegramSent_sentTexts, length_app. cbn [length].
    unfold MAX_SENT_TEXTS.
    destruct (Z.gtb_spec (Z.of_nat (length (sentTexts m) + 1)) 5); [|lia].
    destruct (sentTexts m); [discriminate|reflexivity].
  - intros Hle. rewrite markTelegramSent_sentTexts. unfold MAX_SENT_TEXTS.
    destruct (Z.gtb_spec (Z.of_nat (length (sentTexts m ++ [normalize text]))) 5)
      as [Hgt|Hngt].
    + rewrite length_app in Hgt. cbn [length] in Hgt.
      destruct (sentTexts m) as [|x r]; cbn [app tail length] in *; [lia|].
      rewrite length_app. cbn [length]. lia.
    + lia.
  - intros l1 l2 Hl Hnin. now apply isTelegramSent_present.
  - apply isTelegramSent_absent.
  - apply record_then_lookup_twice.
Qed.

Lemma echo_suppressed_exactly_once_witness :
  let m := set_sentTexts ["a"; "b"; "c"; "d"; "e"] (initial "") in
  sentTexts (markTelegramSent "  Hello World " m) = ["b"; "c"; "d"; "e"; "hello world"]
  /\ exists m2, isTelegramSent "  Hello World " (markTelegramSent "  Hello World " m)
                = (true, m2)
                /\ isTelegramSent "  Hello World " m2 = (false, m2).
Proof.
  intros m.
  pose proof (echo_suppressed_exactly_once "  Hello World " m)
    as (_ & _ & _ & Hfull & _ & _ & _ & Honce).
  split.
  - apply Hfull. reflexivity.
  - apply Honce. vm_compute. intuition discriminate.
Defined.

Lemma handleUserInput_userStep now text m :
  String.eqb text "" = false ->
  test_ci AUTO_APPROVE_PATTERN text = false ->
  processStep now (Props.userStep text) m =
  let '(sent, m') := isTelegramSent text m in
  if sent then (m', []) else (m', [mkEvent gui_message (JStr text) now]).
Proof.
  intros Hne Hauto. unfold processStep.
  change (type (Props.userStep text)) with "CORTEX_STEP_TYPE_USER_INPUT".
  rewrite String.eqb_refl. unfold handleUserInput.
  change (userInput (Props.userStep text)) with (Some {| userResponse := Some text |}).
  cbn [userResponse from_option id]. now rewrite Hne, Hauto.
Qed.

(** Two steps with the same text after one record: the first is taken for
    the echo, the second is reported. *)
Lemma gui_echo_suppressed_once now text m :
  String.eqb text "" = false ->
  test_ci AUTO_APPROVE_PATTERN text = false ->
  ~ In (normalize text) (sentTexts m) ->
  snd (processNewSteps now [Props.userStep text; Props.userStep text]
         (markTelegramSent text m))
  = [mkEvent gui_message (JStr text) now].
Proof.
  intros Hne Hauto Hnin.
  destruct (record_then_lookup_twice text m Hnin) as (m2 & H1 & H2).
  cbn [processNewSteps].
  rewrite (handleUserInput_userStep now text _ Hne Hauto), H1.
  rewrite (handleUserInput_userStep now text _ Hne Hauto), H2.
  reflexivity.
Qed.

(** *** Accept and reject *)

Lemma scanWaiting_none accept c m offset l :
  Forall (fun p => Props.notWaiting (snd p)) l ->
  scanWaiting accept c m offset l = refused m.
Proof.
  induction 1 as [|[i s] l Hs _ IH]; [reflexivity|].
  cbn [scanWaiting]. unfold Props.notWaiting in Hs. cbn [snd] in Hs.
  now rewrite Hs.
Qed.

(** Whatever the loop meets, a false answer leaves the monitor as it was. *)
Lemma scanWaiting_false accept c m offset l :
  accepted (scanWaiting accept c m offset l) = false ->
  after (scanWaiting accept c m offset l) = m.
Proof.
  induction l as [|[i s] l IH]; [reflexivity|]. cbn [scanWaiting].
  destruct (isWaitingStatus (step_status s)); cbn [negb]; [|exact IH].
  destruct (buildInteraction m s (offset + Z.of_nat i) accept); [|exact IH].
  destruct (handleUserInteraction c (activeCascadeId m) j) as [[|]|e];
    cbn [accepted after]; [discriminate|reflexivity|reflexivity].
Qed.

Lemma indexed_notWaiting (steps : list TrajectoryStep) :
  Forall Props.notWaiting steps ->
  Forall (fun p => Props.notWaiting (snd p)) (rev (imap (fun i s => (i, s)) steps)).
Proof.
  intros Hall. apply Forall_forall. intros [i s] Hin.
  apply list_elem_of_In in Hin. rewrite <- in_rev in Hin.
  apply list_elem_of_In, elem_of_lookup_imap in Hin.
  destruct Hin as (j & y & Heq & Hlk). injection Heq as -> ->. cbn [snd].
  rewrite Forall_forall in Hall. apply Hall.
  eapply list_elem_of_lookup_2. exact Hlk.
Qed.

Lemma acceptWaitingStep_false accept c m :
  accepted (acceptWaitingStep accept c m) = false ->
  after (acceptWaitingStep accept c m) = m.
Proof.
  unfold acceptWaitingStep.
  destruct (String.eqb (activeCascadeId m) "" || String.eqb (activeTrajectoryId m) "");
    [reflexivity|].
  destruct (getAllTrajectories (isDiscovered c) c) as [[summaries|]|e]; try reflexivity.
  destruct (lookupSummary (activeCascadeId m) summaries) as [summary|]; [|reflexivity].
  destruct (stepCount summary =? 0); [reflexivity|].
  destruct (getTrajectorySteps _ c _ _) as [steps|e]; [|reflexivity].
  apply scanWaiting_false.
Qed.

Lemma notWaiting_status s :
  ~ Props.inWaitingStatus s <-> Props.notWaiting s.
Proof.
  unfold Props.inWaitingStatus, Props.notWaiting, isWaitingStatus.
  destruct (step_status s) as [t|n].
  - destruct (String.eqb_spec t "CORTEX_STEP_STATUS_WAITING") as [->|H1];
      [cbn; split; [intros H; exfalso; apply H; now left|discriminate]|].
    destruct (String.eqb_spec t "9") as [->|H2];
      [cbn; split; [intros H; exfalso; apply H; right; now left|discriminate]|].
    cbn. split; [reflexivity|]. intros _ [[= H]|[[= H]|H]]; congruence.
  - destruct (Z.eqb_spec n 9) as [->|Hn].
    + split; [intros H; exfalso; apply H; right; now right|discriminate].
    + split; [reflexivity|]. intros _ [H|[H|[= H]]]; congruence.
Qed.

(** What the loop answers is the answer of the one submission it makes. *)
Lemma scanWaiting_submitted accept c m offset l interaction :
  submitted (scanWaiting accept c m offset l) = Some interaction ->
  accepted (scanWaiting accept c m offset l) = true ->
  handleUserInteraction c (activeCascadeId m) interaction = Resolved true.
Proof.
  induction l as [|[i s] l IH]; [discriminate|]. cbn [scanWaiting].
  destruct (isWaitingStatus (step_status s)); cbn [negb]; [|exact IH].
  destruct (buildInteraction m s (offset + Z.of_nat i) accept) as [j|]; [|exact IH].
  destruct (handleUserInteraction c (activeCascadeId m) j) as [[|]|e] eqn:Hj;
    cbn [accepted submitted]; try discriminate.
  intros [= <-] _. exact Hj.
Qed.

Lemma acceptWaitingStep_submitted accept c m interaction :
  submitted (acceptWaitingStep accept c m) = Some interaction ->
  accepted (acceptWaitingStep accept c m) = true ->
  handleUserInteraction c (activeCascadeId m) interaction = Resolved true.
Proof.
  unfold acceptWaitingStep.
  destruct (String.eqb (activeCascadeId m) "" || String.eqb (activeTrajectoryId m) "");
    [discriminate|].
  destruct (getAllTrajectories (isDiscovered c) c) as [[summaries|]|e]; try discriminate.
  destruct (lookupSummary (activeCascadeId m) summaries) as [summary|]; [|discriminate].
  destruct (stepCount summary =? 0); [discriminate|].
  destruct (getTrajectorySteps _ c _ _) as [steps|e]; [|discriminate].
  apply scanWaiting_submitted.
Qed.

(** A true answer comes from a submission. *)
Lemma scanWaiting_accepted accept c m offset l :
  accepted (scanWaiting accept c m offset l) = true ->
  exists interaction, submitted (scanWaiting accept c m offset l) = Some interaction.
Proof.
  induction l as [|[i s] l IH]; [discriminate|]. cbn [scanWaiting].
  destruct (isWaitingStatus (step_status s)); cbn [negb]; [|exact IH].
  destruct (buildInteraction m s (offset + Z.of_nat i) accept) as [j|]; [|exact IH].
  destruct (handleUserInteraction c (activeCascadeId m) j) as [[|]|e];
    cbn [accepted submitted]; eauto.
Qed.

Lemma acceptWaitingStep_accepted accept c m :
  accepted (acceptWaitingStep accept c m) = true ->
  exists interaction, submitted (acceptWaitingStep accept c m) = Some interaction.
Proof.
  unfold acceptWaitingStep.
  destruct (String.eqb (activeCascadeId m) "" || String.eqb (activeTrajectoryId m) "");
    [discriminate|].
  destruct (getAllTrajectories (isDiscovered c) c) as [[summaries|]|e]; try discriminate.
  destruct (lookupSummary (activeCascadeId m) summaries) as [summary|]; [|discriminate].
  destruct (stepCount summary =? 0); [discriminate|].
  destruct (getTrajectorySteps _ c _ _) as [steps|e]; [|discriminate].
  apply scanWaiting_accepted.
Qed.

(** C7. When the window that [acceptWaitingStep] fetches, the steps from
    offset [max(0, stepCount - 20)] of the active conversation, holds no step
    in the waiting status, whatever the steps before the window are, the
    call returns false, submits nothing and leaves the monitor,
    [notifiedWaitingSteps] included, exactly as it was. When the submission
    it makes does not succeed it returns false and leaves the monitor as it
    was; it returns true only after a submission that succeeded. In general
    a false result means an unchanged monitor. *)
Theorem acceptWaitingStep_failure_keeps_state (accept : bool) (c : Client) (m : State) :
  (forall summaries summary steps,
      getAllTrajectories (isDiscovered c) c = Resolved (Some summaries) ->
      lookupSummary (activeCascadeId m) summaries = Some summary ->
      getTrajectorySteps (isDiscovered c) c (activeCascadeId m)
        (Z.max 0 (stepCount summary - 20)) = Resolved steps ->
      Forall (fun s => ~ Props.inWaitingStatus s) steps ->
      acceptWaitingStep accept c m
      = {| accepted := false; after := m; submitted := None |})
  /\ (forall interaction,
      submitted (acceptWaitingStep accept c m) = Some interaction ->
      handleUserInteraction c (activeCascadeId m) interaction <> Resolved true ->
      accepted (acceptWaitingStep accept c m) = false
      /\ after (acceptWaitingStep accept c m) = m)
  /\ (accepted (acceptWaitingStep accept c m) = true ->
      exists interaction,
        submitted (acceptWaitingStep accept c m) = Some interaction
        /\ handleUserInteraction c (activeCascadeId m) interaction = Resolved true)
  /\ (accepted (acceptWaitingStep accept c m) = false ->
      after (acceptWaitingStep accept c m) = m
      /\ notifiedWaitingSteps (after (acceptWaitingStep accept c m))
         = notifiedWaitingSteps m).
Proof.
  split; [|split; [|split]].
  - intros summaries summary steps Hall Hlook Hfetch Hnone.
    unfold acceptWaitingStep. rewrite Hall, Hlook.
    destruct (String.eqb (activeCascadeId m) "" || String.eqb (activeTrajectoryId m) "");
      [reflexivity|].
    destruct (stepCount summary =? 0); [reflexivity|].
    rewrite Hfetch. apply scanWaiting_none, indexed_notWaiting.
    eapply Forall_impl; [exact Hnone|]. intros s Hs. now apply notWaiting_status.
  - intros interaction Hsub Hfail.
    assert (Hacc : accepted (acceptWaitingStep accept c m) = false).
    { destruct (accepted (acceptWaitingStep accept c m)) eqn:Hacc; [|reflexivity].
      exfalso. apply Hfail. now apply (acceptWaitingStep_submitted accept). }
    split; [exact Hacc|]. now apply acceptWaitingStep_false.
  - intros Hacc. destruct (acceptWaitingStep_accepted _ _ _ Hacc) as [interaction Hsub].
    exists interaction. split; [exact Hsub|].
    now apply (acceptWaitingStep_submitted accept).
  - intros Hacc. rewrite (acceptWaitingStep_false _ _ _ Hacc). split; reflexivity.
Qed.

(** A conversation of 25 steps whose step 2 waits: the window starts at
    offset 5 and holds no waiting step. Then a window whose last step waits
    and a server that refuses the submission. *)
Lemma acceptWaitingStep_failure_keeps_state_witness :
  let m := Props.attached "c1" 25 {[ 2 ]} in
  let summaries := [("c1", Props.summaryOf 25 10 "CASCADE_RUN_STATUS_IDLE" [])] in
  let older : LS.Client :=
    {| isDiscovered := true; discover := true;
       api_GetAllCascadeTrajectories :=
         Resolved (Some {| trajectorySummaries := Some summaries |});
       api_GetCascadeTrajectorySteps := fun _ offset =>
         if offset =? 5
         then Resolved (Some {| steps := Some [Props.userStep "hi";
                  Props.commandStep "ls" (StatusStr "CORTEX_STEP_STATUS_DONE")] |})
         else Resolved (Some {| steps := Some [Props.userStep "hi"; Props.userStep "go";
                  Props.commandStep "rm" (StatusNum 9)] |});
       handleUserInteraction := fun _ _ => Resolved true |} in
  let failing := Props.clientOf summaries
                 (Resolved (Some {| steps := Some [Props.userStep "hi";
                        Props.commandStep "ls" (StatusNum 9)] |}))
                 (Resolved false) in
  acceptWaitingStep true older m = {| accepted := false; after := m; submitted := None |}
  /\ is_Some (submitted (acceptWaitingStep true failing m))
  /\ accepted (acceptWaitingStep true failing m) = false
  /\ after (acceptWaitingStep true failing m) = m.
Proof.
  intros m summaries older failing. split; [|split].
  - eapply (proj1 (acceptWaitingStep_failure_keeps_state true older m));
      [reflexivity|reflexivity|reflexivity|].
    repeat constructor; intros [H|[H|H]]; discriminate H.
  - vm_compute. eexists. reflexivity.
  - eapply (proj1 (proj2 (acceptWaitingStep_failure_keeps_state true failing m))).
    + cbv. reflexivity.
    + discriminate.
Defined.

(** *** The active cascade *)

Lemma head_insertBy {A} (cmp : A -> A -> Z) x l :
  head (insertBy cmp x l) =
  match l with
  | [] => Some x
  | y :: _ => if cmp x y <=? 0 then Some x else Some y
  end.
Proof. destruct l as [|y l]; cbn; [reflexivity|]. now destruct (cmp x y <=? 0). Qed.

(** The head of the sorted array is an entry modified last. *)
Lemma head_sortBy_latest (l : TrajectorySummaryMap) :
  l <> [] ->
  exists e, head (sortBy byLastModifiedDesc l) = Some e
            /\ In e l
            /\ forall e', In e' l -> Props.modified e' <= Props.modified e.
Proof.
  induction l as [|x r IH]; intros Hne; [congruence|].
  unfold sortBy. cbn [foldr]. fold (sortBy byLastModifiedDesc r).
  rewrite head_insertBy.
  destruct r as [|y r'].
  - exists x. cbn. split; [reflexivity|]. split; [now left|].
    intros e' [<-|[]]. lia.
  - destruct (IH ltac:(discriminate)) as (e & Hhd & Hin & Hmax).
    destruct (sortBy byLastModifiedDesc (y :: r')) as [|z zs]; [discriminate|].
    cbn in Hhd. injection Hhd as ->.
    unfold byLastModifiedDesc at 1.
    destruct (Z.leb_spec (lastModifiedTime (snd e) - lastModifiedTime (snd x)) 0)
      as [Hle|Hgt].
    + exists x. split; [reflexivity|]. split; [now left|].
      intros e' [<-|Hin']; [lia|]. specialize (Hmax e' Hin').
      unfold Props.modified in *. lia.
    + exists e. split; [reflexivity|]. split; [now right|].
      intros e' [<-|Hin']; [unfold Props.modified; lia|]. now apply Hmax.
Qed.

Lemma length_pos_nonempty {A} (l : list A) :
  (Z.of_nat (length l) >? 0) = negb (Z.of_nat (length l) =? 0).
Proof. destruct l; reflexivity. Qed.

Lemma inWorkspace_lists ws e :
  inWorkspace ws e = true <-> Props.listsWorkspace ws e.
Proof.
  unfold inWorkspace, Props.listsWorkspace.
  destruct (workspaces (snd e)) as [folders|].
  - rewrite existsb_exists. split.
    + intros (w & Hin & Heq). apply String.eqb_eq in Heq. subst w. eauto.
    + intros (l & [= <-] & Hin). exists ws. split; [exact Hin|apply String.eqb_refl].
  - split; [discriminate|]. intros (l & H & _). discriminate H.
Qed.

Lemma isRunning_running e : isRunning e = true <-> Props.running e.
Proof. unfold isRunning, Props.running. apply String.eqb_eq. Qed.

Lemma filter_nil_none {A} (f : A -> bool) (l : list A) :
  List.filter f l = [] <-> forall x, In x l -> f x = false.
Proof.
  split.
  - intros Hnil x Hin. destruct (f x) eqn:Hfx; [|reflexivity].
    assert (Hx : In x (List.filter f l)) by (apply filter_In; now split).
    rewrite Hnil in Hx. destruct Hx.
  - intros Hall. induction l as [|y l IH]; [reflexivity|]. cbn [List.filter].
    rewrite (Hall y (or_introl eq_refl)). apply IH.
    intros x Hin. apply Hall. now right.
Qed.

(** C4. On a non-empty summary map [findActiveCascade] returns an entry
    of the map, chosen in this order: (a) when a workspace is open and some
    summaries have it in their workspace set, one of those, modified last
    among them; else (b) a summary whose status is running, when there is
    one; else (c) a summary modified last among all. In particular, without
    a workspace match, a single running entry is chosen whatever the
    modification times of the others. *)
Theorem findActiveCascade_priority (ws : string) (summaries : TrajectorySummaryMap) :
  summaries <> [] ->
  let matches := fun e => In e summaries /\ Props.listsWorkspace ws e in
  (exists e, findActiveCascade ws summaries = Some e /\ In e summaries)
  /\ (ws <> "" -> (exists e, matches e) ->
      exists e, findActiveCascade ws summaries = Some e
                /\ matches e
                /\ forall e', matches e' -> Props.modified e' <= Props.modified e)
  /\ (ws = "" \/ (forall e, ~ matches e) ->
      (exists r, In r summaries /\ Props.running r) ->
      exists e, findActiveCascade ws summaries = Some e
                /\ In e summaries /\ Props.running e)
  /\ (ws = "" \/ (forall e, ~ matches e) ->
      (forall r, In r summaries -> ~ Props.running r) ->
      exists e, findActiveCascade ws summaries = Some e
                /\ In e summaries
                /\ forall e', In e' summaries -> Props.modified e' <= Props.modified e)
  /\ (forall r, (forall e, ~ matches e) -> In r summaries -> Props.running r ->
      (forall r', In r' summaries -> Props.running r' -> r' = r) ->
      findActiveCascade ws summaries = Some r).
Proof.
  intros Hne matches.
  set (matching := List.filter (inWorkspace ws) summaries).
  assert (Hmatch : forall e, matches e <-> In e matching).
  { intros e. unfold matches, matching. rewrite filter_In, inWorkspace_lists. tauto. }
  assert (Hnomatch : (forall e, ~ matches e) -> matching = []).
  { intros Hno. apply filter_nil_none. intros x Hin.
    destruct (inWorkspace ws x) eqn:Hx; [|reflexivity].
    exfalso. apply (Hno x). split; [exact Hin|]. now apply inWorkspace_lists. }
  assert (Hlen : (Z.of_nat (length summaries) =? 0) = false).
  { destruct summaries; [congruence|reflexivity]. }
  (* what the code does once (a) does not apply *)
  assert (Hrest : ws = "" \/ (forall e, ~ matches e) ->
            findActiveCascade ws summaries =
            match List.find isRunning summaries with
            | Some running => Some running
            | None => head (sortBy byLastModifiedDesc summaries)
            end).
  { intros Hno. unfold findActiveCascade. rewrite Hlen.
    destruct Hno as [->|Hm]; [reflexivity|].
    fold matching. rewrite (Hnomatch Hm). now destruct (negb (String.eqb ws "")). }
  assert (Ha : ws <> "" -> (exists e, matches e) ->
            exists e, findActiveCascade ws summaries = Some e
                      /\ matches e
                      /\ forall e', matches e' ->
                                    Props.modified e' <= Props.modified e).
  { intros Hws (e0 & He0). apply Hmatch in He0.
    unfold findActiveCascade. rewrite Hlen.
    destruct (String.eqb_spec ws "") as [|_]; [congruence|]. cbn [negb].
    fold matching. rewrite length_pos_nonempty.
    destruct matching as [|x r] eqn:Hm; [destruct He0|].
    cbn [length negb]. replace (Z.of_nat (S (length r)) =? 0) with false
      by (symmetry; apply Z.eqb_neq; lia).
    cbn [negb].
    destruct (head_sortBy_latest (x :: r) ltac:(discriminate)) as (e & Hhd & Hin & Hmax).
    exists e. split; [exact Hhd|]. split; [now apply Hmatch|].
    intros e' He'. apply Hmax. now apply Hmatch. }
  assert (Hb : ws = "" \/ (forall e, ~ matches e) ->
            (exists r, In r summaries /\ Props.running r) ->
            exists e, findActiveCascade ws summaries = Some e
                      /\ In e summaries /\ Props.running e).
  { intros Hno (r & Hin & Hrun). rewrite (Hrest Hno).
    destruct (List.find isRunning summaries) as [e|] eqn:Hfind.
    - exists e. apply find_some in Hfind. rewrite isRunning_running in Hfind. tauto.
    - pose proof (find_none _ _ Hfind r Hin) as Hf.
      apply isRunning_running in Hrun. congruence. }
  assert (Hc : ws = "" \/ (forall e, ~ matches e) ->
            (forall r, In r summaries -> ~ Props.running r) ->
            exists e, findActiveCascade ws summaries = Some e
                      /\ In e summaries
                      /\ forall e', In e' summaries ->
                                    Props.modified e' <= Props.modified e).
  { intros Hno Hnone. rewrite (Hrest Hno).
    destruct (List.find isRunning summaries) as [e|] eqn:Hfind.
    - apply find_some in Hfind. destruct Hfind as [Hin Hrun].
      apply isRunning_running in Hrun. now destruct (Hnone e Hin).
    - now apply head_sortBy_latest. }
  split; [|split; [exact Ha|split; [exact Hb|split; [exact Hc|]]]].
  - assert (Hfall : ws = "" \/ (forall e, ~ matches e) ->
              exists e, findActiveCascade ws summaries = Some e /\ In e summaries).
    { intros Hno. destruct (List.find isRunning summaries) as [e|] eqn:Hfind.
      - destruct (Hb Hno) as (e' & He & Hin & _); [|eauto].
        exists e. apply find_some in Hfind. rewrite isRunning_running in Hfind. tauto.
      - destruct (Hc Hno) as (e' & He & Hin & _); [|eauto].
        intros r Hin Hrun. apply isRunning_running in Hrun.
        pose proof (find_none _ _ Hfind r Hin). congruence. }
    destruct (String.eqb_spec ws "") as [Hws|Hws]; [now apply Hfall; left|].
    destruct matching as [|x r] eqn:Hm.
    + apply Hfall. right. intros e He. apply Hmatch in He. destruct He.
    + destruct (Ha Hws) as (e & He & [Hin _] & _); [|eauto].
      exists x. apply Hmatch. now left.
  - intros r Hm Hin Hrun Huniq.
    destruct (Hb (or_intror Hm)) as (e & He & Hine & Hrune); [eauto|].
    rewrite He. f_equal. now apply Huniq.
Qed.

(** Two summaries list the open workspace and a third, modified after
    both, is running elsewhere: the later of the two is chosen. With no
    summary listing the workspace the running one is chosen, though an idle
    one was modified last. *)
Lemma findActiveCascade_priority_witness :
  let here :=
    [ ("c-run", Props.summaryOf 7 900 "CASCADE_RUN_STATUS_RUNNING" ["file:///other"]);
      ("c-w1", Props.summaryOf 4 100 "CASCADE_RUN_STATUS_IDLE" ["file:///w"]);
      ("c-w2", Props.summaryOf 5 200 "CASCADE_RUN_STATUS_IDLE"
                 ["file:///other"; "file:///w"]) ] in
  let elsewhere :=
    [ ("c-old", Props.summaryOf 4 100 "CASCADE_RUN_STATUS_IDLE" ["file:///other"]);
      ("c-run", Props.summaryOf 7 200 "CASCADE_RUN_STATUS_RUNNING" []);
      ("c-new", Props.summaryOf 9 900 "CASCADE_RUN_STATUS_IDLE" ["file:///other"]) ] in
  (exists e, findActiveCascade "file:///w" here = Some e
             /\ e = ("c-w2", Props.summaryOf 5 200 "CASCADE_RUN_STATUS_IDLE"
                               ["file:///other"; "file:///w"])
             /\ Props.listsWorkspace "file:///w" e)
  /\ findActiveCascade "file:///w" elsewhere
     = Some ("c-run", Props.summaryOf 7 200 "CASCADE_RUN_STATUS_RUNNING" []).
Proof.
  intros here elsewhere. split.
  - destruct (proj1 (proj2 (findActiveCascade_priority "file:///w" here
                              ltac:(discriminate))))
      as (e & He & [Hin Hws] & Hlatest).
    + discriminate.
    + exists ("c-w1", Props.summaryOf 4 100 "CASCADE_RUN_STATUS_IDLE" ["file:///w"]).
      split; [right; now left|]. eexists. split; [reflexivity|now left].
    + exists e. split; [exact He|]. split; [|exact Hws].
      cbv in He. now injection He as <-.
  - apply (proj2 (proj2 (proj2 (proj2
             (findActiveCascade_priority "file:///w" elsewhere ltac:(discriminate)))))).
    + intros e [Hin (folders & Hf & Hws)]. cbn in Hin.
      destruct Hin as [<-|[<-|[<-|[]]]]; cbn in Hf; injection Hf as <-;
        cbn in Hws; intuition discriminate.
    + cbn. tauto.
    + reflexivity.
    + intros r' Hin Hrun. cbn in Hin. unfold Props.running in Hrun.
      destruct Hin as [<-|[<-|[<-|[]]]];
        [discriminate Hrun|reflexivity|discriminate Hrun].
Defined.

(** *** The notify message *)

Lemma extract_unparseable s :
  JSON_parse s = None -> extractNotifyMessage s = None.
Proof. intros H. unfold extractNotifyMessage. now rewrite H. Qed.

(** On an object the result is the first truthy of [Message], [message]. *)
Lemma extract_object s props :
  JSON_parse s = Some (JObj props) ->
  extractNotifyMessage s =
  match js_or (obj_get "Message" props) (obj_get "message" props) with
  | Some v => if truthy v then Some v else None
  | None => None
  end.
Proof.
  intros H. unfold extractNotifyMessage. rewrite H. cbn [get_prop].
  destruct (obj_get "Message" props) as [v1|]; cbn [js_or].
  - destruct (truthy v1) eqn:Ht1; cbn [js_or].
    + rewrite Ht1. destruct v1; try reflexivity. discriminate.
    + destruct (obj_get "message" props) as [v2|]; cbn [js_or]; [|reflexivity].
      destruct (truthy v2) eqn:Ht2; [|reflexivity].
      destruct v2; try reflexivity. discriminate.
  - destruct (obj_get "message" props) as [v2|]; cbn [js_or]; [|reflexivity].
    destruct (truthy v2) eqn:Ht2; [|reflexivity].
    destruct v2; try reflexivity. discriminate.
Qed.

Lemma extract_lacking s :
  Props.unparseableOrLacking s -> extractNotifyMessage s = None.
Proof.
  unfold Props.unparseableOrLacking. intros H.
  destruct (JSON_parse s) as [v|] eqn:Hp; [|now apply extract_unparseable].
  destruct v; try (unfold extractNotifyMessage; rewrite Hp; reflexivity).
  rewrite (extract_object s props Hp). destruct H as [-> ->]. reflexivity.
Qed.

Lemma firstNotifyMessage_none tcs :
  Forall (fun tc => isNotifyCall tc = true ->
                    extractNotifyMessage (argumentsJson tc) = None) tcs ->
  firstNotifyMessage tcs = None.
Proof.
  induction 1 as [|tc tcs Htc _ IH]; [reflexivity|]. cbn [firstNotifyMessage].
  destruct (isNotifyCall tc); [|exact IH]. now rewrite Htc.
Qed.

Lemma firstNotifyMessage_some tcs msg :
  firstNotifyMessage tcs = Some msg ->
  exists tc, In tc tcs /\ isNotifyCall tc = true
             /\ extractNotifyMessage (argumentsJson tc) = Some msg.
Proof.
  induction tcs as [|tc tcs IH]; [discriminate|]. cbn [firstNotifyMessage].
  destruct (isNotifyCall tc) eqn:Hn.
  - destruct (extractNotifyMessage (argumentsJson tc)) as [v|] eqn:He.
    + intros [= ->]. exists tc. split; [now left|]. now split.
    + intros H. destruct (IH H) as (tc' & Hin & H'). exists tc'. split; [now right|exact H'].
  - intros H. destruct (IH H) as (tc' & Hin & H'). exists tc'. split; [now right|exact H'].
Qed.

Lemma firstNotifyMessage_found tcs1 tc tcs2 msg :
  firstNotifyMessage tcs1 = None ->
  isNotifyCall tc = true ->
  extractNotifyMessage (argumentsJson tc) = Some msg ->
  firstNotifyMessage (tcs1 ++ tc :: tcs2) = Some msg.
Proof.
  intros Hnone Hn He. induction tcs1 as [|x tcs1 IH]; cbn [app firstNotifyMessage].
  - now rewrite Hn, He.
  - cbn [firstNotifyMessage] in Hnone. destruct (isNotifyCall x).
    + destruct (extractNotifyMessage (argumentsJson x)); [discriminate|]. now apply IH.
    + now apply IH.
Qed.

(** C9. A planner-response step whose notify_user tool calls all carry
    arguments that do not parse or lack a [Message]/[message] field is not
    taken as answered by the tool: a direct response text longer than 20
    characters is still emitted as [agent_response], with that text as
    content. When such a text is present and something else is emitted, a
    notify call of the step yielded a message and that message is the
    content. *)
Theorem planner_falls_through_to_response
  (now : Z) (step : TrajectoryStep) (pr : PlannerResponse) (r : string) (m : State) :
  type step = "CORTEX_STEP_TYPE_PLANNER_RESPONSE" ->
  plannerResponse step = Some pr ->
  response pr = Some r ->
  (String.length r > 20)%nat ->
  let direct := {| ev_type := agent_response; content := JStr r; timestamp := now |} in
  (Forall (fun tc => isNotifyCall tc = true ->
                     Props.unparseableOrLacking (argumentsJson tc))
          (default [] (toolCalls pr)) ->
   processStep now step m = (m, [direct]))
  /\ (processStep now step m <> (m, [direct]) ->
      exists tc msg, In tc (default [] (toolCalls pr))
                     /\ isNotifyCall tc = true
                     /\ extractNotifyMessage (argumentsJson tc) = Some msg
                     /\ processStep now step m
                        = (m, [ {| ev_type := agent_response; content := msg;
                                   timestamp := now |} ])).
Proof.
  intros Hty Hpr Hresp Hlen direct.
  assert (Hstep : processStep now step m = (m, handlePlannerResponse now step)).
  { unfold processStep. rewrite Hty. reflexivity. }
  assert (Hdirect : firstNotifyMessage (default [] (toolCalls pr)) = None ->
            handlePlannerResponse now step = [direct]).
  { intros Hnone. unfold handlePlannerResponse. rewrite Hpr, Hnone, Hresp.
    assert (String.eqb r "" = false) as ->.
    { destruct r; [cbn in Hlen; lia|reflexivity]. }
    assert ((Z.of_nat (String.length r) >? 20) = true) as ->.
    { destruct (Z.gtb_spec (Z.of_nat (String.length r)) 20); [reflexivity|lia]. }
    reflexivity. }
  split.
  - intros Hbad. rewrite Hstep, Hdirect; [reflexivity|].
    apply firstNotifyMessage_none.
    eapply Forall_impl; [exact Hbad|]. cbn. intros tc H Hn. apply extract_lacking; auto.
  - intros Hother.
    destruct (firstNotifyMessage (default [] (toolCalls pr))) as [msg|] eqn:Hfirst.
    + destruct (firstNotifyMessage_some _ _ Hfirst) as (tc & Hin & Hn & He).
      exists tc, msg. repeat split; try assumption.
      rewrite Hstep. unfold handlePlannerResponse. now rewrite Hpr, Hfirst.
    + exfalso. apply Hother. rewrite Hstep, Hdirect; reflexivity.
Qed.

(** A reply of 38 characters beside two notify calls, one that is not
    JSON and one that is [{}]. *)
Lemma planner_falls_through_to_response_witness :
  processStep 42 (Props.plannerStep (Some Props.longReply)
                    [Props.notifyCall Props.payloadBroken; Props.notifyCall "{}"])
              (initial "")
  = (initial "", [ {| ev_type := agent_response; content := JStr Props.longReply;
                      timestamp := 42 |} ]).
Proof.
  apply (proj1 (planner_falls_through_to_response 42
                  (Props.plannerStep (Some Props.longReply)
                     [Props.notifyCall Props.payloadBroken; Props.notifyCall "{}"])
                  {| response := Some Props.longReply;
                     toolCalls := Some [Props.notifyCall Props.payloadBroken;
                                        Props.notifyCall "{}"] |}
                  Props.longReply (initial "")
                  eq_refl eq_refl eq_refl ltac:(cbn; lia))).
  repeat constructor.
Defined.

(** C6, as amended. A notify_user tool call's arguments are parsed as
    JSON and the message is the first truthy of the properties [Message] and
    [message], in these two spellings only; a notify step and a planner
    response both emit it as [agent_response]. The payloads
    [{"Message": "done"}] and [{"message": "done"}] give the content
    ["done"]. For [{}], for text that is not JSON and for [null], whose
    property access throws, the extraction gives nothing and raises nothing.
    The step then emits what it provides otherwise: a notify step its
    [notifyUser] message when that is a non-empty string, a planner response
    its direct text when that is longer than 20 characters, and nothing when
    that is missing. *)
Theorem notify_message_extraction :
  (forall s props, JSON_parse s = Some (JObj props) ->
     extractNotifyMessage s =
     match js_or (obj_get "Message" props) (obj_get "message" props) with
     | Some v => if truthy v then Some v else None
     | None => None
     end)
  /\ (forall now step tc msg,
       toolCall step = Some tc -> isNotifyCall tc = true ->
       extractNotifyMessage (argumentsJson tc) = Some msg ->
       handleNotifyUser now step
       = [ {| ev_type := agent_response; content := msg; timestamp := now |} ])
  /\ (forall now step pr tcs1 tc tcs2 msg,
       plannerResponse step = Some pr -> toolCalls pr = Some (tcs1 ++ tc :: tcs2) ->
       firstNotifyMessage tcs1 = None -> isNotifyCall tc = true ->
       extractNotifyMessage (argumentsJson tc) = Some msg ->
       handlePlannerResponse now step
       = [ {| ev_type := agent_response; content := msg; timestamp := now |} ])
  /\ extractNotifyMessage Props.payloadUpper = Some (JStr "done")
  /\ extractNotifyMessage Props.payloadLower = Some (JStr "done")
  /\ extractNotifyMessage "{}" = None
  /\ (forall s, JSON_parse s = None \/ JSON_parse s = Some JNull ->
                extractNotifyMessage s = None)
  /\ (forall now step tc,
       toolCall step = Some tc ->
       extractNotifyMessage (argumentsJson tc) = None ->
       (forall nu text,
          notifyUser step = Some nu -> message nu = Some text -> text <> "" ->
          handleNotifyUser now step
          = [ {| ev_type := agent_response; content := JStr text; timestamp := now |} ])
       /\ (notifyUser step = None
           \/ (exists nu, notifyUser step = Some nu
                          /\ (message nu = None \/ message nu = Some "")) ->
           handleNotifyUser now step = []))
  /\ (forall now step pr,
       plannerResponse step = Some pr ->
       Forall (fun tc => isNotifyCall tc = true ->
                         extractNotifyMessage (argumentsJson tc) = None)
              (default [] (toolCalls pr)) ->
       (forall r, response pr = Some r -> (String.length r > 20)%nat ->
          handlePlannerResponse now step
          = [ {| ev_type := agent_response; content := JStr r; timestamp := now |} ])
       /\ (response pr = None
           \/ (exists r, response pr = Some r /\ (String.length r <= 20)%nat) ->
           handlePlannerResponse now step = [])).
Proof.
  split; [exact extract_object|].
  split.
  { intros now step tc msg Htc Hn He. unfold handleNotifyUser.
    now rewrite Htc, Hn, He. }
  split.
  { intros now step pr tcs1 tc tcs2 msg Hpr Htcs Hnone Hn He.
    unfold handlePlannerResponse. rewrite Hpr, Htcs. cbn [from_option id].
    now rewrite (firstNotifyMessage_found tcs1 tc tcs2 msg Hnone Hn He). }
  split; [vm_compute; reflexivity|].
  split; [vm_compute; reflexivity|].
  split; [vm_compute; reflexivity|].
  split.
  { intros s [H|H]; [now apply extract_unparseable|].
    unfold extractNotifyMessage. now rewrite H. }
  split.
  { intros now step tc Htc He.
    assert (Hfall : handleNotifyUser now step =
              match notifyUser step with
              | Some nu =>
                  match message nu with
                  | Some msg => if String.eqb msg "" then []
                                else [mkEvent agent_response (JStr msg) now]
                  | None => []
                  end
              | None => []
              end).
    { unfold handleNotifyUser. rewrite Htc, He. now destruct (isNotifyCall tc). }
    rewrite Hfall. split.
    - intros nu text Hnu Hmsg Hne. rewrite Hnu, Hmsg.
      destruct (String.eqb_spec text ""); [contradiction|reflexivity].
    - intros [->|(nu & -> & [->| ->])]; reflexivity. }
  intros now step pr Hpr Hall.
  assert (Hfall : handlePlannerResponse now step =
            match response pr with
            | Some r =>
                if negb (String.eqb r "") && (Z.of_nat (String.length r) >? 20)
                then [mkEvent agent_response (JStr r) now]
                else []
            | None => []
            end).
  { unfold handlePlannerResponse. now rewrite Hpr, (firstNotifyMessage_none _ Hall). }
  rewrite Hfall. split.
  - intros r -> Hlen.
    assert (String.eqb r "" = false) as ->.
    { destruct r; [cbn in Hlen; lia|reflexivity]. }
    assert ((Z.of_nat (String.length r) >? 20) = true) as ->.
    { destruct (Z.gtb_spec (Z.of_nat (String.length r)) 20); [reflexivity|lia]. }
    reflexivity.
  - intros [->|(r & -> & Hlen)]; [reflexivity|].
    assert ((Z.of_nat (String.length r) >? 20) = false) as ->.
    { destruct (Z.gtb_spec (Z.of_nat (String.length r)) 20); [lia|reflexivity]. }
    now rewrite andb_false_r.
Qed.

(** The two spellings; then three payloads that yield nothing, on steps
    that provide a message of their own or none. *)
Lemma notify_message_extraction_witness :
  handleNotifyUser 5 (Props.notifyStep Props.payloadUpper)
  = [ {| ev_type := agent_response; content := JStr "done"; timestamp := 5 |} ]
  /\ handlePlannerResponse 5 (Props.plannerStep None [Props.notifyCall Props.payloadLower])
     = [ {| ev_type := agent_response; content := JStr "done"; timestamp := 5 |} ]
  /\ handleNotifyUser 5 (Props.notifyStep Props.payloadBroken) = []
  /\ handleNotifyUser 5 (Props.notifyStepWith "null" "built")
     = [ {| ev_type := agent_response; content := JStr "built"; timestamp := 5 |} ]
  /\ handlePlannerResponse 5 (Props.plannerStep None [Props.notifyCall "{}"]) = []
  /\ handlePlannerResponse 5
       (Props.plannerStep (Some Props.longReply) [Props.notifyCall "{}"])
     = [ {| ev_type := agent_response; content := JStr Props.longReply;
            timestamp := 5 |} ].
Proof.
  destruct notify_message_extraction
    as (_ & Hnotify & Hplanner & Hup & Hlow & Hempty & Hbad & Hnone1 & Hnone2).
  split; [|split; [|split; [|split; [|split]]]].
  - eapply (Hnotify 5 _ (Props.notifyCall Props.payloadUpper));
      [reflexivity..|exact Hup].
  - eapply (Hplanner 5 _ _ [] (Props.notifyCall Props.payloadLower) []);
      [reflexivity..|exact Hlow].
  - apply (proj2 (Hnone1 5 (Props.notifyStep Props.payloadBroken)
                    (Props.notifyCall Props.payloadBroken) eq_refl
                    (Hbad Props.payloadBroken (or_introl eq_refl)))).
    now left.
  - apply (proj1 (Hnone1 5 (Props.notifyStepWith "null" "built")
                    (Props.notifyCall "null") eq_refl
                    (Hbad "null" (or_intror eq_refl)))
             {| message := Some "built" |});
      [reflexivity|reflexivity|discriminate].
  - apply (proj2 (Hnone2 5 (Props.plannerStep None [Props.notifyCall "{}"])
                    {| response := None; toolCalls := Some [Props.notifyCall "{}"] |}
                    eq_refl
                    ltac:(repeat constructor; intros _; exact Hempty))).
    now left.
  - apply (proj1 (Hnone2 5
                    (Props.plannerStep (Some Props.longReply) [Props.notifyCall "{}"])
                    {| response := Some Props.longReply;
                       toolCalls := Some [Props.notifyCall "{}"] |} eq_refl
                    ltac:(repeat constructor; intros _; exact Hempty)));
      [reflexivity|cbn; lia].
Defined.

(** C6 as first stated fails twice: a message under the key
    [MESSAGE] is not read, so the key is not matched case-insensitively; and
    a planner response whose notify call carries [{}] does emit an event,
    its direct text. *)
Lemma notify_message_counterexample :
  handleNotifyUser 5 (Props.notifyStep Props.payloadCaps) = []
  /\ JSON_parse Props.payloadCaps = Some (JObj [(units "MESSAGE", JStr "done")])
  /\ handlePlannerResponse 5
       (Props.plannerStep (Some Props.longReply) [Props.notifyCall "{}"])
     = [ {| ev_type := agent_response; content := JStr Props.longReply;
            timestamp := 5 |} ].
Proof. vm_compute. repeat split. Qed.

(** *** The poll tick *)

(** A step fetch that throws ends the tick with the step count where it
    was. *)
Lemma poll_fetch_rejected now c m summaries summary e :
  isDiscovered c = true ->
  getAllTrajectories true c = Resolved (Some summaries) ->
  findActiveCascade (workspaceUri m) summaries = Some (activeCascadeId m, summary) ->
  stepCount summary > lastStepCount m ->
  api_GetCascadeTrajectorySteps c (activeCascadeId m) (lastStepCount m) = Rejected e ->
  poll now c m = (Props.refreshed summary m, []).
Proof.
  intros Hd Hall Hfind Hnew Hfetch. unfold poll. rewrite Hd. cbn [negb].
  rewrite Hall, Hfind, String.eqb_refl. cbn [negb].
  cbn [lastStepCount set_activeTrajectoryId set_lastStatus].
  destruct (Z.gtb_spec (stepCount summary) (lastStepCount m)); [|lia].
  unfold getTrajectorySteps, apiCall. cbn [negb]. now rewrite Hfetch.
Qed.

(** A step fetch that fails the way the client reports failure, by
    resolving [null], moves the step count to the summary's. *)
Lemma poll_fetch_null now c m summaries summary :
  isDiscovered c = true ->
  getAllTrajectories true c = Resolved (Some summaries) ->
  findActiveCascade (workspaceUri m) summaries = Some (activeCascadeId m, summary) ->
  stepCount summary > lastStepCount m ->
  api_GetCascadeTrajectorySteps c (activeCascadeId m) (lastStepCount m) = Resolved None ->
  poll now c m = (set_lastStepCount (stepCount summary) (Props.refreshed summary m), []).
Proof.
  intros Hd Hall Hfind Hnew Hfetch. unfold poll. rewrite Hd. cbn [negb].
  rewrite Hall, Hfind, String.eqb_refl. cbn [negb].
  cbn [lastStepCount set_activeTrajectoryId set_lastStatus].
  destruct (Z.gtb_spec (stepCount summary) (lastStepCount m)); [|lia].
  unfold getTrajectorySteps, apiCall. cbn [negb]. now rewrite Hfetch.
Qed.

(** Steps are classified one after the other, in the order of the fetched
    array, which is the order of their offsets. *)
Lemma processNewSteps_app now steps1 steps2 m :
  processNewSteps now (steps1 ++ steps2) m =
  let '(m1, evs1) := processNewSteps now steps1 m in
  let '(m2, evs2) := processNewSteps now steps2 m1 in
  (m2, evs1 ++ evs2).
Proof.
  revert m. induction steps1 as [|s steps1 IH]; intros m; cbn [processNewSteps app].
  - destruct (processNewSteps now steps2 m); reflexivity.
  - destruct (processStep now s m) as [m1 e1]. rewrite IH.
    destruct (processNewSteps now steps1 m1) as [m2 e2].
    destruct (processNewSteps now steps2 m2) as [m3 e3].
    now rewrite app_assoc.
Qed.

(** A step fetch that yields steps: the count moves to the summary's, the
    steps are classified from the offset of the old count upwards, and the
    waiting ones among them are reported after that. *)
Lemma poll_fetch_ok now c m summaries summary s steps :
  isDiscovered c = true ->
  getAllTrajectories true c = Resolved (Some summaries) ->
  findActiveCascade (workspaceUri m) summaries = Some (activeCascadeId m, summary) ->
  stepCount summary > lastStepCount m ->
  api_GetCascadeTrajectorySteps c (activeCascadeId m) (lastStepCount m)
  = Resolved (Some {| LS.steps := Some (s :: steps) |}) ->
  poll now c m =
  let '(m4, evs1) :=
    processNewSteps now (s :: steps)
      (set_lastStepCount (stepCount summary) (Props.refreshed summary m)) in
  let '(m5, evs2) := detectWaiting now (lastStepCount m) 0 (s :: steps) m4 in
  (m5, evs1 ++ evs2).
Proof.
  intros Hd Hall Hfind Hnew Hfetch. unfold poll. rewrite Hd. cbn [negb].
  rewrite Hall, Hfind, String.eqb_refl. cbn [negb].
  cbn [lastStepCount set_activeTrajectoryId set_lastStatus].
  destruct (Z.gtb_spec (stepCount summary) (lastStepCount m)); [|lia].
  unfold getTrajectorySteps, apiCall. cbn [negb]. rewrite Hfetch.
  cbn [LS.steps from_option id length]. reflexivity.
Qed.

(** C1, at the input where it fails. The monitor tracks cascade [c1] with
    3 steps seen; the summary reports 5; the request for the steps from
    offset 3 fails and [apiCall] resolves [null]. The tick emits nothing and
    still moves [lastStepCount] to 5, so the next tick, the client working
    again, fetches nothing: steps 3 and 4 are never classified, while a
    first fetch that works reports both. *)
Theorem poll_failed_fetch_advances_baseline :
  let m := Props.attached "c1" 3 ∅ in
  let summaries :=
    [("c1", Props.summaryOf 5 10 "CASCADE_RUN_STATUS_RUNNING" ["file:///w"])] in
  let failing := Props.clientOf summaries (Resolved None) (Resolved false) in
  let working :=
    Props.clientOf summaries
      (Resolved (Some {| steps := Some [Props.notifyStep Props.payloadUpper;
                                        Props.commandStep "make" (StatusNum 9)] |}))
      (Resolved false) in
  let m' := fst (poll 1000 failing m) in
  lastStepCount m = 3
  /\ snd (poll 1000 failing m) = []
  /\ lastStepCount m' = 5
  /\ poll 6000 working m' = (m', [])
  /\ snd (poll 1000 working m)
     = [mkEvent agent_response (JStr "done") 1000;
        mkEvent step_request (JStr (describeWaitingStep
                                      (Props.commandStep "make" (StatusNum 9)))) 1000].
Proof.
  intros m summaries failing working m'.
  assert (Hfail : poll 1000 failing m
                  = (set_lastStepCount 5
                       (Props.refreshed (Props.summaryOf 5 10 "CASCADE_RUN_STATUS_RUNNING"
                                     ["file:///w"]) m), [])).
  { apply (poll_fetch_null 1000 failing m summaries); try reflexivity. }
  subst m'. rewrite Hfail. cbn [fst snd].
  repeat split; reflexivity.
Qed.

End MonitorFacts.

(** ** Further properties of the bridge *)

Module BridgeMore.
Import Bridge Props Terms.

(** With no prompt outstanding the tracker is inert, and before the first
    activity of a prompt no check reports a stall. *)
Theorem stall_needs_prompt_and_activity (b : State) (ops : list Op) :
  (promptSentAt (activity b) = 0 ->
   forallb withinPrompt ops = true ->
   run b ops = (b, []))
  /\ (hadActivity (activity b) = false ->
      forallb isCheck ops = true ->
      run b ops = (b, [])).
Proof.
  split.
  - intros Hz. induction ops as [|op ops IH]; intros Hops; [reflexivity|].
    cbn [forallb] in Hops. apply andb_prop in Hops as [Hop Hops].
    destruct op as [now|now|now|]; try discriminate; cbn [run step].
    + assert (trackActivity now b = b) as ->.
      { unfold trackActivity. now rewrite Hz. }
      now rewrite (IH Hops).
    + assert (checkForStall now b = (b, [])) as ->.
      { unfold checkForStall. now rewrite Hz. }
      now rewrite (IH Hops).
  - intros Hh. induction ops as [|op ops IH]; intros Hops; [reflexivity|].
    cbn [forallb] in Hops. apply andb_prop in Hops as [Hop Hops].
    destruct op as [now|now|now|]; try discriminate; cbn [run step].
    assert (checkForStall now b = (b, [])) as ->.
    { unfold checkForStall. rewrite Hh.
      now destruct (promptSentAt (activity b) =? 0). }
    now rewrite (IH Hops).
Qed.

(** After a reject or a new conversation, activity and long silences go
    unreported; after a new prompt, checks alone report nothing. *)
Lemma stall_needs_prompt_and_activity_witness :
  run (clearActivityTracking (resetActivityTracking 500 initial))
      [OpTrack 1000; OpCheck 20000; OpTrack 21000; OpCheck 90000]
  = (clearActivityTracking (resetActivityTracking 500 initial), [])
  /\ run (resetActivityTracking 500 initial) [OpCheck 20000; OpCheck 90000]
     = (resetActivityTracking 500 initial, []).
Proof.
  split.
  - apply (proj1 (stall_needs_prompt_and_activity _ _)); reflexivity.
  - apply (proj2 (stall_needs_prompt_and_activity _ _)); reflexivity.
Defined.




(** The loop over the context keys: the aggregate is true exactly when
    some key reads [true]; a rejected read or a value that is not [true]
    neither stops the loop nor hides a later [true]. *)
Theorem aggregate_true_iff_some_key (rd : ContextReader) (now : Z) :
  aggregate (now, rd) = true <->
  exists key, In key CONTEXT_KEYS_TO_POLL /\ rd key = Resolved (Some true).
Proof.
  unfold aggregate. cbn [snd].
  induction CONTEXT_KEYS_TO_POLL as [|k ks IH]; cbn [anyActiveOf].
  - split; [discriminate|]. intros (key & [] & _).
  - split.
    + intros H. destruct (rd k) as [[[|]|]|e] eqn:Hk;
        try (apply IH in H; destruct H as (key & Hin & Hkey);
             exists key; split; [now right|exact Hkey]).
      exists k. split; [now left|exact Hk].
    + intros (key & [<-|Hin] & Hkey).
      * now rewrite Hkey.
      * destruct (rd k) as [[[|]|]|e]; try reflexivity; apply IH; eauto.
Qed.

(** A new prompt, an accepted step, a reject or a new conversation re-arm
    the poller: if the aggregate reads true at the next tick a request is
    reported, also when the aggregate never went back to false and the
    episode had been reported already. *)
Theorem reset_rearms_context_poller (b : State) (t0 now : Z) (rd : ContextReader) :
  aggregate (now, rd) = true ->
  snd (pollContextKeys now rd (resetActivityTracking t0 b)) = [waitingEvent now]
  /\ snd (pollContextKeys now rd (clearActivityTracking b)) = [waitingEvent now].
Proof.
  unfold aggregate. cbn [snd]. intros Hagg.
  unfold pollContextKeys, resetActivityTracking, clearActivityTracking.
  cbn [prevContextKeyState contextNotifiedForThisPrompt snd]. rewrite Hagg.
  split; reflexivity.
Qed.

(** The aggregate held true over a reset: reported at the tick before
    it and again at the tick after it. *)
Lemma reset_rearms_context_poller_witness :
  let b1 := fst (pollContextKeys 2000 secondTrue initial) in
  snd (pollContextKeys 2000 secondTrue initial) = [waitingEvent 2000]
  /\ snd (pollContextKeys 4000 secondTrue b1) = []
  /\ snd (pollContextKeys 6000 secondTrue (resetActivityTracking 5000 b1))
     = [waitingEvent 6000].
Proof.
  intros b1. split; [reflexivity|]. split; [reflexivity|].
  apply (proj1 (reset_rearms_context_poller b1 5000 6000 secondTrue eq_refl)).
Defined.

End BridgeMore.

(** ** Further properties of the trajectory monitor *)

Module MonitorMore.
Import LS Monitor Terms.

(** *** Poll ticks that process no step *)

(** When the selected cascade is not the tracked one the tick only
    re-bases: it takes the summary's step count and status, empties the
    notified set, keeps the echo log, emits nothing and looks at no step;
    the tick after it, with the summaries unchanged, emits nothing either,
    so the steps the cascade had at the switch are never classified. *)
Theorem poll_switch_skips_history (now now' : Z) (c : Client) (m : State)
  (summaries : TrajectorySummaryMap) (id : string) (summary : TrajectorySummary) :
  isDiscovered c = true ->
  getAllTrajectories true c = Resolved (Some summaries) ->
  findActiveCascade (workspaceUri m) summaries = Some (id, summary) ->
  id <> activeCascadeId m ->
  let m' := {| activeCascadeId := id;
               activeTrajectoryId := trajectoryId summary;
               lastStepCount := stepCount summary;
               lastStatus := status summary;
               notifiedWaitingSteps := ∅;
               sentTexts := sentTexts m;
               lastDiscoverAttempt := lastDiscoverAttempt m;
               workspaceUri := workspaceUri m |} in
  poll now c m = (m', []) /\ poll now' c m' = (m', []).
Proof.
  intros Hd Hall Hfind Hne m'. split.
  - unfold poll. rewrite Hd. cbn [negb]. rewrite Hall, Hfind.
    destruct (String.eqb_spec id (activeCascadeId m)); [contradiction|reflexivity].
  - unfold poll. rewrite Hd. cbn [negb]. rewrite Hall.
    change (workspaceUri m') with (workspaceUri m). rewrite Hfind.
    change (activeCascadeId m') with id. rewrite String.eqb_refl. cbn [negb].
    cbn [lastStepCount set_activeTrajectoryId set_lastStatus m'].
    destruct (Z.gtb_spec (stepCount summary) (stepCount summary)); [lia|].
    reflexivity.
Qed.

(** A monitor that saw 10 steps of [c1] meets [c2], which has 5: nothing
    is emitted at the switch nor at the next tick, although the client would
    hand out a notify step for any offset. *)
Lemma poll_switch_skips_history_witness :
  let summaries :=
    [("c2", Props.summaryOf 5 10 "CASCADE_RUN_STATUS_RUNNING" ["file:///w"])] in
  let c := Props.clientOf summaries
             (Resolved (Some {| steps := Some [Props.notifyStep Props.payloadUpper] |}))
             (Resolved true) in
  let m := Props.attached "c1" 10 {[ 9 ]} in
  snd (poll 1000 c m) = []
  /\ lastStepCount (fst (poll 1000 c m)) = 5
  /\ snd (poll 6000 c (fst (poll 1000 c m))) = [].
Proof.
  intros summaries c m.
  destruct (poll_switch_skips_history 1000 6000 c m summaries "c2"
              (Props.summaryOf 5 10 "CASCADE_RUN_STATUS_RUNNING" ["file:///w"])
              eq_refl eq_refl eq_refl ltac:(discriminate)) as [H1 H2].
  rewrite H1. cbn [fst snd]. rewrite H2. repeat split; reflexivity.
Defined.

(** On the tracked cascade, a summary whose step count is not above the
    count seen so far makes the tick refresh status and trajectory id only:
    no event, no look at the steps, and the count is kept even when the
    summary reports fewer steps. *)
Theorem poll_without_new_steps (now : Z) (c : Client) (m : State)
  (summaries : TrajectorySummaryMap) (summary : TrajectorySummary) :
  isDiscovered c = true ->
  getAllTrajectories true c = Resolved (Some summaries) ->
  findActiveCascade (workspaceUri m) summaries = Some (activeCascadeId m, summary) ->
  stepCount summary <= lastStepCount m ->
  poll now c m = (Props.refreshed summary m, [])
  /\ lastStepCount (Props.refreshed summary m) = lastStepCount m
  /\ notifiedWaitingSteps (Props.refreshed summary m) = notifiedWaitingSteps m
  /\ sentTexts (Props.refreshed summary m) = sentTexts m.
Proof.
  intros Hd Hall Hfind Hle. split; [|repeat split].
  unfold poll. rewrite Hd. cbn [negb]. rewrite Hall, Hfind, String.eqb_refl.
  cbn [negb lastStepCount set_activeTrajectoryId set_lastStatus].
  destruct (Z.gtb_spec (stepCount summary) (lastStepCount m)); [lia|reflexivity].
Qed.

Lemma poll_without_new_steps_witness :
  let summaries :=
    [("c1", Props.summaryOf 4 10 "CASCADE_RUN_STATUS_IDLE" ["file:///w"])] in
  let c := Props.clientOf summaries
             (Resolved (Some {| steps := Some [Props.notifyStep Props.payloadUpper] |}))
             (Resolved true) in
  let m := Props.attached "c1" 10 ∅ in
  snd (poll 1000 c m) = [] /\ lastStepCount (fst (poll 1000 c m)) = 10.
Proof.
  intros summaries c m.
  destruct (poll_without_new_steps 1000 c m summaries
              (Props.summaryOf 4 10 "CASCADE_RUN_STATUS_IDLE" ["file:///w"])
              eq_refl eq_refl eq_refl ltac:(cbn; lia)) as (H & _).
  rewrite H. split; reflexivity.
Defined.

(** Without a discovered server: a tick within 30 s of the last attempt
    does nothing; a later tick whose discovery fails only notes the time of
    the attempt; an accept or reject is refused with nothing submitted. With
    a discovered server whose summaries cannot be had, the tick does
    nothing. *)
Theorem monitor_idle_without_server (now : Z) (accept : bool) (c : Client) (m : State) :
  (isDiscovered c = false ->
   now - lastDiscoverAttempt m < REDISCOVER_INTERVAL_MS ->
   poll now c m = (m, []))
  /\ (isDiscovered c = false ->
      now - lastDiscoverAttempt m >= REDISCOVER_INTERVAL_MS ->
      discover c = false ->
      poll now c m = (set_lastDiscoverAttempt now m, []))
  /\ (isDiscovered c = false ->
      acceptWaitingStep accept c m = refused m)
  /\ (isDiscovered c = true ->
      (forall summaries, getAllTrajectories true c <> Resolved (Some summaries)) ->
      poll now c m = (m, [])).
Proof.
  split; [|split; [|split]].
  - intros Hd Hlt. unfold poll. rewrite Hd. cbn [negb].
    destruct (Z.ltb_spec (now - lastDiscoverAttempt m) REDISCOVER_INTERVAL_MS); [|lia].
    reflexivity.
  - intros Hd Hge Hfail. unfold poll. rewrite Hd. cbn [negb].
    destruct (Z.ltb_spec (now - lastDiscoverAttempt m) REDISCOVER_INTERVAL_MS); [lia|].
    rewrite Hfail. reflexivity.
  - intros Hd. unfold acceptWaitingStep, getAllTrajectories, apiCall. rewrite Hd.
    cbn [negb]. now destruct (_ || _).
  - intros Hd Hnone. unfold poll. rewrite Hd. cbn [negb].
    destruct (getAllTrajectories true c) as [[summaries|]|e]; try reflexivity.
    exfalso. now apply (Hnone summaries).
Qed.

Lemma monitor_idle_without_server_witness :
  let lost := {| isDiscovered := false; discover := false;
                 api_GetAllCascadeTrajectories := Rejected "unused";
                 api_GetCascadeTrajectorySteps := fun _ _ => Rejected "unused";
                 handleUserInteraction := fun _ _ => Resolved true |} in
  let m := Props.attached "c1" 3 {[ 2 ]} in
  poll 20000 lost m = (m, [])
  /\ poll 40000 lost m = (set_lastDiscoverAttempt 40000 m, [])
  /\ acceptWaitingStep true lost m = refused m.
Proof.
  intros lost m.
  destruct (monitor_idle_without_server 20000 true lost m) as (H1 & _ & H3 & _).
  destruct (monitor_idle_without_server 40000 true lost m) as (_ & H2 & _ & _).
  split; [|split].
  - apply H1; [reflexivity|]. cbn. unfold REDISCOVER_INTERVAL_MS. lia.
  - apply H2; [reflexivity| |reflexivity]. cbn. unfold REDISCOVER_INTERVAL_MS. lia.
  - apply H3. reflexivity.
Defined.

(** *** Waiting steps are reported once *)

Lemma set_notified_twice s1 s2 m :
  set_notifiedWaitingSteps s1 (set_notifiedWaitingSteps s2 m)
  = set_notifiedWaitingSteps s1 m.
Proof. reflexivity. Qed.

Lemma detectWaiting_state now offset steps : forall i m,
  fst (detectWaiting now offset i steps m)
  = set_notifiedWaitingSteps
      (notifiedWaitingSteps m ∪ waitingOffsets offset i steps) m.
Proof.
  induction steps as [|step rest IH]; intros i m; cbn [detectWaiting waitingOffsets].
  - replace (notifiedWaitingSteps m ∪ ∅) with (notifiedWaitingSteps m) by set_solver.
    now destruct m.
  - destruct (isWaitingStatus (step_status step)); cbn [andb].
    + destruct (bool_decide_reflect (offset + i ∈ notifiedWaitingSteps m)) as [Hin|Hnin];
        cbn [negb].
      * specialize (IH (i + 1) m).
        destruct (detectWaiting now offset (i + 1) rest m) as [m2 e2]. cbn [fst] in *.
        rewrite IH. f_equal. set_solver.
      * specialize (IH (i + 1)
                      (set_notifiedWaitingSteps
                         ({[offset + i]} ∪ notifiedWaitingSteps m) m)).
        destruct (detectWaiting now offset (i + 1) rest _) as [m2 e2]. cbn [fst] in *.
        rewrite IH, set_notified_twice. cbn [notifiedWaitingSteps set_notifiedWaitingSteps].
        f_equal. set_solver.
    + specialize (IH (i + 1) m).
      destruct (detectWaiting now offset (i + 1) rest m) as [m2 e2]. cbn [fst] in *.
      rewrite IH. f_equal. set_solver.
Qed.

Lemma detectWaiting_known now offset steps : forall i m,
  waitingOffsets offset i steps ⊆ notifiedWaitingSteps m ->
  detectWaiting now offset i steps m = (m, []).
Proof.
  induction steps as [|step rest IH]; intros i m Hsub; [reflexivity|].
  cbn [detectWaiting waitingOffsets] in *.
  assert (Hrest : waitingOffsets offset (i + 1) rest ⊆ notifiedWaitingSteps m)
    by set_solver.
  destruct (isWaitingStatus (step_status step)); cbn [andb].
  - destruct (bool_decide_reflect (offset + i ∈ notifiedWaitingSteps m)) as [Hin|Hnin];
      cbn [negb].
    + now rewrite (IH (i + 1) m Hrest).
    + exfalso. apply Hnin. set_solver.
  - now rewrite (IH (i + 1) m Hrest).
Qed.

Lemma detectWaiting_events now offset steps : forall i m,
  forallb isStepRequestEvent (snd (detectWaiting now offset i steps m)) = true
  /\ (snd (detectWaiting now offset i steps m) = [] ->
      waitingOffsets offset i steps ⊆ notifiedWaitingSteps m).
Proof.
  induction steps as [|step rest IH]; intros i m; cbn [detectWaiting waitingOffsets].
  - split; [reflexivity|]. intros _. set_solver.
  - destruct (isWaitingStatus (step_status step)); cbn [andb].
    + destruct (bool_decide_reflect (offset + i ∈ notifiedWaitingSteps m)) as [Hin|Hnin];
        cbn [negb].
      * destruct (IH (i + 1) m) as [Hall Hnil].
        destruct (detectWaiting now offset (i + 1) rest m) as [m2 e2].
        cbn [fst snd app] in *. split; [exact Hall|].
        intros He. specialize (Hnil He). set_solver.
      * destruct (IH (i + 1) (set_notifiedWaitingSteps
                                ({[offset + i]} ∪ notifiedWaitingSteps m) m))
          as [Hall _].
        destruct (detectWaiting now offset (i + 1) rest _) as [m2 e2].
        cbn [fst snd app] in *. split; [|discriminate].
        cbn [forallb]. now rewrite Hall.
    + destruct (IH (i + 1) m) as [Hall Hnil].
      destruct (detectWaiting now offset (i + 1) rest m) as [m2 e2].
      cbn [fst snd app] in *. split; [exact Hall|].
      intros He. specialize (Hnil He). set_solver.
Qed.

(** The waiting check over a fetched array emits [step_request] events
    only, adds the offsets of all its waiting steps to the notified set and
    changes nothing else; it is silent exactly when all those offsets were
    in the set already, so that a second pass over the same steps, at any
    later time, emits nothing and changes nothing. *)
Theorem waiting_steps_reported_once (now now' offset : Z)
  (steps : list TrajectoryStep) (m : State) :
  let m1 := fst (detectWaiting now offset 0 steps m) in
  let evs := snd (detectWaiting now offset 0 steps m) in
  m1 = set_notifiedWaitingSteps
         (notifiedWaitingSteps m ∪ waitingOffsets offset 0 steps) m
  /\ forallb isStepRequestEvent evs = true
  /\ (evs = [] <-> waitingOffsets offset 0 steps ⊆ notifiedWaitingSteps m)
  /\ detectWaiting now' offset 0 steps m1 = (m1, []).
Proof.
  intros m1 evs. subst m1 evs.
  split; [apply detectWaiting_state|].
  split; [apply detectWaiting_events|].
  split.
  - split; [apply detectWaiting_events|].
    intros Hsub. now rewrite detectWaiting_known.
  - apply detectWaiting_known. rewrite detectWaiting_state. cbn. set_solver.
Qed.

(** *** Accepting the most recent waiting step *)

Lemma scanWaiting_hit accept c m offset skipped i step rest interaction ok :
  Forall (passedOver m accept offset) skipped ->
  isWaitingStatus (step_status step) = true ->
  buildInteraction m step (offset + Z.of_nat i) accept = Some interaction ->
  handleUserInteraction c (activeCascadeId m) interaction = Resolved ok ->
  scanWaiting accept c m offset (skipped ++ (i, step) :: rest)
  = {| accepted := ok;
       after := if ok
                then set_notifiedWaitingSteps
                       (notifiedWaitingSteps m ∖ {[offset + Z.of_nat i]}) m
                else m;
       submitted := Some interaction |}.
Proof.
  intros Hskip Hw Hb Hok.
  induction Hskip as [|[j s] skipped Hj _ IH]; cbn [app scanWaiting].
  - now rewrite Hw, Hb, Hok.
  - destruct Hj as [Hj|Hj]; cbn [fst snd] in Hj.
    + now rewrite Hj.
    + destruct (isWaitingStatus (step_status s)); cbn [negb]; [|exact IH].
      now rewrite Hj.
Qed.

Lemma indexed_rev_split (pre post : list TrajectoryStep) step :
  rev (imap (fun i s => (i, s)) (pre ++ step :: post))
  = rev (imap (fun i s => ((length pre + S i)%nat, s)) post)
    ++ (length pre, step) :: rev (imap (fun i s => (i, s)) pre).
Proof.
  rewrite imap_app. cbn [imap]. rewrite rev_app_distr. cbn [rev].
  rewrite <- app_assoc. cbn [app]. rewrite Nat.add_0_r. reflexivity.
Qed.

(** With an active cascade, the window fetched from
    [max(0, stepCount - 20)] is scanned from its end: the steps after the
    last waiting step that has an interaction are passed over, that step's
    interaction is submitted, and on success the call returns true and
    removes that step's absolute offset, and nothing else, from the notified
    set. *)
Theorem accept_takes_last_waiting_step (accept : bool) (c : Client) (m : State)
  (summaries : TrajectorySummaryMap) (summary : TrajectorySummary)
  (pre post : list TrajectoryStep) (step : TrajectoryStep) (interaction : JSValue) :
  activeCascadeId m <> "" ->
  activeTrajectoryId m <> "" ->
  getAllTrajectories (isDiscovered c) c = Resolved (Some summaries) ->
  lookupSummary (activeCascadeId m) summaries = Some summary ->
  stepCount summary <> 0 ->
  let offset := Z.max 0 (stepCount summary - 20) in
  let absIdx := offset + Z.of_nat (length pre) in
  getTrajectorySteps (isDiscovered c) c (activeCascadeId m) offset
  = Resolved (pre ++ step :: post) ->
  (forall j s, post !! j = Some s ->
               passedOver m accept offset ((length pre + S j)%nat, s)) ->
  isWaitingStatus (step_status step) = true ->
  buildInteraction m step absIdx accept = Some interaction ->
  handleUserInteraction c (activeCascadeId m) interaction = Resolved true ->
  acceptWaitingStep accept c m
  = {| accepted := true;
       after := set_notifiedWaitingSteps (notifiedWaitingSteps m ∖ {[absIdx]}) m;
       submitted := Some interaction |}.
Proof.
  intros Hid Htid Hall Hlook Hcount offset absIdx Hfetch Hpost Hw Hb Hok.
  unfold acceptWaitingStep.
  destruct (String.eqb_spec (activeCascadeId m) ""); [contradiction|].
  destruct (String.eqb_spec (activeTrajectoryId m) ""); [contradiction|].
  cbn [orb]. rewrite Hall, Hlook.
  destruct (Z.eqb_spec (stepCount summary) 0); [contradiction|].
  fold offset. rewrite Hfetch, indexed_rev_split.
  rewrite (scanWaiting_hit accept c m offset _ (length pre) step _ interaction true);
    try assumption; [reflexivity|].
  apply Forall_forall. intros [j s] Hin.
  apply list_elem_of_In in Hin. rewrite <- in_rev in Hin.
  apply list_elem_of_In, elem_of_lookup_imap in Hin.
  destruct Hin as (k & y & Heq & Hlk). injection Heq as -> ->.
  now apply Hpost.
Qed.

(** A cascade of 25 steps, so a window from offset 5, of which the
    server returns five steps: the fourth, at offset 8, waits with a command
    and the fifth is done. Accepting submits the command of step 8 and takes
    8 out of the notified set; the waiting step at offset 6 is left alone. *)
Lemma accept_takes_last_waiting_step_witness :
  let steps := [Props.userStep "go";
                Props.commandStep "ls" (StatusStr "CORTEX_STEP_STATUS_WAITING");
                Props.userStep "more";
                Props.commandStep "make" (StatusNum 9);
                Props.userStep "later"] in
  let c := Props.clientOf [("c1", Props.summaryOf 25 10 "CASCADE_RUN_STATUS_RUNNING" [])]
             (Resolved (Some {| steps := Some steps |})) (Resolved true) in
  let m := Props.attached "c1" 25 {[ 6; 8 ]} in
  accepted (acceptWaitingStep true c m) = true
  /\ notifiedWaitingSteps (after (acceptWaitingStep true c m)) = {[ 6; 8 ]} ∖ {[ 8 ]}
  /\ submitted (acceptWaitingStep true c m)
     = Some (JObj [(units "trajectoryId", JStr "t"); (units "stepIndex", JNum 8 0);
                   (units "runCommand",
                    JObj [(units "confirm", JBool true);
                          (units "proposedCommandLine", JStr "make");
                          (units "submittedCommandLine", JStr "make")])]).
Proof.
  intros steps c m.
  rewrite (accept_takes_last_waiting_step true c m
             [("c1", Props.summaryOf 25 10 "CASCADE_RUN_STATUS_RUNNING" [])]
             (Props.summaryOf 25 10 "CASCADE_RUN_STATUS_RUNNING" [])
             [Props.userStep "go";
              Props.commandStep "ls" (StatusStr "CORTEX_STEP_STATUS_WAITING");
              Props.userStep "more"]
             [Props.userStep "later"]
             (Props.commandStep "make" (StatusNum 9))
             (JObj [(units "trajectoryId", JStr "t"); (units "stepIndex", JNum 8 0);
                    (units "runCommand",
                     JObj [(units "confirm", JBool true);
                           (units "proposedCommandLine", JStr "make");
                           (units "submittedCommandLine", JStr "make")])])).
  - cbn [accepted after submitted notifiedWaitingSteps set_notifiedWaitingSteps].
    split; [reflexivity|]. split; [|reflexivity].
    subst m. cbn [Props.attached notifiedWaitingSteps]. do 2 f_equal.
  - discriminate.
  - discriminate.
  - reflexivity.
  - reflexivity.
  - discriminate.
  - reflexivity.
  - intros j s Hj. destruct j as [|j]; [|destruct j; discriminate Hj].
    injection Hj as <-. left. reflexivity.
  - reflexivity.
  - reflexivity.
  - reflexivity.
Defined.

(** *** The interaction built for a waiting step *)

(** [buildInteraction] gives nothing exactly for a step without a known
    payload whose type holds no [CORTEX_STEP_TYPE_<word>]. A step with a
    known payload has a first one in the order of the tests, and the
    interaction is the trajectory id, the step index and one field, named
    after that payload and answering it: [confirm] set to the decision, but
    for a file permission [allow] set to the decision, for a deploy [cancel]
    set to its negation, and for a command also the command line, twice.
    Without a known payload the field name is guessed from the type and set
    over the base object. *)
Theorem buildInteraction_shape (m : State) (step : TrajectoryStep) (stepIndex : Z)
  (accept : bool) :
  let confirm := JObj [(units "confirm", JBool accept)] in
  let built := fun (field : string) (answer : JSValue) =>
    Some (JObj [(units "trajectoryId", JStr (activeTrajectoryId m));
                (units "stepIndex", JNum stepIndex 0);
                (units field, answer)]) in
  (buildInteraction m step stepIndex accept = None <->
   hasPayload step = false /\ matchStepType (type step) = None)
  /\ (hasPayload step = true <-> exists p, List.find (carries step) payloads = Some p)
  /\ (forall p, List.find (carries step) payloads = Some p ->
      buildInteraction m step stepIndex accept =
      match p with
      | PRunCommand =>
          built "runCommand"
            (JObj [(units "confirm", JBool accept);
                   (units "proposedCommandLine", JStr (commandOf step));
                   (units "submittedCommandLine", JStr (commandOf step))])
      | POpenBrowserUrl => built "openBrowserUrl" confirm
      | PExecuteBrowserJavascript => built "executeBrowserJavascript" confirm
      | PCaptureBrowserScreenshot => built "captureBrowserScreenshot" confirm
      | PBrowserAction => built "browserAction" confirm
      | PMcp => built "mcp" confirm
      | PReadUrlContent => built "readUrlContent" confirm
      | PSendCommandInput => built "sendCommandInput" confirm
      | PFilePermission => built "filePermission" (JObj [(units "allow", JBool accept)])
      | PRunExtensionCode => built "runExtensionCode" confirm
      | PDeploy => built "deploy" (JObj [(units "cancel", JBool (negb accept))])
      | POpenBrowserSetup => built "openBrowserSetup" confirm
      | PConfirmBrowserSetup => built "confirmBrowserSetup" confirm
      end)
  /\ (hasPayload step = false ->
      forall capture, matchStepType (type step) = Some capture ->
        buildInteraction m step stepIndex accept
        = Some (JObj (obj_set (camelize (toLowerCase capture)) confirm
                        [(units "trajectoryId", JStr (activeTrajectoryId m));
                         (units "stepIndex", JNum stepIndex 0)]))).
Proof.
  intros confirm built.
  unfold buildInteraction, hasPayload, payloads, commandOf, nullish.
  cbn [List.find carries].
  destruct (runCommand step) as [rc|].
  { split; [split; [discriminate|intros [H _]; discriminate H]|].
    split; [split; eauto|]. split; [|discriminate].
    intros p [= <-]. now destruct (commandLine rc), (command rc). }
  destruct (openBrowserUrl step) as [u|].
  { split; [split; [discriminate|intros [H _]; discriminate H]|].
    split; [split; eauto|]. split; [|discriminate]. now intros p [= <-]. }
  destruct (executeBrowserJavascript step).
  { split; [split; [discriminate|intros [H _]; discriminate H]|].
    split; [split; eauto|]. split; [|discriminate]. now intros p [= <-]. }
  destruct (captureBrowserScreenshot step).
  { split; [split; [discriminate|intros [H _]; discriminate H]|].
    split; [split; eauto|]. split; [|discriminate]. now intros p [= <-]. }
  destruct (browserAction step).
  { split; [split; [discriminate|intros [H _]; discriminate H]|].
    split; [split; eauto|]. split; [|discriminate]. now intros p [= <-]. }
  destruct (browserSubagent step).
  { split; [split; [discriminate|intros [H _]; discriminate H]|].
    split; [split; eauto|]. split; [|discriminate]. now intros p [= <-]. }
  destruct (mcp step) as [t|].
  { split; [split; [discriminate|intros [H _]; discriminate H]|].
    split; [split; eauto|]. split; [|discriminate]. now intros p [= <-]. }
  destruct (readUrlContent step) as [u|].
  { split; [split; [discriminate|intros [H _]; discriminate H]|].
    split; [split; eauto|]. split; [|discriminate]. now intros p [= <-]. }
  destruct (sendCommandInput step).
  { split; [split; [discriminate|intros [H _]; discriminate H]|].
    split; [split; eauto|]. split; [|discriminate]. now intros p [= <-]. }
  destruct (filePermission step) as [fp|].
  { split; [split; [discriminate|intros [H _]; discriminate H]|].
    split; [split; eauto|]. split; [|discriminate]. now intros p [= <-]. }
  destruct (runExtensionCode step).
  { split; [split; [discriminate|intros [H _]; discriminate H]|].
    split; [split; eauto|]. split; [|discriminate]. now intros p [= <-]. }
  destruct (deploy step).
  { split; [split; [discriminate|intros [H _]; discriminate H]|].
    split; [split; eauto|]. split; [|discriminate]. now intros p [= <-]. }
  destruct (openBrowserSetup step).
  { split; [split; [discriminate|intros [H _]; discriminate H]|].
    split; [split; eauto|]. split; [|discriminate]. now intros p [= <-]. }
  destruct (confirmBrowserSetup step).
  { split; [split; [discriminate|intros [H _]; discriminate H]|].
    split; [split; eauto|]. split; [|discriminate]. now intros p [= <-]. }
  cbn. destruct (matchStepType (type step)) as [capture|].
  - split; [split; [discriminate|intros [_ H]; discriminate H]|].
    split; [split; [discriminate|intros [p H]; discriminate H]|].
    split; [discriminate|]. intros _ w [= <-]. reflexivity.
  - split; [split; [intros _; split; reflexivity|reflexivity]|].
    split; [split; [discriminate|intros [p H]; discriminate H]|].
    split; [discriminate|]. intros _ w H. discriminate H.
Qed.

(** A step that asks for a file permission and for a deploy, rejected:
    the file permission is tested first and is denied. A deploy step,
    accepted: it is not cancelled. *)
Lemma buildInteraction_shape_witness :
  let m := Props.attached "c1" 3 ∅ in
  let deployStep :=
    {| type := "CORTEX_STEP_TYPE_DEPLOY";
       step_status := StatusNum 9; toolCall := None; userInput := None;
       plannerResponse := None; notifyUser := None; runCommand := None;
       openBrowserUrl := None; executeBrowserJavascript := false;
       captureBrowserScreenshot := false; browserAction := false;
       browserSubagent := false; mcp := None; readUrlContent := None;
       sendCommandInput := false; filePermission := None;
       runExtensionCode := false; deploy := true;
       openBrowserSetup := false; confirmBrowserSetup := false |} in
  let both :=
    {| type := "CORTEX_STEP_TYPE_DEPLOY";
       step_status := StatusNum 9; toolCall := None; userInput := None;
       plannerResponse := None; notifyUser := None; runCommand := None;
       openBrowserUrl := None; executeBrowserJavascript := false;
       captureBrowserScreenshot := false; browserAction := false;
       browserSubagent := false; mcp := None; readUrlContent := None;
       sendCommandInput := false;
       filePermission := Some {| absolutePathUri := Some "file:///w/a.ts";
                                 path := None |};
       runExtensionCode := false; deploy := true;
       openBrowserSetup := false; confirmBrowserSetup := false |} in
  buildInteraction m deployStep 7 true
  = Some (JObj [(units "trajectoryId", JStr "t"); (units "stepIndex", JNum 7 0);
                (units "deploy", JObj [(units "cancel", JBool false)])])
  /\ buildInteraction m both 7 false
     = Some (JObj [(units "trajectoryId", JStr "t"); (units "stepIndex", JNum 7 0);
                   (units "filePermission", JObj [(units "allow", JBool false)])]).
Proof.
  intros m deployStep both. split.
  - apply (proj1 (proj2 (proj2 (buildInteraction_shape m deployStep 7 true))) PDeploy).
    reflexivity.
  - apply (proj1 (proj2 (proj2 (buildInteraction_shape m both 7 false)))
             PFilePermission).
    reflexivity.
Defined.

(** *** User input *)

Lemma first_occurrence (x : string) (l : list string) :
  In x l -> exists l1 l2, l = l1 ++ x :: l2 /\ ~ In x l1.
Proof.
  induction l as [|y l IH]; [intros []|]. intros Hin.
  destruct (String.eqb_spec y x) as [->|Hne].
  - exists [], l. split; [reflexivity|]. intros [].
  - destruct Hin as [Heq|Hin]; [contradiction|].
    destruct (IH Hin) as (l1 & l2 & -> & Hn).
    exists (y :: l1), l2. split; [reflexivity|].
    intros [Heq|Hin']; [contradiction|]. now apply Hn.
Qed.

(** A user-input step is dropped when its text is empty or holds
    [system-generated message] in any letter case, and then the echo log is
    not touched even if the text was recorded; otherwise it either uses up
    the first matching entry of the echo log and is dropped, or is reported
    as [gui_message] with its text unchanged and the monitor as it was. *)
Theorem user_input_classified (now : Z) (step : TrajectoryStep) (ui : UserInput)
  (m : State) :
  type step = "CORTEX_STEP_TYPE_USER_INPUT" ->
  userInput step = Some ui ->
  let text := default "" (userResponse ui) in
  (text = "" \/ test_ci AUTO_APPROVE_PATTERN text = true ->
   processStep now step m = (m, []))
  /\ (text <> "" -> test_ci AUTO_APPROVE_PATTERN text = false ->
      In (normalize text) (sentTexts m) ->
      exists l1 l2, sentTexts m = l1 ++ normalize text :: l2
                    /\ ~ In (normalize text) l1
                    /\ processStep now step m = (set_sentTexts (l1 ++ l2) m, []))
  /\ (text <> "" -> test_ci AUTO_APPROVE_PATTERN text = false ->
      ~ In (normalize text) (sentTexts m) ->
      processStep now step m = (m, [mkEvent gui_message (JStr text) now])).
Proof.
  intros Hty Hui text.
  assert (Hstep : processStep now step m = handleUserInput now step m).
  { unfold processStep. now rewrite Hty. }
  rewrite Hstep. unfold handleUserInput. rewrite Hui. fold text.
  split; [|split].
  - intros [->|Hauto]; [reflexivity|].
    rewrite Hauto. now destruct (String.eqb text "").
  - intros Hne Hauto Hin.
    destruct (first_occurrence _ _ Hin) as (l1 & l2 & Hl & Hn).
    exists l1, l2. split; [exact Hl|]. split; [exact Hn|].
    destruct (String.eqb_spec text ""); [contradiction|]. rewrite Hauto.
    now rewrite (MonitorFacts.isTelegramSent_present text m l1 l2 Hl Hn).
  - intros Hne Hauto Hnin.
    destruct (String.eqb_spec text ""); [contradiction|]. rewrite Hauto.
    now rewrite (MonitorFacts.isTelegramSent_absent text m Hnin).
Qed.

(** A recorded text that is also an automatic approval is dropped and
    stays in the log. *)
Lemma user_input_classified_witness :
  let text := "This is a System-Generated Message: approved" in
  let m := markTelegramSent text (initial "") in
  processStep 9 (Props.userStep text) m = (m, [])
  /\ sentTexts m = [normalize text].
Proof.
  intros text m. split; [|reflexivity].
  apply (proj1 (user_input_classified 9 (Props.userStep text)
                  {| userResponse := Some text |} m eq_refl eq_refl)).
  right. reflexivity.
Defined.

(** *** The echo log holds the last five records *)

Lemma lastn_app_lastn {A} (k : nat) (a b : list A) :
  lastn k (lastn k a ++ b) = lastn k (a ++ b).
Proof.
  unfold lastn. rewrite !length_app, length_drop.
  destruct (Nat.le_gt_cases (length a) k) as [Hle|Hgt].
  - replace (length a - k)%nat with 0%nat by lia. cbn [drop].
    now rewrite Nat.sub_0_r.
  - replace (length a - (length a - k) + length b - k)%nat with (length b) by lia.
    replace (length a + length b - k)%nat
      with ((length a - k) + length b)%nat by lia.
    rewrite <- drop_drop. rewrite (drop_app_le a b (length a - k)) by lia.
    reflexivity.
Qed.

Lemma markTelegramSent_lastn text m :
  (length (sentTexts m) <= 5)%nat ->
  sentTexts (markTelegramSent text m) = lastn 5 (sentTexts m ++ [normalize text]).
Proof.
  intros Hle. rewrite MonitorFacts.markTelegramSent_sentTexts.
  unfold lastn, MAX_SENT_TEXTS. rewrite length_app. cbn [length].
  destruct (Z.gtb_spec (Z.of_nat (length (sentTexts m) + 1)) 5) as [Hgt|Hngt].
  - replace (length (sentTexts m) + 1 - 5)%nat with 1%nat by lia.
    now destruct (sentTexts m ++ [normalize text]).
  - replace (length (sentTexts m) + 1 - 5)%nat with 0%nat by lia. reflexivity.
Qed.

Lemma lastn_length {A} (k : nat) (l : list A) : (length (lastn k l) <= k)%nat.
Proof. unfold lastn. rewrite length_drop. lia. Qed.

Lemma recordAll_lastn texts : forall m,
  (length (sentTexts m) <= 5)%nat ->
  sentTexts (recordAll texts m)
  = lastn 5 (sentTexts m ++ map normalize texts).
Proof.
  induction texts as [|t texts IH]; intros m Hle.
  - cbn [recordAll fold_left map]. rewrite app_nil_r. unfold lastn.
    now replace (length (sentTexts m) - 5)%nat with 0%nat by lia.
  - change (recordAll (t :: texts) m) with (recordAll texts (markTelegramSent t m)).
    rewrite IH.
    + rewrite markTelegramSent_lastn by exact Hle.
      rewrite lastn_app_lastn, <- app_assoc. reflexivity.
    + rewrite markTelegramSent_lastn by exact Hle. apply lastn_length.
Qed.

Lemma lastn_In {A} (k : nat) (l : list A) x : In x (lastn k l) -> In x l.
Proof.
  unfold lastn. intros H. rewrite <- (take_drop (length l - k) l).
  apply in_or_app. now right.
Qed.

(** After any sequence of records the echo log is the last five of all
    normalized texts it was given, oldest first. Hence a text recorded
    before five or more others is no longer taken for an echo, unless one of
    those normalizes to the same string. *)
Theorem echo_log_keeps_last_five (texts : list string) (m : State) :
  (length (sentTexts m) <= 5)%nat ->
  sentTexts (recordAll texts m) = lastn 5 (sentTexts m ++ map normalize texts)
  /\ (forall t,
        (5 <= length texts)%nat ->
        ~ In (normalize t) (map normalize texts) ->
        isTelegramSent t (recordAll texts (markTelegramSent t m))
        = (false, recordAll texts (markTelegramSent t m))).
Proof.
  intros Hle. split; [now apply recordAll_lastn|].
  intros t Hlen Hnin. apply MonitorFacts.isTelegramSent_absent.
  rewrite recordAll_lastn.
  - intros Hin. apply Hnin.
    assert (Hcut : lastn 5 (sentTexts (markTelegramSent t m) ++ map normalize texts)
                   = lastn 5 (map normalize texts)).
    { unfold lastn. rewrite length_app, length_map.
      replace (length (sentTexts (markTelegramSent t m)) + length texts - 5)%nat
        with (length (sentTexts (markTelegramSent t m)) + (length texts - 5))%nat by lia.
      rewrite <- drop_drop, drop_app_length. reflexivity. }
    rewrite Hcut in Hin. now apply lastn_In in Hin.
  - rewrite markTelegramSent_lastn by exact Hle. apply lastn_length.
Qed.

Lemma echo_log_keeps_last_five_witness :
  let later := ["one"; "two"; "three"; "four"; "five"] in
  sentTexts (recordAll later (markTelegramSent "Deploy now" (initial "")))
  = ["one"; "two"; "three"; "four"; "five"]
  /\ fst (isTelegramSent "deploy now"
            (recordAll later (markTelegramSent "Deploy now" (initial "")))) = false.
Proof.
  intros later.
  destruct (echo_log_keeps_last_five later (initial "") ltac:(cbn; lia)) as [_ H].
  split; [reflexivity|].
  change (recordAll later (markTelegramSent "Deploy now" (initial "")))
    with (recordAll later (markTelegramSent "deploy now" (initial ""))).
  rewrite (H "deploy now"); [reflexivity|cbn; lia|].
  vm_compute. intuition discriminate.
Defined.

(** *** The selected cascade *)

Lemma head_sortBy_member (l : TrajectorySummaryMap) e :
  head (sortBy byLastModifiedDesc l) = Some e -> In e l.
Proof.
  intros Hhd. destruct l as [|x r]; [discriminate|].
  destruct (MonitorFacts.head_sortBy_latest (x :: r) ltac:(discriminate))
    as (e' & He' & Hin & _).
  congruence.
Qed.

(** The head of the sorted array is the first of the entries modified
    last: the sort is stable. *)
Lemma head_sortBy_first_latest (pre post : TrajectorySummaryMap) e :
  (forall x, In x pre -> Props.modified x < Props.modified e) ->
  (forall x, In x post -> Props.modified x <= Props.modified e) ->
  head (sortBy byLastModifiedDesc (pre ++ e :: post)) = Some e.
Proof.
  intros Hpre Hpost. induction pre as [|x pre IH]; cbn [app].
  - unfold sortBy. cbn [foldr]. fold (sortBy byLastModifiedDesc post).
    rewrite MonitorFacts.head_insertBy.
    destruct (sortBy byLastModifiedDesc post) as [|y ys] eqn:Hs; [reflexivity|].
    assert (Hy : In y post) by (apply head_sortBy_member; now rewrite Hs).
    specialize (Hpost y Hy). unfold byLastModifiedDesc, Props.modified in *.
    destruct (Z.leb_spec (lastModifiedTime (snd y) - lastModifiedTime (snd e)) 0);
      [reflexivity|lia].
  - unfold sortBy. cbn [foldr]. fold (sortBy byLastModifiedDesc (pre ++ e :: post)).
    rewrite MonitorFacts.head_insertBy.
    assert (IH' : head (sortBy byLastModifiedDesc (pre ++ e :: post)) = Some e).
    { apply IH. intros y Hy. apply Hpre. now right. }
    destruct (sortBy byLastModifiedDesc (pre ++ e :: post)) as [|y ys];
      [discriminate|].
    cbn in IH'. injection IH' as ->.
    specialize (Hpre x (or_introl eq_refl)).
    unfold byLastModifiedDesc, Props.modified in *.
    destruct (Z.leb_spec (lastModifiedTime (snd e) - lastModifiedTime (snd x)) 0);
      [lia|reflexivity].
Qed.

(** [findActiveCascade] gives nothing only for an empty map. Among
    entries modified at the same latest time the one that comes first in the
    map is chosen, both among the entries of the open workspace and, when
    none matches and none is running, among all entries. *)
Theorem findActiveCascade_none_and_ties (ws : string) (summaries : TrajectorySummaryMap) :
  (findActiveCascade ws summaries = None <-> summaries = [])
  /\ (forall pre e post,
        ws <> "" ->
        List.filter (inWorkspace ws) summaries = pre ++ e :: post ->
        (forall x, In x pre -> Props.modified x < Props.modified e) ->
        (forall x, In x post -> Props.modified x <= Props.modified e) ->
        findActiveCascade ws summaries = Some e)
  /\ (forall pre e post,
        ws = "" \/ List.filter (inWorkspace ws) summaries = [] ->
        List.find isRunning summaries = None ->
        summaries = pre ++ e :: post ->
        (forall x, In x pre -> Props.modified x < Props.modified e) ->
        (forall x, In x post -> Props.modified x <= Props.modified e) ->
        findActiveCascade ws summaries = Some e).
Proof.
  split; [|split].
  - split.
    + intros Hnone. destruct summaries as [|x r]; [reflexivity|]. exfalso.
      unfold findActiveCascade in Hnone. cbn [length] in Hnone.
      replace (Z.of_nat (S (length r)) =? 0) with false in Hnone
        by (symmetry; apply Z.eqb_neq; lia).
      set (matching := if negb (String.eqb ws "")
                       then List.filter (inWorkspace ws) (x :: r) else []) in *.
      destruct matching as [|y ys] eqn:Hm.
      * cbn [length] in Hnone. change (Z.of_nat 0 >? 0) with false in Hnone.
        cbv iota in Hnone.
        destruct (List.find isRunning (x :: r)); [discriminate|].
        destruct (MonitorFacts.head_sortBy_latest (x :: r) ltac:(discriminate))
          as (e & He & _). congruence.
      * replace (Z.of_nat (length (y :: ys)) >? 0) with true in Hnone
          by (symmetry; cbn [length]; apply Z.gtb_lt; lia).
        destruct (MonitorFacts.head_sortBy_latest (y :: ys) ltac:(discriminate))
          as (e & He & _). congruence.
    + intros ->. reflexivity.
  - intros pre e post Hws Hm Hpre Hpost. unfold findActiveCascade.
    assert (Hne : summaries <> []).
    { intros ->. cbn in Hm. now destruct pre. }
    replace (Z.of_nat (length summaries) =? 0) with false
      by (symmetry; apply Z.eqb_neq; destruct summaries; [congruence|cbn; lia]).
    destruct (String.eqb_spec ws ""); [contradiction|]. cbn [negb]. rewrite Hm.
    replace (Z.of_nat (length (pre ++ e :: post)) >? 0) with true
      by (symmetry; apply Z.gtb_lt; rewrite length_app; cbn [length]; lia).
    now apply head_sortBy_first_latest.
  - intros pre e post Hno Hrun Hs Hpre Hpost. unfold findActiveCascade.
    replace (Z.of_nat (length summaries) =? 0) with false
      by (symmetry; apply Z.eqb_neq; rewrite Hs, length_app; cbn [length]; lia).
    assert (Hm : (if negb (String.eqb ws "")
                  then List.filter (inWorkspace ws) summaries else []) = []).
    { destruct Hno as [->|Hm]; [reflexivity|]. rewrite Hm.
      now destruct (negb (String.eqb ws "")). }
    rewrite Hm. cbn [length]. change (Z.of_nat 0 >? 0) with false. cbv iota.
    rewrite Hrun, Hs.
    now apply head_sortBy_first_latest.
Qed.

(** Two idle conversations modified at the same instant, after an older
    one: the first of the two in map order is selected. *)
Lemma findActiveCascade_none_and_ties_witness :
  findActiveCascade ""
    [ ("a", Props.summaryOf 1 100 "CASCADE_RUN_STATUS_IDLE" []);
      ("b", Props.summaryOf 2 900 "CASCADE_RUN_STATUS_IDLE" []);
      ("c", Props.summaryOf 3 900 "CASCADE_RUN_STATUS_IDLE" []) ]
  = Some ("b", Props.summaryOf 2 900 "CASCADE_RUN_STATUS_IDLE" []).
Proof.
  apply (proj2 (proj2 (findActiveCascade_none_and_ties "" _))
           [("a", Props.summaryOf 1 100 "CASCADE_RUN_STATUS_IDLE" [])]
           ("b", Props.summaryOf 2 900 "CASCADE_RUN_STATUS_IDLE" [])
           [("c", Props.summaryOf 3 900 "CASCADE_RUN_STATUS_IDLE" [])]).
  - now left.
  - reflexivity.
  - reflexivity.
  - intros x [<-|[]]. cbn. lia.
  - intros x [<-|[]]. cbn. lia.
Defined.

End MonitorMore.

(** ** Properties of the agent commands and of the diagnostics watch *)

Module AgentMore.
Import Bridge Agent.

(** Each command method answers true exactly when the host command it
    relies on went through, and only then touches the activity tracker:
    [sendPrompt] and [acceptStep] start a prompt, [startNewConversation] and
    [rejectStep] end it; on false the bridge is as before. [sendPrompt]
    goes through the agent panel and falls back to the chat command only
    when opening the panel or sending to it failed. *)
Theorem agent_commands_update_tracking (now : Z) (host : CommandHost) (b : State) :
  (ok (sendPrompt now host b) = true <->
   (host "antigravity.openAgent" = Resolved tt
    /\ host "antigravity.sendPromptToAgentPanel" = Resolved tt)
   \/ host "antigravity.sendTextToChat" = Resolved tt)
  /\ bridgeAfter (sendPrompt now host b)
     = (if ok (sendPrompt now host b) then resetActivityTracking now b else b)
  /\ (In "antigravity.sendTextToChat" (issued (sendPrompt now host b)) <->
      ~ (host "antigravity.openAgent" = Resolved tt
         /\ host "antigravity.sendPromptToAgentPanel" = Resolved tt))
  /\ (ok (acceptStep now host b) = true <->
      host "antigravity.agent.acceptAgentStep" = Resolved tt)
  /\ bridgeAfter (acceptStep now host b)
     = (if ok (acceptStep now host b) then resetActivityTracking now b else b)
  /\ (ok (rejectStep host b) = true <->
      host "antigravity.agent.rejectAgentStep" = Resolved tt)
  /\ bridgeAfter (rejectStep host b)
     = (if ok (rejectStep host b) then clearActivityTracking b else b)
  /\ (ok (startNewConversation host b) = true <->
      host "antigravity.startNewConversation" = Resolved tt)
  /\ bridgeAfter (startNewConversation host b)
     = (if ok (startNewConversation host b) then clearActivityTracking b else b).
Proof.
  unfold sendPrompt, sendTextFallback, acceptStep, rejectStep, startNewConversation.
  destruct (host "antigravity.openAgent") as [[]|e1];
    destruct (host "antigravity.sendPromptToAgentPanel") as [[]|e2];
    destruct (host "antigravity.sendTextToChat") as [[]|e3];
    destruct (host "antigravity.agent.acceptAgentStep") as [[]|e4];
    destruct (host "antigravity.agent.rejectAgentStep") as [[]|e5];
    destruct (host "antigravity.startNewConversation") as [[]|e6];
    cbn; repeat split; intros; try reflexivity; try discriminate;
    try tauto; try (intuition (try discriminate; try congruence)).
Qed.

(** The panel cannot be opened, the chat command works: the prompt counts
    as sent and tracking starts at the time of the call. *)
Lemma agent_commands_update_tracking_witness :
  let host : CommandHost :=
    fun id => if String.eqb id "antigravity.sendTextToChat"
              then Resolved tt else Rejected "command not found" in
  ok (sendPrompt 700 host initial) = true
  /\ bridgeAfter (sendPrompt 700 host initial) = resetActivityTracking 700 initial
  /\ ok (rejectStep host (resetActivityTracking 700 initial)) = false
  /\ bridgeAfter (rejectStep host (resetActivityTracking 700 initial))
     = resetActivityTracking 700 initial.
Proof.
  intros host.
  destruct (agent_commands_update_tracking 700 host initial)
    as (Hok & Hafter & _).
  destruct (agent_commands_update_tracking 700 host (resetActivityTracking 700 initial))
    as (_ & _ & _ & _ & _ & _ & Hrej & _).
  assert (H1 : ok (sendPrompt 700 host initial) = true).
  { apply Hok. right. reflexivity. }
  split; [exact H1|]. split; [now rewrite Hafter, H1|].
  split; [reflexivity|]. rewrite Hrej. reflexivity.
Defined.

(** *** Diagnostics *)

Lemma diagnosticsOf_table now host uri w :
  lastDiagnostics (fst (diagnosticsOf now host uri w))
  = <[uri := length (errorsOf host uri)]> (lastDiagnostics w).
Proof.
  unfold diagnosticsOf.
  now destruct (_ <? _)%nat.
Qed.

Lemma diagnosticsOf_known now host uri w :
  lastDiagnostics w !! uri = Some (length (errorsOf host uri)) ->
  diagnosticsOf now host uri w = (w, []).
Proof.
  intros Hk. unfold diagnosticsOf. rewrite Hk.
  cbn [from_option id]. rewrite Nat.ltb_irrefl, insert_id by exact Hk.
  now destruct w.
Qed.

Lemma onDidChangeDiagnostics_known now host uris : forall w,
  (forall uri, In uri uris ->
               lastDiagnostics w !! uri = Some (length (errorsOf host uri))) ->
  onDidChangeDiagnostics now host uris w = (w, []).
Proof.
  induction uris as [|uri rest IH]; intros w Hk; [reflexivity|].
  cbn [onDidChangeDiagnostics].
  rewrite diagnosticsOf_known by (apply Hk; now left).
  rewrite IH by (intros u Hu; apply Hk; now right). reflexivity.
Qed.

Lemma onDidChangeDiagnostics_keeps now host uris : forall w uri,
  lastDiagnostics w !! uri = Some (length (errorsOf host uri)) ->
  lastDiagnostics (fst (onDidChangeDiagnostics now host uris w)) !! uri
  = Some (length (errorsOf host uri)).
Proof.
  induction uris as [|u rest IH]; intros w uri Hk; [exact Hk|].
  cbn [onDidChangeDiagnostics].
  pose proof (diagnosticsOf_table now host u w) as Ht.
  destruct (diagnosticsOf now host u w) as [w1 e1]. cbn [fst] in Ht.
  specialize (IH w1 uri).
  destruct (onDidChangeDiagnostics now host rest w1) as [w2 e2]. cbn [fst] in *.
  apply IH. rewrite Ht. destruct (decide (u = uri)) as [->|Hne].
  - now rewrite lookup_insert_eq.
  - now rewrite lookup_insert_ne.
Qed.

Lemma onDidChangeDiagnostics_records now host uris : forall w uri,
  In uri uris ->
  lastDiagnostics (fst (onDidChangeDiagnostics now host uris w)) !! uri
  = Some (length (errorsOf host uri)).
Proof.
  induction uris as [|u rest IH]; intros w uri Hin; [destruct Hin|].
  cbn [onDidChangeDiagnostics].
  pose proof (diagnosticsOf_table now host u w) as Ht.
  pose proof (onDidChangeDiagnostics_keeps now host rest
                (fst (diagnosticsOf now host u w)) uri) as Hkeep.
  specialize (IH (fst (diagnosticsOf now host u w)) uri).
  destruct (diagnosticsOf now host u w) as [w1 e1]. cbn [fst] in *.
  destruct (onDidChangeDiagnostics now host rest w1) as [w2 e2]. cbn [fst] in *.
  destruct (decide (u = uri)) as [->|Hne].
  - apply Hkeep. rewrite Ht. now rewrite lookup_insert_eq.
  - destruct Hin as [Heq|Hin]; [contradiction|]. now apply IH.
Qed.

(** For one file the handler reports the errors beyond the number it saw
    last time, in order, each as an [error] event with the relative path,
    the line counted from 1 and the message, and stores the new number. The
    same diagnostics delivered again, for any list of files, report nothing
    and change nothing. *)
Theorem diagnostics_report_new_errors_once (now now' : Z) (host : DiagnosticsHost)
  (uris : list string) (w : Watch) :
  (forall uri,
     snd (diagnosticsOf now host uri w)
     = map (errorEvent now (asRelativePath host uri))
           (drop (default 0%nat (lastDiagnostics w !! uri)) (errorsOf host uri))
     /\ lastDiagnostics (fst (diagnosticsOf now host uri w))
        = <[uri := length (errorsOf host uri)]> (lastDiagnostics w))
  /\ onDidChangeDiagnostics now' host uris
       (fst (onDidChangeDiagnostics now host uris w))
     = (fst (onDidChangeDiagnostics now host uris w), []).
Proof.
  split.
  - intros uri. split; [|apply diagnosticsOf_table].
    unfold diagnosticsOf.
    destruct (Nat.ltb_spec (default 0%nat (lastDiagnostics w !! uri))
                (length (errorsOf host uri))) as [Hlt|Hge]; [reflexivity|].
    cbn [snd]. now rewrite drop_ge by lia.
  - apply onDidChangeDiagnostics_known. intros uri Hin.
    now apply onDidChangeDiagnostics_records.
Qed.

End AgentMore.

(** ** Properties of the client's HTTP calls and of discovery *)

Module HttpMore.
Import Http.

Lemma apiCall_undiscovered st o :
  discovered st = false -> apiCall st o = (JNull, st).
Proof. intros H. unfold apiCall. now rewrite H. Qed.

Lemma apiCalls_undiscovered outcomes : forall st,
  discovered st = false ->
  apiCalls st outcomes = (map (fun _ => JNull) outcomes, st).
Proof.
  induction outcomes as [|o rest IH]; intros st H; [reflexivity|].
  cbn [apiCalls map]. rewrite apiCall_undiscovered by exact H.
  now rewrite IH.
Qed.

Lemma apiCall_drops st o :
  discovered st = true -> dropsDiscovery o = true ->
  apiCall st o = (JNull, setDiscovered false st).
Proof.
  intros Hd Ho. unfold apiCall. rewrite Hd. cbn [negb].
  destruct o as [code data|msg|[|]]; cbn [dropsDiscovery] in Ho;
    try discriminate; try reflexivity.
  rewrite Ho.
  destruct (Z.eqb_spec code 200) as [->|_]; [discriminate Ho|reflexivity].
Qed.

Lemma apiCalls_app st o1 o2 :
  apiCalls st (o1 ++ o2) =
  let '(v1, st1) := apiCalls st o1 in
  let '(v2, st2) := apiCalls st1 o2 in
  (v1 ++ v2, st2).
Proof.
  revert st. induction o1 as [|o o1 IH]; intros st; cbn [apiCalls app].
  - now destruct (apiCalls st o2).
  - destruct (apiCall st o) as [v st1]. rewrite IH.
    destruct (apiCalls st1 o1) as [v1 st2]. now destruct (apiCalls st2 o2).
Qed.

(** A call resolves to something other than [null] only when the client
    is discovered and the response has status 200 and a body that parses,
    and then the client is unchanged. A 401, a 403 or a connection error
    makes the client undiscovered; from then on every call resolves to
    [null] without a request, whatever the server would answer. *)
Theorem client_null_until_rediscovery (st : ClientState)
  (before after : list HttpOutcome) (bad : HttpOutcome) :
  (forall o, fst (apiCall st o) <> JNull ->
     discovered st = true
     /\ snd (apiCall st o) = st
     /\ exists data, o = HttpResponse 200 data
                     /\ JSON_parse data = Some (fst (apiCall st o)))
  /\ (dropsDiscovery bad = true ->
      let results := fst (apiCalls st (before ++ bad :: after)) in
      drop (length before) results = map (fun _ => JNull) (bad :: after)
      /\ discovered (snd (apiCalls st (before ++ bad :: after))) = false).
Proof.
  split.
  - intros o Hnn. unfold apiCall in *.
    destruct (discovered st); cbn [negb] in *; [|now cbn in Hnn].
    destruct o as [code data|msg|te]; cbn [fst snd] in *; try now cbn in Hnn.
    destruct (Z.eqb_spec code 200) as [->|Hne]; cbn [negb] in *.
    + destruct (JSON_parse data) as [v|] eqn:Hp; cbn [fst snd] in *;
        [|now cbn in Hnn].
      split; [reflexivity|]. split; [reflexivity|]. exists data. now split.
    + destruct ((code =? 401) || (code =? 403)); now cbn in Hnn.
  - intros Hbad results. subst results. rewrite apiCalls_app.
    destruct (apiCalls st before) as [v1 st1] eqn:Hb.
    assert (Hlen : length v1 = length before).
    { clear -Hb. revert st v1 st1 Hb.
      induction before as [|o rest IH]; intros st v1 st1 Hb; cbn [apiCalls] in Hb.
      - now injection Hb as <- _.
      - destruct (apiCall st o) as [v st']. destruct (apiCalls st' rest) as [vs st'']
          eqn:Hr. injection Hb as <- _. cbn [length]. f_equal. eapply IH. exact Hr. }
    assert (Htail : apiCalls st1 (bad :: after)
                    = (map (fun _ => JNull) (bad :: after),
                       setDiscovered false st1)).
    { destruct (discovered st1) eqn:Hd.
      - cbn [apiCalls]. rewrite (apiCall_drops st1 bad Hd Hbad).
        now rewrite apiCalls_undiscovered.
      - rewrite apiCalls_undiscovered by exact Hd. destruct st1. cbn in Hd. now subst. }
    rewrite Htail. cbn [fst snd]. split; [|reflexivity].
    now rewrite <- Hlen, drop_app_length.
Qed.

(** A working call, a 403, then two calls the server would have served. *)
Lemma client_null_until_rediscovery_witness :
  let st := {| csrfToken := "t"; httpPort := 4000; discovered := true |} in
  let outcomes := [HttpResponse 200 "[1]"; HttpResponse 403 "";
                   HttpResponse 200 "[2]"; HttpResponse 200 "[3]"] in
  drop 1 (fst (apiCalls st outcomes)) = [JNull; JNull; JNull]
  /\ discovered (snd (apiCalls st outcomes)) = false.
Proof.
  intros st outcomes.
  apply (proj2 (client_null_until_rediscovery st [HttpResponse 200 "[1]"]
                  [HttpResponse 200 "[2]"; HttpResponse 200 "[3]"]
                  (HttpResponse 403 ""))).
  reflexivity.
Defined.

Lemma firstHttpPort_first probes token pre port post :
  (forall p, In p pre -> testHttpPort probes token p = Resolved false) ->
  testHttpPort probes token port = Resolved true ->
  firstHttpPort probes token (pre ++ port :: post) = Some (Some port).
Proof.
  intros Hpre Hport. induction pre as [|p pre IH]; cbn [app firstHttpPort].
  - now rewrite Hport.
  - rewrite (Hpre p (or_introl eq_refl)). apply IH.
    intros q Hq. apply Hpre. now right.
Qed.

(** Discovery answers true exactly when it ends discovered. It takes the
    first listening port, in the order given, that answers the test request
    made with the token of the process found; when it fails the client is
    undiscovered, also if it was discovered before, and the port it had is
    kept. *)
Theorem discover_takes_first_answering_port (probes : Probes) (st : ClientState) :
  fst (discover probes st) = discovered (snd (discover probes st))
  /\ (fst (discover probes st) = false ->
      httpPort (snd (discover probes st)) = httpPort st)
  /\ (forall pid token pre port post,
        findLSProcess probes = Resolved (Some (pid, token)) ->
        getListeningPorts probes pid = Resolved (pre ++ port :: post) ->
        (forall p, In p pre -> testHttpPort probes token p = Resolved false) ->
        testHttpPort probes token port = Resolved true ->
        discover probes st
        = (true, {| csrfToken := token; httpPort := port; discovered := true |})).
Proof.
  split; [|split].
  - unfold discover.
    destruct (findLSProcess probes) as [[[pid token]|]|e]; try reflexivity.
    destruct (getListeningPorts probes pid) as [ports|e]; try reflexivity.
    destruct (Z.of_nat (length ports) =? 0); [reflexivity|].
    now destruct (firstHttpPort probes token ports) as [[port|]|].
  - unfold discover.
    destruct (findLSProcess probes) as [[[pid token]|]|e]; try reflexivity.
    destruct (getListeningPorts probes pid) as [ports|e]; try reflexivity.
    destruct (Z.of_nat (length ports) =? 0); [reflexivity|].
    destruct (firstHttpPort probes token ports) as [[port|]|]; try reflexivity.
    discriminate.
  - intros pid token pre port post Hfind Hports Hpre Hport. unfold discover.
    rewrite Hfind, Hports.
    replace (Z.of_nat (length (pre ++ port :: post)) =? 0) with false
      by (symmetry; apply Z.eqb_neq; rewrite length_app; cbn [length]; lia).
    now rewrite (firstHttpPort_first probes token pre port post Hpre Hport).
Qed.

(** Three listening ports, of which the second and the third answer. *)
Lemma discover_takes_first_answering_port_witness :
  let probes := {| findLSProcess := Resolved (Some (4242, "abc-123"));
                   getListeningPorts := fun _ => Resolved [5001; 5002; 5003];
                   testHttpPort := fun _ port => Resolved (5002 <=? port) |} in
  discover probes {| csrfToken := ""; httpPort := 0; discovered := false |}
  = (true, {| csrfToken := "abc-123"; httpPort := 5002; discovered := true |}).
Proof.
  intros probes.
  apply (proj2 (proj2 (discover_takes_first_answering_port probes _))
           4242 "abc-123" [5001] 5002 [5003]); try reflexivity.
  intros p [<-|[]]. reflexivity.
Defined.

End HttpMore.

(** ** Properties of the bot's buffer and of its escaping *)

Module TelegramMore.
Import Telegram Terms.

Lemma bufferEvent_lastn {E} (ev : E) (buf : list E) :
  (length buf <= 200)%nat ->
  bufferEvent false ev buf = lastn 200 (buf ++ [ev]).
Proof.
  intros Hle. unfold bufferEvent, lastn, MAX_EVENT_BUFFER.
  rewrite length_app. cbn [length].
  destruct (Z.geb_spec (Z.of_nat (length buf)) 200) as [Hge|Hlt].
  - replace (length buf + 1 - 200)%nat with 1%nat by lia.
    destruct buf; [cbn in Hge; lia|reflexivity].
  - now replace (length buf + 1 - 200)%nat with 0%nat by lia.
Qed.

Lemma bufferAll_lastn {E} (events : list E) : forall buf,
  (length buf <= 200)%nat ->
  bufferAll false events buf = lastn 200 (buf ++ events).
Proof.
  induction events as [|ev events IH]; intros buf Hle.
  - cbn. rewrite app_nil_r. unfold lastn.
    now replace (length buf - 200)%nat with 0%nat by lia.
  - change (bufferAll false (ev :: events) buf)
      with (bufferAll false events (bufferEvent false ev buf)).
    rewrite IH.
    + rewrite bufferEvent_lastn by exact Hle.
      now rewrite MonitorMore.lastn_app_lastn, <- app_assoc.
    + rewrite bufferEvent_lastn by exact Hle. apply MonitorMore.lastn_length.
Qed.

(** The bot's buffer never holds more than 200 events: after any run of
    events it is the last 200 of what it held and what arrived, in order of
    arrival; while the bot is muted arriving events are dropped. *)
Theorem event_buffer_keeps_last_200 {E} (events buf : list E) :
  (length buf <= 200)%nat ->
  bufferAll false events buf = lastn 200 (buf ++ events)
  /\ (length (bufferAll false events buf) <= 200)%nat
  /\ bufferAll true events buf = buf.
Proof.
  intros Hle. split; [now apply bufferAll_lastn|]. split.
  - rewrite bufferAll_lastn by exact Hle. apply MonitorMore.lastn_length.
  - induction events as [|ev events IH]; [reflexivity|]. exact IH.
Qed.

(** A full buffer that receives three more events. *)
Lemma event_buffer_keeps_last_200_witness :
  let events := [201; 202; 203]%nat in
  let buf := seq 1 200 in
  bufferAll false events buf = lastn 200 (buf ++ events)
  /\ (length (bufferAll false events buf) <= 200)%nat
  /\ bufferAll true events buf = buf.
Proof.
  intros events buf. apply event_buffer_keeps_last_200.
  subst buf. rewrite length_seq. lia.
Defined.

Lemma special_is_markdown_char c :
  isMarkdownSpecial c = true -> isMarkdownChar c = true.
Proof.
  unfold isMarkdownSpecial, isMarkdownChar.
  destruct (code c =? 42), (code c =? 95), (code c =? 96), (code c =? 91);
    cbn; intros H; try reflexivity; discriminate.
Qed.

Lemma wellEscaped_escape text : forall escaped,
  wellEscaped escaped (escapeMarkdown text) = true.
Proof.
  induction text as [|c r IH]; intros escaped; [reflexivity|].
  cbn [escapeMarkdown]. destruct (isMarkdownSpecial c) eqn:Hc.
  - cbn [wellEscaped]. rewrite Hc, IH.
    change (isMarkdownSpecial (chr 92)) with false.
    change (code (chr 92) =? 92) with true. reflexivity.
  - cbn [wellEscaped]. now rewrite Hc, IH.
Qed.

(** In an escaped text every [*], [_], backquote and [[] stands right
    after a backslash; a text without these characters is left as it is;
    and the plain-text retry of an escaped text is that of the text itself. *)
Theorem escapeMarkdown_escapes (text : string) :
  wellEscaped false (escapeMarkdown text) = true
  /\ (hasSpecial text = false -> escapeMarkdown text = text)
  /\ stripMarkdown (escapeMarkdown text) = stripMarkdown text.
Proof.
  split; [apply wellEscaped_escape|]. split.
  - induction text as [|c r IH]; [reflexivity|]. cbn [hasSpecial escapeMarkdown].
    destruct (isMarkdownSpecial c); [discriminate|]. cbn [orb].
    intros H. now rewrite IH.
  - induction text as [|c r IH]; [reflexivity|]. cbn [escapeMarkdown].
    destruct (isMarkdownSpecial c) eqn:Hc.
    + cbn [stripMarkdown]. change (isMarkdownChar (chr 92)) with true. cbv iota.
      now rewrite (special_is_markdown_char c Hc).
    + cbn [stripMarkdown]. now rewrite IH.
Qed.

Lemma escapeMarkdown_escapes_witness :
  escapeMarkdown "src/app.ts" = "src/app.ts".
Proof.
  apply (proj1 (proj2 (escapeMarkdown_escapes "src/app.ts"))). reflexivity.
Defined.

End TelegramMore.

(** ** Properties of the bot's authorisation and of its flush *)

Module BotMore.
Import Telegram.

(** While no chat id is configured nobody is authorised, nor is an update
    without a chat; and whatever is configured, the chats that are authorised
    have one and the same id. *)
Theorem authorized_chat_is_unique (allowedId : string) (c1 c2 : Z) :
  isAuthorized "" (Some c1) = false
  /\ isAuthorized allowedId None = false
  /\ (isAuthorized allowedId (Some c1) = true ->
      isAuthorized allowedId (Some c2) = true -> c1 = c2).
Proof.
  split; [reflexivity|]. split.
  - unfold isAuthorized. now destruct (String.eqb allowedId "").
  - unfold isAuthorized. destruct (String.eqb allowedId ""); [discriminate|].
    intros H1 H2. apply String.eqb_eq in H1, H2.
    apply (inj pretty). congruence.
Qed.

(** A group chat, whose id is negative. *)
Lemma authorized_chat_is_unique_witness :
  isAuthorized "-1001234" (Some (-1001234)) = true /\ -1001234 = -1001234.
Proof.
  split; [reflexivity|].
  apply (proj2 (proj2 (authorized_chat_is_unique "-1001234" (-1001234) (-1001234))));
    reflexivity.
Defined.

Lemma grouped_filter t events :
  grouped t (List.filter (isType t) events) = grouped t events.
Proof.
  unfold grouped. f_equal. induction events as [|ev evs IH]; [reflexivity|].
  cbn [List.filter]. destruct (isType t ev) eqn:Ht; [|exact IH].
  cbn [List.filter]. now rewrite Ht, IH.
Qed.

Lemma grouped_In t events ev :
  In ev events -> Bridge.type ev = t -> grouped t events <> [].
Proof.
  intros Hin Ht. unfold grouped.
  assert (Hf : In ev (List.filter (isType t) events)).
  { apply filter_In. split; [exact Hin|]. unfold isType. rewrite Ht. now destruct t. }
  destruct (List.filter (isType t) events); [destruct Hf|discriminate].
Qed.

Lemma nonempty_length {A} (l : list A) : l <> [] -> (Z.of_nat (length l) =? 0) = false.
Proof. destruct l; [congruence|reflexivity]. Qed.

Section FlushFacts.
Variable sanitize : string -> string.
Variable sendMessage : Message -> Awaited unit.

(** With a chat configured, a flush whose buffer holds a step request
    sends one message only: the requests, escaped, with the keyboard. The
    buffer is emptied, so what else it held (file changes, terminal output,
    errors, notices) is not sent by this flush or a later one: the flush does
    what it would do had the buffer held the step requests alone. *)
Theorem step_request_flush_drops_the_rest (chatId : string)
  (eventBuffer : list Bridge.AgentEvent) (request : Bridge.AgentEvent) :
  chatId <> "" ->
  In request eventBuffer ->
  Bridge.type request = Bridge.step_request ->
  flushEvents sanitize sendMessage chatId eventBuffer
  = ([], [ {| text := stepRequestText (grouped Bridge.step_request eventBuffer);
              parseMarkdown := true; withKeyboard := true |} ])
  /\ flushEvents sanitize sendMessage chatId eventBuffer
     = flushEvents sanitize sendMessage chatId
         (List.filter (isType Bridge.step_request) eventBuffer).
Proof.
  intros Hchat Hin Ht.
  assert (Hflush : forall buf, grouped Bridge.step_request buf <> [] ->
            flushEvents sanitize sendMessage chatId buf
            = ([], [ {| text := stepRequestText (grouped Bridge.step_request buf);
                        parseMarkdown := true; withKeyboard := true |} ])).
  { intros buf Hg. unfold flushEvents.
    assert (Hbuf : buf <> []) by (intros ->; now apply Hg).
    rewrite (nonempty_length buf Hbuf).
    apply String.eqb_neq in Hchat. rewrite Hchat.
    destruct (grouped Bridge.step_request buf); [congruence|reflexivity]. }
  pose proof (grouped_In _ _ _ Hin Ht) as Hg.
  split; [now apply Hflush|].
  rewrite (Hflush eventBuffer Hg), Hflush; rewrite grouped_filter; [reflexivity|exact Hg].
Qed.

Lemma plain_strip text : plain (stripMarkdown text) = true.
Proof.
  induction text as [|c r IH]; [reflexivity|]. cbn [stripMarkdown].
  destruct (isMarkdownChar c) eqn:Hc; [exact IH|]. cbn [plain]. now rewrite Hc, IH.
Qed.

Lemma partOf_nil f group : partOf f group = [] -> group = [].
Proof. now destruct group. Qed.

Lemma partsOf_nonempty events :
  events <> [] -> grouped Bridge.step_request events = [] ->
  partsOf sanitize events <> [].
Proof.
  destruct events as [|ev rest]; [congruence|]. intros _ Hsteps Hparts.
  assert (Hin : In ev (ev :: rest)) by now left.
  unfold partsOf in Hparts.
  apply app_eq_nil in Hparts as [Hfile Hparts].
  apply app_eq_nil in Hparts as [Hterm Hparts].
  apply app_eq_nil in Hparts as [Herr Hinfo].
  apply partOf_nil in Hfile, Hterm, Herr, Hinfo.
  destruct (Bridge.type ev) eqn:Ht;
    eapply grouped_In; try exact Hin; try exact Ht; eassumption.
Qed.

(** A flush does nothing while no chat is configured, and keeps the
    buffer. With a chat, a buffer that holds events but no step request is
    emptied and one Markdown message is tried; if that is refused one more
    message is tried, without parse mode, whose text is the first one's with
    the Markdown characters removed. Nothing is tried after that, so a flush
    whose two messages both fail has lost the events. *)
Theorem flush_retries_once_as_plain_text (chatId : string)
  (eventBuffer : list Bridge.AgentEvent) :
  flushEvents sanitize sendMessage "" eventBuffer = (eventBuffer, [])
  /\ (chatId <> "" -> eventBuffer <> [] ->
      grouped Bridge.step_request eventBuffer = [] ->
      let first := {| text := String.concat (nl +:+ nl) (partsOf sanitize eventBuffer);
                      parseMarkdown := true; withKeyboard := false |} in
      let retry := {| text := stripMarkdown (text first);
                      parseMarkdown := false; withKeyboard := false |} in
      plain (text retry) = true
      /\ flushEvents sanitize sendMessage chatId eventBuffer
         = ([], match sendMessage first with
                | Resolved _ => [first]
                | Rejected _ => [first; retry]
                end)).
Proof.
  split.
  - unfold flushEvents. now destruct (Z.of_nat (length eventBuffer) =? 0).
  - intros Hchat Hbuf Hsteps first retry. split; [apply plain_strip|].
    unfold flushEvents. rewrite (nonempty_length _ Hbuf).
    apply String.eqb_neq in Hchat. rewrite Hchat, Hsteps.
    rewrite (nonempty_length _ (partsOf_nonempty _ Hbuf Hsteps)).
    fold first. now destruct (sendMessage first).
Qed.

End FlushFacts.

(** A file change, a step request and an error in one buffer. *)
Lemma step_request_flush_drops_the_rest_witness :
  let change := {| Bridge.type := Bridge.file_change;
                   Bridge.content := "Modified: src/a_b.ts"; Bridge.timestamp := 1 |} in
  let request := {| Bridge.type := Bridge.step_request;
                    Bridge.content := "run [npm test]"; Bridge.timestamp := 2 |} in
  let failure := {| Bridge.type := Bridge.error;
                    Bridge.content := "src/a_b.ts:3: oops"; Bridge.timestamp := 3 |} in
  let flush := flushEvents (fun s => s) (fun _ => Resolved tt) "42" in
  flush [change; request; failure]
  = ([], [ {| text := stepRequestText ["run [npm test]"];
              parseMarkdown := true; withKeyboard := true |} ])
  /\ flush [change; request; failure] = flush [request].
Proof.
  intros change request failure flush.
  apply (step_request_flush_drops_the_rest (fun s => s) (fun _ => Resolved tt) "42"
           [change; request; failure] request).
  - discriminate.
  - right. now left.
  - reflexivity.
Defined.

(** A file change whose Markdown message the server refuses. *)
Lemma flush_retries_once_as_plain_text_witness :
  let change := {| Bridge.type := Bridge.file_change;
                   Bridge.content := "Modified: src/a_b.ts"; Bridge.timestamp := 1 |} in
  let refuseMarkdown := fun m : Message =>
    if parseMarkdown m then Rejected "can't parse entities" else Resolved tt in
  let first := {| text := String.concat (nl +:+ nl) (partsOf (fun s => s) [change]);
                  parseMarkdown := true; withKeyboard := false |} in
  let retry := {| text := stripMarkdown (text first);
                  parseMarkdown := false; withKeyboard := false |} in
  plain (text retry) = true
  /\ flushEvents (fun s => s) refuseMarkdown "42" [change] = ([], [first; retry]).
Proof.
  intros change refuseMarkdown first retry.
  apply (proj2 (flush_retries_once_as_plain_text (fun s => s) refuseMarkdown "42"
                  [change])).
  - discriminate.
  - discriminate.
  - reflexivity.
Defined.

End BotMore.

(** ** Properties of the processing of new steps *)

Module StepsMore.
Import LS Monitor Terms.

Lemma indexOf_bound x l idx : indexOf x l = Some idx -> (idx < length l)%nat.
Proof.
  revert idx. induction l as [|y rest IH]; intros idx; cbn [indexOf]; [discriminate|].
  destruct (String.eqb y x).
  - intros [= <-]. cbn. lia.
  - destruct (indexOf x rest) as [j|]; [|discriminate].
    intros [= <-]. specialize (IH j eq_refl). cbn. lia.
Qed.

Lemma length_delete_lt {A} (l : list A) idx :
  (idx < length l)%nat -> S (length (delete idx l)) = length l.
Proof.
  revert idx. induction l as [|y rest IH]; intros idx H; cbn in *; [lia|].
  destruct idx; [reflexivity|]. cbn. rewrite IH by lia. reflexivity.
Qed.

Lemma handleUserInput_budget now step m :
  let '(m', evs) := handleUserInput now step m in
  m' = set_sentTexts (sentTexts m') m
  /\ sublist (sentTexts m') (sentTexts m)
  /\ (length evs + length (sentTexts m) <= 1 + length (sentTexts m'))%nat
  /\ forallb isAgentOrGui evs = true.
Proof.
  unfold handleUserInput.
  assert (Hsame : m = set_sentTexts (sentTexts m) m
                  /\ sublist (sentTexts m) (sentTexts m)
                  /\ (length (@nil TrajectoryEvent) + length (sentTexts m)
                      <= 1 + length (sentTexts m))%nat
                  /\ forallb isAgentOrGui [] = true).
  { rewrite MonitorFacts.set_sentTexts_same. repeat split; [reflexivity|cbn; lia]. }
  destruct (userInput step) as [ui|]; [|exact Hsame].
  destruct (String.eqb _ ""); [exact Hsame|].
  destruct (test_ci _ _); [exact Hsame|].
  unfold isTelegramSent.
  destruct (indexOf _ (sentTexts m)) as [idx|] eqn:Hidx.
  - cbn [sentTexts set_sentTexts]. repeat split.
    + apply sublist_delete.
    + pose proof (length_delete_lt _ _ (indexOf_bound _ _ _ Hidx)). cbn [length]. lia.
  - rewrite MonitorFacts.set_sentTexts_same. repeat split; [reflexivity|cbn; lia].
Qed.

Ltac pure_step :=
  match goal with H : forall _, _ |- _ => apply H; [cbn; lia | reflexivity] end.

Lemma processStep_budget now step m :
  let '(m', evs) := processStep now step m in
  m' = set_sentTexts (sentTexts m') m
  /\ sublist (sentTexts m') (sentTexts m)
  /\ (length evs + length (sentTexts m) <= 1 + length (sentTexts m'))%nat
  /\ forallb isAgentOrGui evs = true.
Proof.
  unfold processStep.
  assert (Hpure : forall evs : list TrajectoryEvent,
             (length evs <= 1)%nat -> forallb isAgentOrGui evs = true ->
             m = set_sentTexts (sentTexts m) m
             /\ sublist (sentTexts m) (sentTexts m)
             /\ (length evs + length (sentTexts m) <= 1 + length (sentTexts m))%nat
             /\ forallb isAgentOrGui evs = true).
  { intros evs Hlen Hall. rewrite MonitorFacts.set_sentTexts_same.
    repeat split; [reflexivity|lia|exact Hall]. }
  destruct (String.eqb (type step) "CORTEX_STEP_TYPE_USER_INPUT");
    [apply handleUserInput_budget|].
  destruct (String.eqb (type step) "CORTEX_STEP_TYPE_NOTIFY_USER").
  { unfold handleNotifyUser.
    destruct (match toolCall step with Some _ => _ | None => _ end);
      [pure_step|].
    destruct (notifyUser step) as [nu|]; [|pure_step].
    destruct (message nu) as [msg|]; [|pure_step].
    destruct (String.eqb msg ""); pure_step. }
  destruct (String.eqb (type step) "CORTEX_STEP_TYPE_PLANNER_RESPONSE");
    [|pure_step].
  unfold handlePlannerResponse.
  destruct (plannerResponse step) as [pr|]; [|pure_step].
  destruct (firstNotifyMessage _); [pure_step|].
  destruct (response pr) as [r|]; [|pure_step].
  destruct (_ && _); pure_step.
Qed.

(** Processing a batch of new steps emits at most one event per step,
    never a step request, and changes nothing of the monitor but the echo
    log, from which it only removes entries. A step is reported or consumes
    a recorded echo, never both: the events emitted and the echoes consumed
    are together no more than the steps. *)
Theorem steps_reported_or_consumed (now : Z) (steps : list TrajectoryStep) (m : State) :
  let m' := fst (processNewSteps now steps m) in
  let events := snd (processNewSteps now steps m) in
  m' = set_sentTexts (sentTexts m') m
  /\ sublist (sentTexts m') (sentTexts m)
  /\ (length events + length (sentTexts m) <= length steps + length (sentTexts m'))%nat
  /\ forallb isAgentOrGui events = true.
Proof.
  revert m. induction steps as [|step rest IH]; intros m; cbn zeta.
  - cbn [processNewSteps fst snd]. rewrite MonitorFacts.set_sentTexts_same.
    repeat split; [reflexivity|cbn; lia].
  - cbn [processNewSteps].
    pose proof (processStep_budget now step m) as H1.
    destruct (processStep now step m) as [m1 evs1].
    specialize (IH m1). cbn zeta in IH.
    destruct (processNewSteps now rest m1) as [m2 evs2]. cbn [fst snd] in *.
    destruct H1 as (Hm1 & Hs1 & Hl1 & Ha1). destruct IH as (Hm2 & Hs2 & Hl2 & Ha2).
    repeat split.
    + rewrite Hm2 at 1. rewrite Hm1 at 1. reflexivity.
    + etransitivity; eassumption.
    + rewrite length_app. cbn [length]. lia.
    + rewrite forallb_app, Ha1, Ha2. reflexivity.
Qed.

End StepsMore.
